(** * ci-signal-report: a shallow embedding of the fetch-classify-merge core

    Source files covered:
    - [cmd/ci-reporter.go] (second unit: the issue path of package
      [cireporter]: [transformIntoReportData], [GetGithubIssues],
      [requestGithubIssues], [filterGithubIssues], [checkTimeBefore]);
    - [pkg/ci-reporter/github-reporter.go] (the card path:
      [assembleCardRequests], [findCardsID], [requestGhIssueDetail]);
    - [pkg/ci-reporter/testgrid-reporter.go] ([assembleTestgridRequests],
      [getSummary], [getDetails], [getRegexParams]).

    Part I holds the definitions, Part II the lemmas and theorems. *)

From Stdlib Require Import ZArith QArith Ascii String List Lia Permutation.
From Stdlib Require Import PrimFloat Uint63.
From stdpp Require Import base gmap strings list pretty sorting.

Local Open Scope Z_scope.

(* ===================================================================== *)
(** * Part I: definitions                                                 *)
(* ===================================================================== *)

(** ** Go's [strings] package, on ASCII text

    Go strings are byte sequences read as UTF-8.  Every function below is
    the byte-level reading of its Go namesake and agrees with it on strings
    whose bytes are all below 128 ([isASCII]); label names, URLs and status
    words handled by the program are of that kind. *)
Module GoStrings.

Definition code (c : ascii) : N := N_of_ascii c.

Definition isLower (c : ascii) : bool := ((97 <=? code c) && (code c <=? 122))%N.
Definition isUpper (c : ascii) : bool := ((65 <=? code c) && (code c <=? 90))%N.
Definition isDigit (c : ascii) : bool := ((48 <=? code c) && (code c <=? 57))%N.

Definition isASCIIByte (c : ascii) : bool := (code c <? 128)%N.

Fixpoint isASCII (s : string) : bool :=
  match s with
  | EmptyString => true
  | String c s' => isASCIIByte c && isASCII s'
  end.

(** [unicode.ToUpper], [unicode.ToLower] and [unicode.ToTitle] on one ASCII
    character (title case and upper case coincide there). *)
Definition upperChar (c : ascii) : ascii :=
  if isLower c then ascii_of_N (code c - 32) else c.
Definition lowerChar (c : ascii) : ascii :=
  if isUpper c then ascii_of_N (code c + 32) else c.

Fixpoint mapChars (f : ascii -> ascii) (s : string) : string :=
  match s with
  | EmptyString => EmptyString
  | String c s' => String (f c) (mapChars f s')
  end.

(** [strings.ToUpper] and [strings.ToLower]. *)
Definition ToUpper (s : string) : string := mapChars upperChar s.
Definition ToLower (s : string) : string := mapChars lowerChar s.

(** [strings.EqualFold]: equality under simple case folding. *)
Fixpoint EqualFold (s t : string) : bool :=
  match s, t with
  | EmptyString, EmptyString => true
  | String a s', String b t' =>
      Ascii.eqb (lowerChar a) (lowerChar b) && EqualFold s' t'
  | _, _ => false
  end.

(** [strings.HasPrefix]. *)
Fixpoint HasPrefix (s prefix : string) {struct prefix} : bool :=
  match prefix with
  | EmptyString => true
  | String p prefix' =>
      match s with
      | EmptyString => false
      | String c s' => Ascii.eqb c p && HasPrefix s' prefix'
      end
  end.

(** [strings.Contains]: [substr] occurs somewhere in [s]. *)
Fixpoint Contains (s substr : string) : bool :=
  HasPrefix s substr ||
  match s with
  | EmptyString => false
  | String _ s' => Contains s' substr
  end.

(** [strings.Replace s old new (-1)]: every non-overlapping occurrence of
    [old], scanning from the left, is replaced by [new].  [skip] counts the
    characters of the occurrence just matched that are still to be dropped. *)
Fixpoint replaceFrom (old new : string) (skip : nat) (s : string) : string :=
  match skip with
  | S k =>
      match s with
      | EmptyString => EmptyString
      | String _ s' => replaceFrom old new k s'
      end
  | O =>
      if HasPrefix s old then
        new +:+
        match String.length old, s with
        | _, EmptyString => EmptyString
        | O, String c s' => String c (replaceFrom old new O s')
        | S k, String _ s' => replaceFrom old new k s'
        end
      else
        match s with
        | EmptyString => EmptyString
        | String c s' => String c (replaceFrom old new O s')
        end
  end.

Definition Replace (s old new : string) : string := replaceFrom old new O s.

(** [strings.isSeparator] on ASCII: letters, digits and the underscore are
    not separators, every other ASCII character is. *)
Definition isSeparator (c : ascii) : bool :=
  negb (isDigit c || isLower c || isUpper c || Ascii.eqb c "_").

(** [strings.Title]: the first letter of every word is mapped to title case;
    [prev] is the character read before the current one, a space at first. *)
Fixpoint titleFrom (prev : ascii) (s : string) : string :=
  match s with
  | EmptyString => EmptyString
  | String c s' =>
      String (if isSeparator prev then upperChar c else c) (titleFrom c s')
  end.

Definition Title (s : string) : string := titleFrom " " s.

(** [strings.Repeat]. *)
Fixpoint Repeat (s : string) (count : nat) : string :=
  match count with
  | O => EmptyString
  | S k => s +:+ Repeat s k
  end.

End GoStrings.

(** ** Go's [time] package: instants, calendar arithmetic, parsing *)
Module GoTime.

(** An instant ([time.Time] as compared by [Before]): seconds since the Unix
    epoch and nanoseconds within the second. *)
Record Time := mkTime {
  unixSec : Z;
  nanos : Z
}.

(** [t.Before(u)]. *)
Definition Before (t u : Time) : bool :=
  (unixSec t <? unixSec u) || ((unixSec t =? unixSec u) && (nanos t <? nanos u)).

Definition isLeap (year : Z) : bool :=
  (year mod 4 =? 0) && (negb (year mod 100 =? 0) || (year mod 400 =? 0)).

(** [daysBefore[month-1]]: days of a non-leap year before [month] starts. *)
Definition daysBefore (month : Z) : Z :=
  nth (Z.to_nat (month - 1))
      [0; 31; 59; 90; 120; 151; 181; 212; 243; 273; 304; 334] 365.

(** [daysIn(month, year)]. *)
Definition daysIn (month year : Z) : Z :=
  if (month =? 2) && isLeap year then 29
  else daysBefore (month + 1) - daysBefore month.

(** Days from 1 January 1970 to 1 January of [year] in the proleptic
    Gregorian calendar (what [daysSinceEpoch] yields once the offset to the
    Unix epoch is applied). *)
Definition daysSinceEpoch (year : Z) : Z :=
  let y := year - 1 in
  365 * (year - 1970) + (y / 4 - y / 100 + y / 400) - 477.

(** [norm(hi, lo, base)]: [lo] is brought into [0, base), the excess is
    carried into [hi]. *)
Definition norm (hi lo base : Z) : Z * Z := (hi + lo / base, lo mod base).

(** [time.Date(year, month, day, hour, min, sec, nsec, loc)] for a location
    [zoneOffset] seconds east of UTC: the fields may be out of range and are
    normalised. *)
Definition Date (year month day hour min sec nsec zoneOffset : Z) : Time :=
  let '(year, m) := norm year (month - 1) 12 in
  let month := m + 1 in
  let '(sec, nsec) := norm sec nsec 1000000000 in
  let '(min, sec) := norm min sec 60 in
  let '(hour, min) := norm hour min 60 in
  let '(day, hour) := norm day hour 24 in
  let d := daysSinceEpoch year + daysBefore month in
  let d := if isLeap year && (3 <=? month) then d + 1 else d in
  let d := d + (day - 1) in
  mkTime (d * 86400 + (hour * 3600 + min * 60 + sec) - zoneOffset) nsec.

(** A reading of the clock ([time.Now()]), through what [t.Date()],
    [t.Clock()], [t.Nanosecond()] and the zone of its location return. *)
Record Reading := mkReading {
  year : Z;
  month : Z;
  day : Z;
  hour : Z;
  minute : Z;
  second : Z;
  nanosecond : Z;
  zoneOffset : Z
}.

Definition validReading (r : Reading) : bool :=
  (1 <=? month r) && (month r <=? 12) &&
  (1 <=? day r) && (day r <=? daysIn (month r) (year r)) &&
  (0 <=? hour r) && (hour r <? 24) &&
  (0 <=? minute r) && (minute r <? 60) &&
  (0 <=? second r) && (second r <? 60) &&
  (0 <=? nanosecond r) && (nanosecond r <? 1000000000).

(** The instant of a reading. *)
Definition instant (r : Reading) : Time :=
  Date (year r) (month r) (day r) (hour r) (minute r) (second r)
       (nanosecond r) (zoneOffset r).

(** [t.AddDate(years, months, days)], in a location of fixed offset: the
    zone offset of the reading is kept for the target date (where the
    offset changes with the season, Go takes the one in force at the
    target date). *)
Definition AddDate (r : Reading) (years months days : Z) : Time :=
  Date (year r + years) (month r + months) (day r + days)
       (hour r) (minute r) (second r) (nanosecond r) (zoneOffset r).

(** The zero [Time{}]: 1 January of year 1, 00:00:00 UTC. *)
Definition zeroTime : Time := Date 1 1 1 0 0 0 0 0.

Definition digitValue (c : ascii) : option Z :=
  if GoStrings.isDigit c then Some (Z.of_N (GoStrings.code c) - 48) else None.

(** [getnum(s, fixed)]: one or two leading digits; two are required when
    [fixed]. *)
Definition getnum (s : string) (fixed : bool) : option (Z * string) :=
  match s with
  | String a rest =>
      match digitValue a with
      | None => None
      | Some x =>
          match rest with
          | String b rest' =>
              match digitValue b with
              | Some y => Some (x * 10 + y, rest')
              | None => if fixed then None else Some (x, rest)
              end
          | EmptyString => if fixed then None else Some (x, rest)
          end
      end
  | EmptyString => None
  end.

(** The four-digit year of layout element [2006]. *)
Definition getyear (s : string) : option (Z * string) :=
  match s with
  | String a (String b (String c (String d rest))) =>
      match digitValue a, digitValue b, digitValue c, digitValue d with
      | Some x, Some y, Some z, Some w =>
          Some (((x * 10 + y) * 10 + z) * 10 + w, rest)
      | _, _, _, _ => None
      end
  | _ => None
  end.

(** A literal character of the layout. *)
Definition skip (c : ascii) (s : string) : option string :=
  match s with
  | String a rest => if Ascii.eqb a c then Some rest else None
  | EmptyString => None
  end.

(** The run of digits at the head of [s] and what follows it. *)
Fixpoint leadingDigits (s : string) : list Z * string :=
  match s with
  | String a rest =>
      match digitValue a with
      | Some x => let '(ds, rest') := leadingDigits rest in (x :: ds, rest')
      | None => ([], s)
      end
  | EmptyString => ([], s)
  end.

(** [parseNanoseconds]: at most nine digits count, scaled to nanoseconds. *)
Definition fractionNanos (ds : list Z) : Z :=
  fold_left (fun acc x => acc * 10 + x) (take 9 (ds ++ replicate 9 0)) 0.

(** A fractional second in the input that the layout does not mention
    (a period or comma followed by a digit) is read all the same. *)
Definition optionalFraction (s : string) : Z * string :=
  match s with
  | String a rest =>
      if Ascii.eqb a "." || Ascii.eqb a "," then
        match leadingDigits rest with
        | ([], _) => (0, s)
        | (ds, rest') => (fractionNanos ds, rest')
        end
      else (0, s)
  | EmptyString => (0, s)
  end.

(** [time.Parse("2006-01-02T15:04:05Z", s)]: [None] stands for the error
    result.  The fields are range-checked, the day against the month. *)
Definition Parse (s : string) : option Time :=
  '(year, s) ← getyear s;
  s ← skip "-" s;
  '(month, s) ← getnum s true;
  s ← skip "-" s;
  '(day, s) ← getnum s true;
  s ← skip "T" s;
  '(hour, s) ← getnum s false;
  s ← skip ":" s;
  '(min, s) ← getnum s true;
  s ← skip ":" s;
  '(sec, s) ← getnum s true;
  let '(nsec, s) := optionalFraction s in
  s ← skip "Z" s;
  if negb (String.eqb s "") then None
  else if (month <=? 0) || (12 <? month) then None
  else if (24 <=? hour) || (60 <=? min) || (60 <=? sec) then None
  else if (day <? 1) || (daysIn month year <? day) then None
  else Some (Date year month day hour min sec nsec 0).

(** Decimal digits, for writing timestamps. *)
Definition digitChar (n : Z) : ascii := ascii_of_N (Z.to_N (48 + n mod 10)).

Definition twoDigits (n : Z) (rest : string) : string :=
  String (digitChar (n / 10)) (String (digitChar n) rest).

(** The timestamp GitHub writes for a UTC date and time:
    [yyyy-mm-ddThh:mm:ssZ]. *)
Definition formatUTC (year month day hour min sec : Z) : string :=
  twoDigits (year / 100) (twoDigits year (String "-" (twoDigits month
    (String "-" (twoDigits day (String "T" (twoDigits hour (String ":"
    (twoDigits min (String ":" (twoDigits sec "Z"))))))))))).

(** The timestamp of a reading, as GitHub writes it. *)
Definition timestamp (r : Reading) : string :=
  formatUTC (year r) (month r) (day r) (hour r) (minute r) (second r).

(** A reading in UTC, on a whole second, of a year of four digits: what a
    timestamp can express. *)
Definition utcSeconds (r : Reading) : bool :=
  (nanosecond r =? 0) && (zoneOffset r =? 0) && (0 <=? year r) && (year r <=? 9999).

(** [!u.Before(t)]: [t] is not later than [u]. *)
Definition notAfter (t u : Time) : bool := negb (Before u t).

(** The day number (from 1 January 1970) on which month [month] of [year]
    starts, for a month that may be out of range: the first lines of [Date]. *)
Definition monthStart (year month : Z) : Z :=
  let '(year, m) := norm year (month - 1) 12 in
  let month := m + 1 in
  let d := daysSinceEpoch year + daysBefore month in
  if isLeap year && (3 <=? month) then d + 1 else d.

End GoTime.

(** ** How a run of the process can end *)

(** A call either returns, or the process is terminated by [log.Fatalf]
    (message logged, [os.Exit(1)]), or it crashes on a run-time panic. *)
Inductive Run (A : Type) : Type :=
| Returned (a : A)
| Fatal (msg : string)
| Panicked (msg : string).
Arguments Returned {A} a.
Arguments Fatal {A} msg.
Arguments Panicked {A} msg.

(** ** The issue path ([cmd/ci-reporter.go], package [cireporter]) *)
Module Issues.

(** [Label], [Milestone] and [GithubIssueElement] as declared in the source. *)
Record Label := mkLabel {
  Name : string;
  Color : string
}.

Record Milestone := mkMilestone {
  MilestoneTitle : string
}.

Record GithubIssueElement := mkIssue {
  HTMLURL : string;
  Number : Z;
  Title : string;
  Labels : list Label;
  State : string;
  IssueMilestone : option Milestone;
  Comments : Z;
  CreatedAt : string;
  UpdatedAt : string;
  ClosedAt : string
}.

(** [type GithubIssues []GithubIssueElement] and
    [type GithubIssuesAfterId map[int64]GithubIssueElement]. *)
Abbreviation GithubIssues := (list GithubIssueElement).
Abbreviation GithubIssuesAfterId := (gmap Z GithubIssueElement).

(** The body of the inner loop of [filterGithubIssues]: one label updates
    the running flag [fine] with four conjuncts. *)
Definition labelKeepsFine (fine : bool) (label : Label) : bool :=
  let fine := fine && negb (GoStrings.Contains (Name label) "priority/backlog") in
  let fine := fine && negb (GoStrings.Contains (Name label) "triage/accepted") in
  let fine := fine && negb (GoStrings.Contains (Name label) "lifecycle/rotten") in
  let fine := fine && negb (GoStrings.Contains (Name label) "lifecycle/stale") in
  fine.

(** The value of [fine] when the body of the outer loop reaches [if fine]. *)
Definition issueFine (i : GithubIssueElement) : bool :=
  let fine := fold_left labelKeepsFine (Labels i) true in
  fine && negb (GoStrings.Contains (HTMLURL i) "pull").

(** The loop of [filterGithubIssues], from the map built so far: an issue
    that stays [fine] is stored under its number, over any earlier entry. *)
Definition filterInto (filteredIssues : GithubIssuesAfterId) (issues : GithubIssues)
    : GithubIssuesAfterId :=
  fold_left
    (fun (filteredIssues : GithubIssuesAfterId) i =>
       if issueFine i then <[Number i := i]> filteredIssues else filteredIssues)
    issues filteredIssues.

(** [filterGithubIssues]: the loop from the empty map. *)
Definition filterGithubIssues (issues : GithubIssues) : GithubIssuesAfterId :=
  filterInto ∅ issues.

(** [checkTimeBefore]: the error of [time.Parse] is discarded, so a string
    that does not parse is compared as the zero time. *)
Definition checkTimeBefore (s : string) (u : GoTime.Time) : bool :=
  let t := default GoTime.zeroTime (GoTime.Parse s) in
  GoTime.Before t u.

(** The age highlight of [transformIntoReportData].  [statusOldEmoji] and
    [statusNewEmoji] are constants of the package whose declarations are
    not part of the sources at hand; they are parameters here.  The clock
    is read twice, [now1] for the first test and [now2] for the second. *)
Definition ageHighlight (statusOldEmoji statusNewEmoji : string)
    (now1 now2 : GoTime.Reading) (createdAt : string) : string :=
  let highlight := "" in
  let highlight :=
    if checkTimeBefore createdAt (GoTime.AddDate now1 0 (-3) 0)
    then highlight +:+ statusOldEmoji else highlight in
  let highlight :=
    if negb (checkTimeBefore createdAt (GoTime.AddDate now2 0 0 (-5)))
    then highlight +:+ statusNewEmoji else highlight in
  highlight.

(** *** Pagination *)

(** The URL of a page request: the base URL of [GetGithubIssues] followed
    by the [&page=<n>] parameters appended so far.  [requestGithubIssues]
    formats the page parameter onto the URL it was given and hands the
    result to the worker of the next page, so the parameters accumulate. *)
Record Url := mkUrl {
  base : string;
  pageParams : list Z
}.

(** [fmt.Sprintf("%s&%s=%d", url, string(IssueReqParamPage), page)]. *)
Definition withPage (url : Url) (page : Z) : Url :=
  mkUrl (base url) (pageParams url ++ [page]).

(** What one GET of the listing comes to, in the order the source tests
    for failure: building the request, sending it, reading the body,
    decoding the body. *)
Inductive Response :=
| NewRequestFailed (err : string)
| SendFailed (err : string)
| ReadFailed (err : string)
| UnmarshalFailed (err : string)
| Decoded (requestedIssues : GithubIssues).

(** The remote service: the response to a request for [url] carrying the
    bearer token [authToken]. *)
Definition Service := Url -> string -> Response.

(** What the page workers have done when the last of them is finished: the
    requests issued, in the order of issue, and the maps sent on the
    channel, by page. *)
Record Fetched := mkFetched {
  requests : list Url;
  sent : list GithubIssuesAfterId
}.

Definition addRequest (url : Url) (r : Run Fetched) : Run Fetched :=
  match r with
  | Returned f => Returned (mkFetched (url :: requests f) (sent f))
  | Fatal msg => Fatal msg
  | Panicked msg => Panicked msg
  end.

Definition addSent (m : GithubIssuesAfterId) (r : Run Fetched) : Run Fetched :=
  match r with
  | Returned f => Returned (mkFetched (requests f) (m :: sent f))
  | Fatal msg => Fatal msg
  | Panicked msg => Panicked msg
  end.

(** The message of [log.Fatalf(what + "\n[ERROR] -%v", err)]. *)
Definition fatalMessage (what err : string) : string :=
  what +:+ String "010" ("[ERROR] -" +:+ err).

(** [requestGithubIssues]: the worker of [page] and, through the [go]
    statement in its body, the workers of the pages after it.  The worker
    of the next page is started only after this page has been decoded, so
    the requests form a chain whatever the scheduling.  [fuel] bounds the
    length of the chain; [None] means that it ran out. *)
Fixpoint requestGithubIssues (fuel : nat) (service : Service)
    (url : Url) (page : Z) (authToken : string) : option (Run Fetched) :=
  match fuel with
  | O => None
  | S fuel =>
      let url := withPage url page in
      match service url authToken with
      | NewRequestFailed err =>
          Some (Fatal (fatalMessage "Error on creating http request." err))
      | SendFailed err =>
          Some (addRequest url (Fatal (fatalMessage "Error on sending http request." err)))
      | ReadFailed err =>
          Some (addRequest url (Fatal (fatalMessage "Error on read from response body." err)))
      | UnmarshalFailed err =>
          Some (addRequest url (Fatal (fatalMessage "Error on UnmarshalGithubIssue." err)))
      | Decoded requestedIssues =>
          let next :=
            if negb (length requestedIssues =? 0)%nat
            then requestGithubIssues fuel service url (page + 1) authToken
            else Some (Returned (mkFetched [] [])) in
          (fun r => addRequest url (addSent (filterGithubIssues requestedIssues) r))
            <$> next
      end
  end.

(** [assembleGithubIssues]: the chain starts at page 1. *)
Definition assembleGithubIssues (fuel : nat) (service : Service)
    (url : string) (authToken : string) : option (Run Fetched) :=
  requestGithubIssues fuel service (mkUrl url []) 1 authToken.

(** The loop of [GetGithubIssues] over the channel: the maps are merged in
    the order they arrive. *)
Definition collect (arrived : list GithubIssuesAfterId) : GithubIssuesAfterId :=
  fold_left
    (fun (collectedIssues : GithubIssuesAfterId) issues =>
       map_fold (fun k issue acc => <[k := issue]> acc) collectedIssues issues)
    arrived ∅.

(** [GetGithubIssues], from the URL it has built: the caller of the fetch.
    Its result type has no error component.  The maps are merged here in
    the order of the pages, which is one of the orders in which they can
    arrive on the channel; the relation [step] below covers them all. *)
Definition GetGithubIssues (fuel : nat) (service : Service)
    (url : string) (authToken : string) : option (Run GithubIssuesAfterId) :=
  r ← assembleGithubIssues fuel service url authToken;
  Some match r with
       | Returned f => Returned (collect (sent f))
       | Fatal msg => Fatal msg
       | Panicked msg => Panicked msg
       end.

(** A listing of [items] served in pages of [perPage]: page [n] (counted
    from 1) holds the items from position [(n-1) * perPage] on.  Of
    repeated [page] parameters the service reads the last one. *)
Definition pageOf (items : GithubIssues) (perPage : nat) (n : Z) : GithubIssues :=
  take perPage (drop (Z.to_nat (n - 1) * perPage) items).

Definition pagedService (items : GithubIssues) (perPage : nat) : Service :=
  fun url _ => Decoded (pageOf items perPage (List.last (pageParams url) 1)).

(** *** The page workers as concurrent goroutines

    The chain above fixes one order of events.  The relation below lets
    the scheduler choose: a goroutine that was started issues its request
    (and, on a page that is not empty, starts the goroutine of the next
    page before it blocks on the channel), or the reader of the channel
    takes the map of one of the goroutines blocked on it. *)

(** The message [log.Fatalf] writes for a response, if it is a failure. *)
Definition failureOf (r : Response) : option string :=
  match r with
  | NewRequestFailed err => Some (fatalMessage "Error on creating http request." err)
  | SendFailed err => Some (fatalMessage "Error on sending http request." err)
  | ReadFailed err => Some (fatalMessage "Error on read from response body." err)
  | UnmarshalFailed err => Some (fatalMessage "Error on UnmarshalGithubIssue." err)
  | Decoded _ => None
  end.

(** The goroutines of one fetch: those started that have not yet issued
    their request, with the URL and page they were given; the maps of
    those blocked at [c <- ...]; the requests issued so far; the maps the
    reader has received so far. *)
Record Pool := mkPool {
  started : list (Url * Z);
  blocked : list GithubIssuesAfterId;
  issued : list Url;
  received : list GithubIssuesAfterId
}.

(** The process runs, or [log.Fatalf] has ended it. *)
Inductive Process :=
| Running (pool : Pool)
| Exited (msg : string).

Inductive step (service : Service) (authToken : string) : Process -> Process -> Prop :=
| step_request before url page after blocked issued received requestedIssues :
    service (withPage url page) authToken = Decoded requestedIssues ->
    step service authToken
      (Running (mkPool (before ++ (url, page) :: after) blocked issued received))
      (Running (mkPool
         (before ++ after ++
            (if negb (length requestedIssues =? 0)%nat
             then [(withPage url page, page + 1)] else []))
         (blocked ++ [filterGithubIssues requestedIssues])
         (issued ++ [withPage url page])
         received))
| step_fatal before url page after blocked issued received msg :
    failureOf (service (withPage url page) authToken) = Some msg ->
    step service authToken
      (Running (mkPool (before ++ (url, page) :: after) blocked issued received))
      (Exited msg)
| step_receive started before issues after issued received :
    step service authToken
      (Running (mkPool started (before ++ issues :: after) issued received))
      (Running (mkPool started (before ++ after) issued (received ++ [issues]))).

(** [assembleGithubIssues] has started the goroutine of page 1. *)
Definition initialPool (url : string) : Process :=
  Running (mkPool [(mkUrl url [], 1)] [] [] []).

(** The wait group is at zero: no goroutine is left, the channel is closed
    and the loop of the reader ends. *)
Definition finished (pool : Pool) : Prop := started pool = [] /\ blocked pool = [].

(** An open issue with the given number, HTML URL and label names, for
    the examples. *)
Definition issueOf (number : Z) (htmlURL : string) (labels : list string)
    : GithubIssueElement :=
  mkIssue htmlURL number "[Failing Test] a test" ((fun name => mkLabel name "ededed") <$> labels)
          "open" None 0 "2021-08-30T09:15:00Z" "2021-09-01T12:00:00Z" "".

(** Five items of a listing: two kept by the filter, a pull request, and
    two issues carrying an excluded label. *)
Definition exampleListing : GithubIssues :=
  [issueOf 101 "https://github.com/kubernetes/kubernetes/issues/101"
           ["kind/failing-test"; "sig/node"];
   issueOf 102 "https://github.com/kubernetes/kubernetes/pull/102"
           ["kind/failing-test"];
   issueOf 103 "https://github.com/kubernetes/kubernetes/issues/103"
           ["kind/failing-test"; "lifecycle/stale"];
   issueOf 104 "https://github.com/kubernetes/kubernetes/issues/104"
           ["kind/failing-test"; "priority/backlog"];
   issueOf 105 "https://github.com/kubernetes/kubernetes/issues/105"
           ["kind/failing-test"; "sig/cli"; "priority/critical-urgent"]].

(** A service whose first page holds the first two items of the example
    listing and whose second page does not decode. *)
Definition brokenSecondPage : Service :=
  fun url _ =>
    match List.last (pageParams url) 1 with
    | 1 => Decoded (take 2 exampleListing)
    | _ => UnmarshalFailed "unexpected end of JSON input"
    end.

(** A service that cannot be reached: every request fails in transport. *)
Definition unreachableService : Service :=
  fun _ _ => SendFailed "dial tcp: connection refused".

End Issues.

(** ** The card path ([pkg/ci-reporter/github-reporter.go]) *)
Module Cards.

(** [github.ProjectColumn], the two fields that are read; both are
    pointers in the client library, [None] is the nil pointer. *)
Record ProjectColumn := mkColumn {
  ColumnID : option Z;
  ColumnName : option string
}.

(** The method [GetID] of [ProjectColumn]: zero for a nil field. *)
Definition GetID (c : ProjectColumn) : Z := default 0 (ColumnID c).

(** The test [v.Name != nil && *v.Name == keyword]. *)
Definition nameIs (keyword : string) (v : ProjectColumn) : bool :=
  match ColumnName v with
  | Some name => String.eqb name keyword
  | None => false
  end.

(** The order [sort.Slice] establishes with the [less] of [findCardsID]:
    no element is followed by one of smaller identifier. *)
Definition notAfter (a b : ProjectColumn) : Prop := GetID a <= GetID b.

#[global] Instance notAfter_dec : RelDecision notAfter.
Proof. intros a b. unfold notAfter. apply _. Defined.

(** [findCardsID], from what [ListProjectColumns] returned ([cards] and
    [err]).  The result is the pair of return values.  [sort.Slice] is
    modelled by a merge sort; only the identifier of the first element is
    read afterwards, which is the same for every sorted arrangement.
    Indexing the empty slice is a run-time panic. *)
Definition findCardsID (cards : list ProjectColumn) (err : option string)
    (keyword : string) : Run (Z * option string) :=
  match err with
  | Some e => Returned (0, Some e)
  | None =>
      let resolvedColumns := List.filter (nameIs keyword) cards in
      let resolvedColumns := merge_sort notAfter resolvedColumns in
      match resolvedColumns with
      | [] => Panicked "index out of range [0] with length 0"
      | first :: _ => Returned (GetID first, err)
      end
  end.

(** [github.ProjectCard] and [github.Label], the fields that are read. *)
Record ProjectCard := mkCard {
  ContentURL : option string
}.

Record Label := mkLabel {
  Name : option string
}.

Record ghIssueDetail := mkDetail {
  Number : Z;
  HTMLURL : string;
  DetailTitle : string;
  Labels : list Label
}.

Record ghIssueOverview := mkOverview {
  URL : string;
  ID : Z;
  Title : string;
  Sig : string
}.

(** What the GET of a card's content URL comes to.  [SendFailed] is an
    error of [client.Do] that leaves the response nil; [RedirectStopped] is
    the one error of [client.Do] that comes with a response, its body
    already closed. *)
Inductive Response :=
| NewRequestFailed (err : string)
| SendFailed (err : string)
| RedirectStopped (err : string)
| ReadFailed (err : string)
| UnmarshalFailed (err : string)
| Decoded (result : ghIssueDetail).

Definition Service := string -> string -> Response.

Definition noDetail : ghIssueDetail := mkDetail 0 "" "" [].

(** [requestGhIssueDetail]: the two return values.  After an error of
    [client.Do] the function goes on to [resp.Body]; with a nil response
    that dereference panics. *)
Definition requestGhIssueDetail (service : Service) (url authToken : string)
    : Run (ghIssueDetail * option string) :=
  match service url authToken with
  | NewRequestFailed err => Returned (noDetail, Some err)
  | SendFailed _ => Panicked "invalid memory address or nil pointer dereference"
  | RedirectStopped _ => Returned (noDetail, Some "http: read on closed response body")
  | ReadFailed err => Returned (noDetail, Some err)
  | UnmarshalFailed err => Returned (noDetail, Some err)
  | Decoded result => Returned (result, None)
  end.

(** The normalisation applied to the first label that contains [sig/]. *)
Definition normaliseSig (name : string) : string :=
  let sig := GoStrings.Title (GoStrings.Replace name "sig/" "") in
  let sig := if GoStrings.EqualFold sig "cli" then GoStrings.ToUpper sig else sig in
  let sig :=
    if GoStrings.EqualFold sig "cluster-lifecycle" then GoStrings.ToLower sig else sig in
  sig.

(** The loop over [issueDetail.Labels] with its [break]: [sig] is the
    current value of [overview.Sig].  [*v.Name] panics on a nil name. *)
Fixpoint sigOfLabels (labels : list Label) (sig : string) : Run string :=
  match labels with
  | [] => Returned sig
  | v :: labels' =>
      match Name v with
      | None => Panicked "invalid memory address or nil pointer dereference"
      | Some name =>
          if GoStrings.Contains name "sig/" then Returned (normaliseSig name)
          else sigOfLabels labels' sig
      end
  end.

(** What the workers of [assembleCardRequests] have done: the content URLs
    fetched and the records sent on the channel [c], by card. *)
Record Resolved := mkResolved {
  fetched : list string;
  sent : list ghIssueOverview
}.

(** The body of the worker of one card.  The error of
    [requestGhIssueDetail] is logged and the record is built all the same. *)
Definition cardWorker (service : Service) (token : string) (card : ProjectCard)
    : Run Resolved :=
  match ContentURL card with
  | None => Returned (mkResolved [] [])
  | Some url =>
      match requestGhIssueDetail service url token with
      | Returned (issueDetail, _) =>
          let overview :=
            mkOverview (HTMLURL issueDetail) (Number issueDetail)
              (GoStrings.Replace (DetailTitle issueDetail) "[Failing Test]" "") "" in
          match sigOfLabels (Labels issueDetail) (Sig overview) with
          | Returned sig =>
              Returned (mkResolved [url]
                [mkOverview (URL overview) (ID overview) (Title overview) sig])
          | Fatal msg => Fatal msg
          | Panicked msg => Panicked msg
          end
      | Fatal msg => Fatal msg
      | Panicked msg => Panicked msg
      end
  end.

(** [assembleCardRequests], from the cards [ListProjectCards] returned (an
    error of the listing is logged and leaves no card): one worker per
    card; a panic in any of them crashes the process. *)
Fixpoint assembleCardRequests (service : Service) (token : string)
    (cards : list ProjectCard) : Run Resolved :=
  match cards with
  | [] => Returned (mkResolved [] [])
  | card :: cards' =>
      match cardWorker service token card with
      | Returned r =>
          match assembleCardRequests service token cards' with
          | Returned r' =>
              Returned (mkResolved (fetched r ++ fetched r') (sent r ++ sent r'))
          | Fatal msg => Fatal msg
          | Panicked msg => Panicked msg
          end
      | Fatal msg => Fatal msg
      | Panicked msg => Panicked msg
      end
  end.

(** A service for the examples: one content URL leads to an issue with
    three labels, another to a body that does not decode. *)
Definition exampleService : Service :=
  fun url _ =>
    if String.eqb url "https://api.github.com/repos/kubernetes/kubernetes/issues/101"
    then Decoded (mkDetail 101 "https://github.com/kubernetes/kubernetes/issues/101"
                           "[Failing Test] pods should start"
                           [mkLabel (Some "kind/failing-test");
                            mkLabel (Some "sig/node"); mkLabel (Some "sig/cli")])
    else UnmarshalFailed "unexpected end of JSON input".

Definition exampleCards : list ProjectCard :=
  [mkCard (Some "https://api.github.com/repos/kubernetes/kubernetes/issues/101");
   mkCard None;
   mkCard (Some "https://api.github.com/repos/kubernetes/kubernetes/issues/999")].

End Cards.

(** ** The dashboard path ([pkg/ci-reporter/testgrid-reporter.go]) *)
Module Testgrid.

(** [type OverallStatus string] and its constants. *)
Abbreviation OverallStatus := string (only parsing).
Definition Total : OverallStatus := "TOTAL".
Definition Failing : OverallStatus := "FAILING".
Definition Flaky : OverallStatus := "FLAKY".
Definition Passing : OverallStatus := "PASSING".
Definition Stale : OverallStatus := "STALE".

(** [Test] and [TestgridValue], the fields that are read. *)
Record Test := mkTest {
  TestName : string
}.

Record TestgridValue := mkValue {
  JobOverallStatus : OverallStatus;
  JobStatus : string;
  Tests : list Test
}.

(** [type TestgridData map[string]TestgridValue]. *)
Abbreviation TestgridData := (gmap string TestgridValue).

Record testgridJob := mkJob {
  OutputName : string;
  URLName : string;
  JobEmoji : string
}.

(** Modelled from the spec: the type [Severity] and its constants are
    declared outside the sources at hand; the data model gives the ordinal
    [{None=0, Light=1, Medium=2, High=3}], and the source converts it from
    and to [int] ([Severity(0)], [int(severity)]), so it is an integer here. *)
Definition LightSeverity : Z := 1.
Definition MediumSeverity : Z := 2.
Definition HighSeverity : Z := 3.

(** Modelled from the spec: the declaration of [ReportDataRecord] that this
    file is compiled against is outside the sources at hand; these are the
    fields the source assigns, with the types it assigns them at. *)
Record ReportDataRecord := mkRecord {
  ID : Z;
  Status : string;
  Severity : Z;
  Highlight : string;
  Title : string;
  URL : string;
  Notes : list string
}.

Record ReportDataField := mkField {
  Emoji : string;
  FieldTitle : string;
  Records : list ReportDataRecord
}.

Definition testgridReportSummary : Z := 0.
Definition testgridReportDetails : Z := 1.

(** [statuses[k]++] on a [map[OverallStatus]int]: a missing key reads 0. *)
Definition increment (k : OverallStatus) (statuses : gmap string Z) : gmap string Z :=
  <[k := default 0 (statuses !! k) + 1]> statuses.

(** The body of the loop of [getSummary]. *)
Definition tally (statuses : gmap string Z) (v : TestgridValue) : gmap string Z :=
  if String.eqb (JobOverallStatus v) Passing then increment Passing statuses
  else if String.eqb (JobOverallStatus v) Failing then increment Failing statuses
  else if String.eqb (JobOverallStatus v) Flaky then increment Flaky statuses
  else increment Stale statuses.

(** [fmt.Sprintf("%d jobs %s", statuses[k], strings.ToLower(string(k)))]. *)
Definition countLine (statuses : gmap string Z) (k : OverallStatus) : string :=
  pretty (default 0 (statuses !! k)) +:+ " jobs " +:+ GoStrings.ToLower k.

(** [getSummary].  The loop visits the values of the map in an order Go
    leaves open; the counts do not depend on it. *)
Definition getSummary (jobs : TestgridData) : ReportDataRecord :=
  let statuses : gmap string Z :=
    <[Total := Z.of_nat (size jobs)]>
      (<[Passing := 0]> (<[Failing := 0]> (<[Flaky := 0]> (<[Stale := 0]> ∅)))) in
  let statuses := fold_left tally (map_to_list jobs).*2 statuses in
  let notes := [] in
  let notes := notes ++ [countLine statuses Total] in
  let notes := notes ++ [countLine statuses Passing] in
  let notes := notes ++ [countLine statuses Flaky] in
  let notes := notes ++ [countLine statuses Failing] in
  let notes :=
    if negb (default 0 (statuses !! Stale) =? 0)
    then notes ++ [countLine statuses Stale] else notes in
  mkRecord testgridReportSummary "" 0 "" "" "" notes.

Definition isLetter (c : ascii) : bool := GoStrings.isLower c || GoStrings.isUpper c.

(** [\s] of Go's regular expressions: tab, line feed, form feed, carriage
    return, space. *)
Definition isSpace (c : ascii) : bool :=
  let n := GoStrings.code c in
  ((n =? 9) || (n =? 10) || (n =? 12) || (n =? 13) || (n =? 32))%N.

Fixpoint takeLetters (s : string) : string :=
  match s with
  | String c s' => if isLetter c then String c (takeLetters s') else EmptyString
  | EmptyString => EmptyString
  end.

(** [regexp.MustCompile(`sig-[a-zA-Z]+`).FindAllString(s, -1)]: the
    matches from left to right, none overlapping; [skip] counts the
    characters of the last match still to be passed. *)
Fixpoint findAllSigs (skip : nat) (s : string) : list string :=
  match s with
  | EmptyString => []
  | String _ s' =>
      match skip with
      | S k => findAllSigs k s'
      | O =>
          if GoStrings.HasPrefix s "sig-" then
            match takeLetters (String.substring 4 (String.length s - 4) s) with
            | EmptyString => findAllSigs O s'
            | letters =>
                ("sig-" +:+ letters) :: findAllSigs (3 + String.length letters) s'
            end
          else findAllSigs O s'
      end
  end.

(** The part of [(\d{1,2})\sof\s(\d{1,2})] after the first group: the
    text captured by the second group, which takes two digits when it can. *)
Definition matchOfRuns (s : string) : option string :=
  match s with
  | String w1 (String o (String f (String w2 (String d1 rest)))) =>
      if isSpace w1 && Ascii.eqb o "o" && Ascii.eqb f "f" && isSpace w2
         && GoStrings.isDigit d1 then
        match rest with
        | String d2 _ =>
            if GoStrings.isDigit d2 then Some (String d1 (String d2 EmptyString))
            else Some (String d1 EmptyString)
        | EmptyString => Some (String d1 EmptyString)
        end
      else None
  | _ => None
  end.

(** A match of the expression starting at the head of [s]: the first group
    tries two digits before one. *)
Definition matchHere (s : string) : option (string * string) :=
  match s with
  | String a rest =>
      if GoStrings.isDigit a then
        let two :=
          match rest with
          | String b rest' =>
              if GoStrings.isDigit b
              then (fun runs => (String a (String b EmptyString), runs)) <$> matchOfRuns rest'
              else None
          | EmptyString => None
          end in
        match two with
        | Some m => Some m
        | None => (fun runs => (String a EmptyString, runs)) <$> matchOfRuns rest
        end
      else None
  | EmptyString => None
  end.

(** [FindStringSubmatch]: the leftmost match. *)
Fixpoint findSubmatch (s : string) : option (string * string) :=
  match matchHere s with
  | Some m => Some m
  | None =>
      match s with
      | String _ s' => findSubmatch s'
      | EmptyString => None
      end
  end.

Definition testgridRegexRecentRuns : string := "runs".
Definition testgridRegexRecentPasses : string := "passes".

(** [getRegexParams] at the expression [getDetails] calls it with: the
    named groups of the leftmost match, no entry when nothing matches. *)
Definition getRegexParams (s : string) : gmap string string :=
  match findSubmatch s with
  | Some (passes, runs) =>
      <[testgridRegexRecentRuns := runs]>
        (<[testgridRegexRecentPasses := passes]> ∅)
  | None => ∅
  end.

(** The value of a string of decimal digits. *)
Fixpoint digitsValue (acc : Z) (s : string) : option Z :=
  match s with
  | EmptyString => Some acc
  | String c s' =>
      if GoStrings.isDigit c
      then digitsValue (acc * 10 + (Z.of_N (GoStrings.code c) - 48)) s'
      else None
  end.

Definition decimalValue (s : string) : option Z :=
  match s with
  | EmptyString => None
  | _ => digitsValue 0 s
  end.

(** [strconv.ParseFloat(s, 64)] on what the map of [getRegexParams] can
    hold: a short run of digits is converted exactly; the empty string
    (a missing key) is a syntax error and yields 0. *)
Definition ParseFloat (s : string) : float * option string :=
  match decimalValue s with
  | Some n => (PrimFloat.of_uint63 (Uint63.of_Z n), None)
  | None => (0%float, Some "invalid syntax")
  end.

Definition thresholdWarning : float := 0.5%float.
Definition thresholdInfo : float := 0x1.999999999999ap-1%float.
Definition newTestThreshhold : float := 5%float.

(** [latestExec[key]]: the empty string for a missing key. *)
Definition group (latestExec : gmap string string) (key : string) : string :=
  default "" (latestExec !! key).

(** The severity and the highlight emoji of [getDetails], in binary64
    arithmetic as the source computes them. *)
Definition score (highlightEmoji statusNewTestEmoji : string)
    (testgridRegexRecentPassesFloat testgridRegexRecentRunsFloat : float)
    : Z * string :=
  let recentSuccessRate :=
    (testgridRegexRecentPassesFloat / testgridRegexRecentRunsFloat)%float in
  if (testgridRegexRecentRunsFloat <=? newTestThreshhold)%float then
    (LightSeverity, statusNewTestEmoji)
  else if (recentSuccessRate <=? thresholdWarning)%float then
    (HighSeverity, highlightEmoji)
  else if (recentSuccessRate <=? thresholdInfo)%float then
    (MediumSeverity, highlightEmoji)
  else (LightSeverity, highlightEmoji).

(** [fmt.Sprintf("%v", keys)] on the keys of [sigsInvolved]. *)
Definition bracketed (keys : list string) : string :=
  "[" +:+ fold_right (fun k acc =>
                        match acc with
                        | EmptyString => k
                        | _ => k +:+ " " +:+ acc
                        end) "" keys +:+ "]".

(** [getDetails].  The three emoji are constants of the package declared
    outside the sources at hand, hence parameters.  The keys of
    [sigsInvolved] are listed in an order Go leaves open. *)
Definition getDetails (statusFailingEmoji statusFlakyEmoji statusNewTestEmoji : string)
    (jobName : string) (jobData : TestgridValue) (jobBaseUrl : string)
    (emojisOff : bool) : ReportDataRecord :=
  let notes : list string := [] in
  let notes :=
    if String.eqb (JobOverallStatus jobData) Failing then
      let sigsInvolved : gmap string Z :=
        fold_left
          (fun (sigsInvolved : gmap string Z) test =>
             fold_left (fun acc sig => <[sig := default 0 (acc !! sig) + 1]> acc)
                       (findAllSigs O (TestName test)) sigsInvolved)
          (Tests jobData) ∅ in
      let sigs := (map_to_list sigsInvolved).*1 in
      notes ++ ["Sig's involved " +:+ bracketed sigs]
            ++ ["Currently " +:+ pretty (Z.of_nat (length (Tests jobData)))
                +:+ " test are failing"]
    else notes in
  let latestExec := getRegexParams (JobStatus jobData) in
  let '(testgridRegexRecentPassesFloat, _) :=
    ParseFloat (group latestExec testgridRegexRecentPasses) in
  let '(testgridRegexRecentRunsFloat, _) :=
    ParseFloat (group latestExec testgridRegexRecentRuns) in
  let highlightEmoji :=
    if String.eqb (JobOverallStatus jobData) Failing
    then statusFailingEmoji else statusFlakyEmoji in
  let '(severity, highlightEmoji) :=
    score highlightEmoji statusNewTestEmoji
          testgridRegexRecentPassesFloat testgridRegexRecentRunsFloat in
  let notes :=
    notes ++ [group latestExec testgridRegexRecentPasses +:+ " of "
              +:+ group latestExec testgridRegexRecentRuns +:+ " passed recently"] in
  mkRecord testgridReportDetails (JobOverallStatus jobData) severity
           (GoStrings.Repeat highlightEmoji (Z.to_nat severity))
           jobName (jobBaseUrl +:+ "#" +:+ jobName) notes.

(** The worker of one dashboard in [assembleTestgridRequests], from what
    [reqTestgridSiteData] returned.  [visited] is the sequence in which
    the [range] over [jobsData] yields its entries: Go leaves the order
    open, so it is an input, one of the arrangements of the entries. *)
Definition dashboardWorker
    (statusFailingEmoji statusFlakyEmoji statusNewTestEmoji : string)
    (shortOn emojisOff : bool) (job : testgridJob)
    (response : TestgridData + string)
    (visited : list (string * TestgridValue)) : Run ReportDataField :=
  let jobBaseUrl := "https://testgrid.k8s.io/" +:+ URLName job in
  match response with
  | inr err => Fatal ("error " +:+ err)
  | inl jobsData =>
      let records := [getSummary jobsData] in
      let records :=
        if negb shortOn then
          fold_left
            (fun records '(jobName, jobData) =>
               if negb (String.eqb (JobOverallStatus jobData) Passing)
               then records ++ [getDetails statusFailingEmoji statusFlakyEmoji
                                  statusNewTestEmoji jobName jobData jobBaseUrl emojisOff]
               else records)
            visited records
        else records in
      Returned (mkField (JobEmoji job) (OutputName job) records)
  end.

(** The dashboard of the specification's end-to-end example: ten jobs,
    seven passing, two failing, one flaky. *)
Definition exampleDashboard : TestgridData :=
  list_to_map
    [("job-01", mkValue Passing "10 of 10 (100.0%) recent columns passed" []);
     ("job-02", mkValue Passing "10 of 10 (100.0%) recent columns passed" []);
     ("job-03", mkValue Failing "3 of 10 (30.0%) recent columns passed"
                        [mkTest "[sig-node] pods should start"]);
     ("job-04", mkValue Passing "10 of 10 (100.0%) recent columns passed" []);
     ("job-05", mkValue Flaky "9 of 10 (90.0%) recent columns passed" []);
     ("job-06", mkValue Passing "10 of 10 (100.0%) recent columns passed" []);
     ("job-07", mkValue Failing "2 of 3 (66.7%) recent columns passed"
                        [mkTest "[sig-cli] kubectl get"; mkTest "[sig-node] exec"]);
     ("job-08", mkValue Passing "10 of 10 (100.0%) recent columns passed" []);
     ("job-09", mkValue Passing "10 of 10 (100.0%) recent columns passed" []);
     ("job-10", mkValue Passing "10 of 10 (100.0%) recent columns passed" [])].

Definition masterBlocking : testgridJob :=
  mkJob "Master-Blocking" "sig-release-master-blocking" "E".

End Testgrid.

(** ** The properties in the words of the specification

    These definitions follow the text of the specification, not the source;
    Part II compares them with the definitions above. *)
Module Spec.

(** "Any of its labels match [priority/backlog], [triage/accepted],
    [lifecycle/rotten], [lifecycle/stale]": a label matches when its name
    contains one of the four. *)
Definition labelMatches (name : string) : Prop :=
  GoStrings.Contains name "priority/backlog" = true \/
  GoStrings.Contains name "triage/accepted" = true \/
  GoStrings.Contains name "lifecycle/rotten" = true \/
  GoStrings.Contains name "lifecycle/stale" = true.

(** "Its URL indicates it is a pull request": the HTML URL contains [pull]. *)
Definition isPullRequest (i : Issues.GithubIssueElement) : Prop :=
  GoStrings.Contains (Issues.HTMLURL i) "pull" = true.

(** The exclusion policy. *)
Definition excluded (i : Issues.GithubIssueElement) : Prop :=
  (exists label, label ∈ Issues.Labels i /\ labelMatches (Issues.Name label)) \/
  isPullRequest i.

(** "[ceil(N/P)]" on natural numbers. *)
Definition ceilDiv (n p : nat) : nat := ((n + p - 1) / p)%nat.

(** The URL of the request for page [j]: the base URL followed by the page
    parameters [1], ..., [j]. *)
Definition pageUrl (url : string) (j : nat) : Issues.Url :=
  Issues.mkUrl url (Z.of_nat <$> seq 1 j).

(** The raw items of the response to the request for page [j]; none when
    the request fails. *)
Definition rawPage (service : Issues.Service) (url authToken : string) (j : nat)
    : Issues.GithubIssues :=
  match service (pageUrl url j) authToken with
  | Issues.Decoded requestedIssues => requestedIssues
  | _ => []
  end.

(** The request for page [j] fails: in transport or in decoding. *)
Definition pageFails (service : Issues.Service) (url authToken : string) (j : nat)
    : Prop :=
  match service (pageUrl url j) authToken with
  | Issues.Decoded _ => False
  | _ => True
  end.

(** What holds of the goroutines of a fetch at every moment: the requests
    issued are those for pages 1 to [j], none of which failed, all but
    possibly the last came back non-empty; either the goroutine of page
    [j + 1] is started and has not yet issued its request, or page [j]
    came back empty and no goroutine is left to issue one; and the maps
    blocked on the channel or received from it are those of the pages 1 to
    [j], in some order. *)
Definition chainInvariant (service : Issues.Service) (url authToken : string)
    (pool : Issues.Pool) : Prop :=
  exists j : nat,
    Issues.issued pool = pageUrl url <$> seq 1 j /\
    (forall k, (1 <= k <= j)%nat -> ~ pageFails service url authToken k) /\
    (forall k, (1 <= k < j)%nat -> rawPage service url authToken k <> []) /\
    ((Issues.started pool = [(pageUrl url j, Z.of_nat j + 1)] /\
      ((1 <= j)%nat -> rawPage service url authToken j <> [])) \/
     (Issues.started pool = [] /\ (1 <= j)%nat /\
      rawPage service url authToken j = [])) /\
    Issues.blocked pool ++ Issues.received pool ≡ₚ
      (fun k => Issues.filterGithubIssues (rawPage service url authToken k))
        <$> seq 1 j.

(** "The error propagates to the caller of the fetch as a result value,
    without aborting the whole process": in its weakest reading, the call
    of [GetGithubIssues] returns to its caller. *)
Definition reachesCaller (fuel : nat) (service : Issues.Service)
    (url authToken : string) : Prop :=
  exists result,
    Issues.GetGithubIssues fuel service url authToken = Some (Returned result).

(** "Both flags may combine": there is a creation timestamp and a clock,
    read twice without running backwards, for which the highlight contains
    the marker of an old issue and the marker of a fresh one. *)
Definition bothMarkers (statusOldEmoji statusNewEmoji : string) : Prop :=
  exists (createdAt : string) (now1 now2 : GoTime.Reading),
    let highlight :=
      Issues.ageHighlight statusOldEmoji statusNewEmoji now1 now2 createdAt in
    (GoTime.validReading now1 = true) /\
    (GoTime.validReading now2 = true) /\
    (GoTime.notAfter (GoTime.instant now1) (GoTime.instant now2) = true) /\
    (GoStrings.Contains highlight statusOldEmoji = true) /\
    (GoStrings.Contains highlight statusNewEmoji = true).

(** The cards "with a content reference": their content URLs, by card. *)
Definition contentURLs (cards : list Cards.ProjectCard) : list string :=
  omap Cards.ContentURL cards.

(** A label without a name is reached before a label that contains
    [sig/]. *)
Fixpoint namelessLabelRead (labels : list Cards.Label) : bool :=
  match labels with
  | [] => false
  | v :: labels' =>
      match Cards.Name v with
      | None => true
      | Some name =>
          if GoStrings.Contains name "sig/" then false
          else namelessLabelRead labels'
      end
  end.

(** The fetch of a content URL brings the process down: the request gets
    no response at all, or the issue carries a label without a name that
    the classification reads. *)
Definition fetchCrashes (service : Cards.Service) (token url : string) : bool :=
  match service url token with
  | Cards.SendFailed _ => true
  | Cards.Decoded result => namelessLabelRead (Cards.Labels result)
  | _ => false
  end.

(** The status buckets: a job counts as stale when its status is none of
    passing, failing, flaky. *)
Definition isPassing (v : Testgrid.TestgridValue) : bool :=
  String.eqb (Testgrid.JobOverallStatus v) Testgrid.Passing.
Definition isFailing (v : Testgrid.TestgridValue) : bool :=
  String.eqb (Testgrid.JobOverallStatus v) Testgrid.Failing.
Definition isFlaky (v : Testgrid.TestgridValue) : bool :=
  String.eqb (Testgrid.JobOverallStatus v) Testgrid.Flaky.
Definition isStale (v : Testgrid.TestgridValue) : bool :=
  negb (isPassing v) && negb (isFailing v) && negb (isFlaky v).

(** The number of jobs of a dashboard in a bucket. *)
Definition bucket (inBucket : Testgrid.TestgridValue -> bool)
    (jobs : Testgrid.TestgridData) : Z :=
  Z.of_nat (length (List.filter inBucket (map_to_list jobs).*2)).

(** "Any status other than Passing, Failing, or Flaky": the entries of a
    dashboard whose status is none of the three. *)
Definition otherStatus (jobs : Testgrid.TestgridData)
    : list (string * Testgrid.TestgridValue) :=
  List.filter
    (fun entry =>
       negb (String.eqb (Testgrid.JobOverallStatus entry.2) Testgrid.Passing) &&
       negb (String.eqb (Testgrid.JobOverallStatus entry.2) Testgrid.Failing) &&
       negb (String.eqb (Testgrid.JobOverallStatus entry.2) Testgrid.Flaky))
    (map_to_list jobs).

(** The entries of a dashboard whose status is not passing, among the
    entries [visited]. *)
Definition nonPassing (visited : list (string * Testgrid.TestgridValue))
    : list (string * Testgrid.TestgridValue) :=
  List.filter (fun entry => negb (isPassing entry.2)) visited.

(** The detail record of an entry of a dashboard. *)
Definition detailOf (statusFailingEmoji statusFlakyEmoji statusNewTestEmoji : string)
    (jobBaseUrl : string) (emojisOff : bool)
    (entry : string * Testgrid.TestgridValue) : Testgrid.ReportDataRecord :=
  Testgrid.getDetails statusFailingEmoji statusFlakyEmoji statusNewTestEmoji
                      entry.1 entry.2 jobBaseUrl emojisOff.

(** The recent-run counts read from a status text: the numbers the two
    groups of the leftmost match of ["<passes> of <runs>"] denote, 0 where
    nothing matches. *)
Definition parsedCount (s : string) : Z := default 0 (Testgrid.decimalValue s).

Definition recentPasses (status : string) : Z :=
  parsedCount (Testgrid.group (Testgrid.getRegexParams status)
                              Testgrid.testgridRegexRecentPasses).

Definition recentRuns (status : string) : Z :=
  parsedCount (Testgrid.group (Testgrid.getRegexParams status)
                              Testgrid.testgridRegexRecentRuns).

(** What a group of the expression can capture: one digit or two. *)
Definition captured (s : string) : Prop :=
  exists a, GoStrings.isDigit a = true /\
    (s = String a EmptyString \/
     exists b, GoStrings.isDigit b = true /\ s = String a (String b EmptyString)).

(** "[rate = passes / runs]", as a rational number. *)
Definition rate (passes runs : Z) : Q := (passes # Z.to_pos runs)%Q.

(** The binary64 number of a small count. *)
Definition floatOf (n : Z) : float := PrimFloat.of_uint63 (Uint63.of_Z n).

(** At the counts [passes] and [runs], the three comparisons of the source
    in binary64 arithmetic have the truth values of the comparisons of the
    specification in exact arithmetic: [runs <= 5], and for more than five
    runs [passes / runs <= 1/2] and [passes / runs <= 4/5]. *)
Definition comparisonsAgree (passes runs : nat) : bool :=
  let p := floatOf (Z.of_nat passes) in
  let r := floatOf (Z.of_nat runs) in
  Bool.eqb (r <=? Testgrid.newTestThreshhold)%float (Z.of_nat runs <=? 5) &&
  ((Z.of_nat runs <=? 5) ||
   (Bool.eqb (p / r <=? Testgrid.thresholdWarning)%float
             (2 * Z.of_nat passes <=? Z.of_nat runs) &&
    Bool.eqb (p / r <=? Testgrid.thresholdInfo)%float
             (5 * Z.of_nat passes <=? 4 * Z.of_nat runs))).

End Spec.

(** ** The issue report ([cmd/ci-reporter.go], from the fetched issues to
    the fields handed to the post-processing) *)
Module IssueReport.

(** Modelled from the spec: the declarations of [ReportDataRecord] and
    [ReportDataField] that this file is compiled against are outside the
    sources at hand; these are the fields [transformIntoReportData]
    assigns, with the types it assigns them at. *)
Record ReportDataRecord := mkRecord {
  URL : string;
  ID : Z;
  Title : string;
  Notes : list string;
  Sig : string;
  Highlight : string
}.

Record ReportDataField := mkField {
  Emoji : string;
  FieldTitle : string;
  Records : list ReportDataRecord
}.

(** [regexp.MustCompile(`sig/[a-zA-Z]+`).FindString(s)]: the text of the
    leftmost match, which takes all the letters that follow [sig/]; the
    empty string when nothing matches. *)
Fixpoint findSig (s : string) : string :=
  match s with
  | EmptyString => ""
  | String _ s' =>
      if GoStrings.HasPrefix s "sig/" then
        match Testgrid.takeLetters (String.substring 4 (String.length s - 4) s) with
        | EmptyString => findSig s'
        | letters => "sig/" +:+ letters
        end
      else findSig s'
  end.

(** [strings.Split(s, sep)[0]] for a separator of one character: the text
    before the first [sep], all of [s] when there is none. *)
Fixpoint splitHead (s : string) (sep : ascii) : string :=
  match s with
  | EmptyString => ""
  | String c s' => if Ascii.eqb c sep then "" else String c (splitHead s' sep)
  end.

(** [fmt.Sprintf("%v", sigsInvolved)] on a slice of strings: the elements
    separated by one space, in brackets. *)
Fixpoint joinSpace (elems : list string) : string :=
  match elems with
  | [] => ""
  | [e] => e
  | e :: elems' => e +:+ " " +:+ joinSpace elems'
  end.

Definition sprintV (elems : list string) : string := "[" +:+ joinSpace elems +:+ "]".

Section Constants.

(** The colour codes and the status emoji are constants of the package
    whose declarations are not part of the sources at hand. *)
Variables colorGreen colorRed colorBlue colorReset : string.
Variables statusOldEmoji statusNewEmoji : string.

(** The body of the loop over the labels of an issue, on the two variables
    it updates. *)
Definition labelStep (acc : list string * string) (label : Issues.Label)
    : list string * string :=
  let '(sigsInvolved, lablesToNote) := acc in
  let sig := findSig (Issues.Name label) in
  let sigsInvolved :=
    if negb (String.eqb sig "") then sigsInvolved ++ [sig] else sigsInvolved in
  let lablesToNote :=
    if GoStrings.Contains (Issues.Name label) "priority"
    then lablesToNote +:+ (colorGreen +:+ Issues.Name label +:+ colorReset +:+ " ")
    else lablesToNote in
  let lablesToNote :=
    if GoStrings.Contains (Issues.Name label) "kind/"
    then lablesToNote +:+ (colorRed +:+ Issues.Name label +:+ colorReset +:+ " ")
    else lablesToNote in
  (sigsInvolved, lablesToNote).

(** The record a goroutine of [transformIntoReportData] builds for its
    issue.  The clock is read twice, [now1] and [now2]. *)
Definition issueRecord (now1 now2 : GoTime.Reading) (issue : Issues.GithubIssueElement)
    : ReportDataRecord :=
  let sigsInvolved : list string := [] in
  let notes :=
    ["Created " +:+ splitHead (Issues.CreatedAt issue) "T"
       +:+ ", Updated " +:+ splitHead (Issues.UpdatedAt issue) "T"
       +:+ ", Comments: " +:+ pretty (Issues.Comments issue)] in
  let lablesToNote := "" in
  let '(sigsInvolved, lablesToNote) :=
    fold_left labelStep (Issues.Labels issue) (sigsInvolved, lablesToNote) in
  let lablesToNote :=
    match Issues.IssueMilestone issue with
    | Some milestone =>
        lablesToNote +:+ (colorBlue +:+ "milestone "
                            +:+ Issues.MilestoneTitle milestone +:+ colorReset)
    | None => lablesToNote
    end in
  let notes :=
    if negb (String.eqb lablesToNote "") then notes ++ [lablesToNote] else notes in
  let highlight :=
    Issues.ageHighlight statusOldEmoji statusNewEmoji now1 now2
                        (Issues.CreatedAt issue) in
  mkRecord (Issues.HTMLURL issue) (Issues.Number issue) (Issues.Title issue)
           notes (sprintV sigsInvolved) highlight.

(** The field the goroutine sends on the channel: no emoji, no title, the
    one record. *)
Definition issueField (now1 now2 : GoTime.Reading) (issue : Issues.GithubIssueElement)
    : ReportDataField :=
  mkField "" "" [issueRecord now1 now2 issue].

(** [transformIntoReportData]: one goroutine for each entry of the map, in
    the order [visited] in which the [range] yields them; [clock] gives the
    two readings of the goroutine of an issue.  The fields are listed in
    the order of [visited]; they reach the channel in an order the
    scheduler chooses. *)
Definition transformIntoReportData
    (clock : Issues.GithubIssueElement -> GoTime.Reading * GoTime.Reading)
    (visited : list (Z * Issues.GithubIssueElement)) : list ReportDataField :=
  (fun '(_, issue) => issueField (clock issue).1 (clock issue).2 issue) <$> visited.

(** The URL [GetGithubIssues] builds from its configuration; [params] are
    the entries of [cfg.Params] in the order the [range] yields them. *)
Definition issuesUrl (owner repo : string) (params : list (string * string)) : string :=
  fold_left (fun url '(param, val) => url +:+ "&" +:+ param +:+ "=" +:+ val)
            params
            ("https://api.github.com/repos/" +:+ owner +:+ "/" +:+ repo
               +:+ "/issues" +:+ "?state=open").

(** The one request configuration of [RequestData]. *)
Definition requestCfgParams : gmap string string :=
  <["labels" := "kind/failing-test"]>
    (<["since" := "2021-09-01"]> (<["sort" := "updated"]> (<["per_page" := "20"]> ∅))).

(** [GithubReport.RequestData] up to the call of [meta.DataPostProcessing],
    which is declared outside the sources at hand: the fields on the
    channel handed to it.  [params] is the order in which the parameters
    of the request are visited, [visit] the order in which the issues
    are. *)
Definition RequestData (fuel : nat) (service : Issues.Service)
    (githubToken : string) (params : list (string * string))
    (clock : Issues.GithubIssueElement -> GoTime.Reading * GoTime.Reading)
    (visit : Issues.GithubIssuesAfterId -> list (Z * Issues.GithubIssueElement))
    : option (Run (list ReportDataField)) :=
  r ← Issues.GetGithubIssues fuel service
        (issuesUrl "kubernetes" "kubernetes" params) githubToken;
  Some match r with
       | Returned githubIssues =>
           let allReqGithubIssues : Issues.GithubIssuesAfterId :=
             map_fold (fun k v acc => <[k := v]> acc) ∅ githubIssues in
           Returned (transformIntoReportData clock (visit allReqGithubIssues))
       | Fatal msg => Fatal msg
       | Panicked msg => Panicked msg
       end.

End Constants.

(** An issue and a reading of the clock for the examples. *)
Definition exampleIssue : Issues.GithubIssueElement :=
  Issues.mkIssue "https://github.com/kubernetes/kubernetes/issues/7" 7
    "[Failing Test] a test"
    [Issues.mkLabel "sig/api-machinery" "d2b48c";
     Issues.mkLabel "kind/failing-test" "e11d21";
     Issues.mkLabel "priority/important-soon" "eb6420"]
    "open" (Some (Issues.mkMilestone "v1.23")) 12
    "2021-08-30T09:15:00Z" "2021-09-01T12:00:00Z" "".

Definition exampleNow : GoTime.Reading := GoTime.mkReading 2021 9 2 8 0 0 0 0.

End IssueReport.

(** ** The card report ([pkg/ci-reporter/github-reporter.go], with the
    constants and types of [pkg/ci-reporter/vars.go]) *)
Module CardReport.

(** The card identifiers and the emoji of [vars.go]. *)
Definition newCardsID : Z := 4212817.
Definition underInvestigationCardsID : Z := 4212819.
Definition observingCardsID : Z := 4212821.
Definition githubCiSignalBoardProjectID : Z := 2093513.

Definition inFlightEmoji : string := "🛫".
Definition notYetStartedEmoji : string := "🤔".
Definition observingEmoji : string := "👀".
Definition resolvedEmoji : string := "🎉".

(** [ReportDataField], [ReportDataRecord] and [ReportData] of [vars.go]. *)
Record ReportDataField := mkField {
  Emoji : string;
  FieldTitle : string
}.

#[global] Instance ReportDataField_eq_dec : EqDecision ReportDataField.
Proof. solve_decision. Defined.

#[global] Instance ReportDataField_countable : Countable ReportDataField.
Proof.
  refine (inj_countable' (fun field => (Emoji field, FieldTitle field))
                         (fun p => mkField p.1 p.2) _).
  by intros [].
Defined.

Record ReportDataRecord := mkRecord {
  Total : Z;
  Passing : Z;
  Flaking : Z;
  Failing : Z;
  Stale : Z;
  URL : string;
  ID : Z;
  Title : string;
  Sig : string
}.

Abbreviation ReportData := (gmap ReportDataField (list ReportDataRecord)).

Record githubIssueCardConfig := mkConfig {
  CardsTitle : string;
  CardID : Z;
  CardEmoji : string;
  OmitWithFlagShort : bool
}.

(** The GitHub client, through the two listings the code calls; each
    returns its slice and its error. *)
Record Client := mkClient {
  ListProjectColumns : Z -> list Cards.ProjectColumn * option string;
  ListProjectCards : Z -> list Cards.ProjectCard * option string
}.

(** What the workers of the columns have done: the columns whose cards
    were listed, and the maps sent on the channel, by configuration. *)
Record Sent := mkSent {
  listed : list Z;
  maps : list ReportData
}.

(** The record [sortDataIntoDataRecord] builds from an overview: the
    counters keep their zero value. *)
Definition overviewRecord (issue : Cards.ghIssueOverview) : ReportDataRecord :=
  mkRecord 0 0 0 0 0 (Cards.URL issue) (Cards.ID issue) (Cards.Title issue)
           (Cards.Sig issue).

(** [sortDataIntoDataRecord].  [assembleCardRequests] uses the cards of
    the listing whatever its error, which is logged.  The overviews reach
    the channel in an order the scheduler chooses: [arrival] arranges what
    the workers sent.  The conversions of the identifier between [int] and
    [int64] change nothing where [int] has 64 bits. *)
Definition sortDataIntoDataRecord (client : Client) (service : Cards.Service)
    (githubToken : string) (shortOn : bool)
    (arrival : list Cards.ghIssueOverview -> list Cards.ghIssueOverview)
    (cardCfg : githubIssueCardConfig) : Run Sent :=
  if negb (OmitWithFlagShort cardCfg && shortOn) then
    match Cards.assembleCardRequests service githubToken
            (ListProjectCards client (CardID cardCfg)).1 with
    | Returned r =>
        let reportDataRecord := overviewRecord <$> arrival (Cards.sent r) in
        let reportData : ReportData :=
          <[mkField (CardEmoji cardCfg) (CardsTitle cardCfg) := reportDataRecord]> ∅ in
        Returned (mkSent [CardID cardCfg] [reportData])
    | Fatal msg => Fatal msg
    | Panicked msg => Panicked msg
    end
  else Returned (mkSent [] []).

(** [assembleGithubRequests]: one worker for each configuration; a panic
    in any of them crashes the process. *)
Fixpoint assembleGithubRequests (client : Client) (service : Cards.Service)
    (githubToken : string) (shortOn : bool)
    (arrival : list Cards.ghIssueOverview -> list Cards.ghIssueOverview)
    (githubIssueCardConfigs : list githubIssueCardConfig) : Run Sent :=
  match githubIssueCardConfigs with
  | [] => Returned (mkSent [] [])
  | cardCfg :: configs' =>
      match sortDataIntoDataRecord client service githubToken shortOn arrival cardCfg with
      | Returned s =>
          match assembleGithubRequests client service githubToken shortOn arrival
                  configs' with
          | Returned s' =>
              Returned (mkSent (listed s ++ listed s') (maps s ++ maps s'))
          | Fatal msg => Fatal msg
          | Panicked msg => Panicked msg
          end
      | Fatal msg => Fatal msg
      | Panicked msg => Panicked msg
      end
  end.

(** The configurations of [RequestData]. *)
Definition githubIssueCardConfigs (resolvedCardsID : Z) : list githubIssueCardConfig :=
  [{| CardsTitle := "New/Not Yet Started"; CardID := newCardsID;
      OmitWithFlagShort := false; CardEmoji := notYetStartedEmoji |};
   {| CardsTitle := "In flight"; CardID := underInvestigationCardsID;
      OmitWithFlagShort := false; CardEmoji := inFlightEmoji |};
   {| CardsTitle := "Observing"; CardID := observingCardsID;
      OmitWithFlagShort := true; CardEmoji := observingEmoji |};
   {| CardsTitle := "Resolved"; CardID := resolvedCardsID;
      OmitWithFlagShort := true; CardEmoji := resolvedEmoji |}].

(** What a call of [RequestData] comes to: the columns whose cards were
    listed and the two return values, [None] for [nil]. *)
Record Outcome := mkOutcome {
  requested : list Z;
  reportData : option ReportData;
  error : option string
}.

(** [GithubReport.RequestData].  The maps of the columns arrive in an
    order the scheduler chooses: [mapsArrival] arranges them. *)
Definition RequestData (client : Client) (service : Cards.Service)
    (githubToken : string) (shortOn : bool)
    (arrival : list Cards.ghIssueOverview -> list Cards.ghIssueOverview)
    (mapsArrival : list ReportData -> list ReportData) : Run Outcome :=
  let '(cards, err) := ListProjectColumns client githubCiSignalBoardProjectID in
  match Cards.findCardsID cards err "Resolved" with
  | Returned (resolvedCardsID, Some err) => Returned (mkOutcome [] None (Some err))
  | Returned (resolvedCardsID, None) =>
      match assembleGithubRequests client service githubToken shortOn arrival
              (githubIssueCardConfigs resolvedCardsID) with
      | Returned s =>
          let reportData : ReportData :=
            fold_left
              (fun (reportData : ReportData) data =>
                 map_fold (fun k v acc => <[k := v]> acc) reportData data)
              (mapsArrival (maps s)) ∅ in
          Returned (mkOutcome (listed s) (Some reportData) None)
      | Fatal msg => Fatal msg
      | Panicked msg => Panicked msg
      end
  | Fatal msg => Fatal msg
  | Panicked msg => Panicked msg
  end.

(** The loop of [Print] that sorts the records of a field after their
    SIG: a record is appended to the group of its [Sig]; the overview it
    is copied to keeps an empty [Sig]. *)
Definition dataSortedAfterSigs (v : list ReportDataRecord)
    : gmap string (list Cards.ghIssueOverview) :=
  fold_left
    (fun (dataSortedAfterSigs : gmap string (list Cards.ghIssueOverview)) v =>
       <[Sig v := default [] (dataSortedAfterSigs !! Sig v)
                    ++ [Cards.mkOverview (URL v) (ID v) (Title v) ""]]>
         dataSortedAfterSigs)
    v ∅.

(** A board for the examples: four columns, the cards of
    [Cards.exampleCards] in the column New, no card elsewhere. *)
Definition exampleColumns : list Cards.ProjectColumn :=
  [Cards.mkColumn (Some newCardsID) (Some "New/Not Yet Started");
   Cards.mkColumn (Some underInvestigationCardsID) (Some "In flight");
   Cards.mkColumn (Some observingCardsID) (Some "Observing");
   Cards.mkColumn (Some 4212823) (Some "Resolved")].

Definition exampleClient : Client :=
  mkClient (fun _ => (exampleColumns, None))
           (fun cardsID =>
              if cardsID =? newCardsID then (Cards.exampleCards, None) else ([], None)).

End CardReport.

(** ** The testgrid report ([pkg/ci-reporter/testgrid-reporter.go], from
    the release versions to the printed lines) *)
Module TestgridReport.

(** The emoji of the two kinds of dashboard, from [vars.go]. *)
Definition masterBlockingEmoji : string := "⛔".
Definition masterInformingEmoji : string := "💡".

(** The jobs [RequestData] asks for: the two dashboards of the master
    branch and, for each release version of the flags, its two
    dashboards. *)
Definition requiredJobs (ReleaseVersion : list string) : list Testgrid.testgridJob :=
  let requiredJobs :=
    [Testgrid.mkJob "Master-Blocking" "sig-release-master-blocking" masterBlockingEmoji;
     Testgrid.mkJob "Master-Informing" "sig-release-master-informing"
                    masterInformingEmoji] in
  if (0 <? length ReleaseVersion)%nat then
    fold_left
      (fun requiredJobs r =>
         let requiredJobs :=
           requiredJobs ++ [Testgrid.mkJob (r +:+ "-blocking")
                              ("sig-release-" +:+ r +:+ "-blocking")
                              masterBlockingEmoji] in
         requiredJobs ++ [Testgrid.mkJob (r +:+ "-informing")
                            ("sig-release-" +:+ r +:+ "-informing")
                            masterInformingEmoji])
      ReleaseVersion requiredJobs
  else requiredJobs.

(** What the GET of a summary URL comes to, in the order the source tests
    for failure. *)
Inductive Response :=
| GetFailed (err : string)
| ReadFailed (err : string)
| UnmarshalFailed (err : string)
| Decoded (jobs : Testgrid.TestgridData).

Definition Service := string -> Response.

(** [reqTestgridSiteData]: the data, or the error. *)
Definition reqTestgridSiteData (service : Service) (job : Testgrid.testgridJob)
    (jobBaseUrl : string) : Testgrid.TestgridData + string :=
  let url := jobBaseUrl +:+ "/summary" in
  match service url with
  | GetFailed err => inr err
  | ReadFailed err => inr err
  | UnmarshalFailed err => inr err
  | Decoded jobs => inl jobs
  end.

Section Constants.

(** The status emoji are constants of the package declared outside the
    sources at hand. *)
Variables statusFailingEmoji statusFlakyEmoji statusNewTestEmoji : string.

(** The goroutine of one job in [assembleTestgridRequests]; [visit] is the
    order in which the [range] yields the entries of the data. *)
Definition jobWorker (service : Service) (shortOn emojisOff : bool)
    (visit : Testgrid.TestgridData -> list (string * Testgrid.TestgridValue))
    (job : Testgrid.testgridJob) : Run Testgrid.ReportDataField :=
  let jobBaseUrl := "https://testgrid.k8s.io/" +:+ Testgrid.URLName job in
  let response := reqTestgridSiteData service job jobBaseUrl in
  Testgrid.dashboardWorker statusFailingEmoji statusFlakyEmoji statusNewTestEmoji
    shortOn emojisOff job response
    match response with
    | inl jobsData => visit jobsData
    | inr _ => []
    end.

(** [assembleTestgridRequests]: the fields sent on the channel, listed by
    job; [log.Fatalf] in any goroutine ends the process.  The order in
    which the fields reach the channel, and which of several failed
    requests ends the process, are the scheduler's choice: the list here
    is in the order of the jobs and the message is that of the first job
    that fails; [RequestData] below applies the scheduler's choices. *)
Fixpoint assembleTestgridRequests (service : Service) (shortOn emojisOff : bool)
    (visit : Testgrid.TestgridData -> list (string * Testgrid.TestgridValue))
    (requiredJobs : list Testgrid.testgridJob) : Run (list Testgrid.ReportDataField) :=
  match requiredJobs with
  | [] => Returned []
  | j :: jobs' =>
      match jobWorker service shortOn emojisOff visit j with
      | Returned reportData =>
          match assembleTestgridRequests service shortOn emojisOff visit jobs' with
          | Returned fields => Returned (reportData :: fields)
          | Fatal msg => Fatal msg
          | Panicked msg => Panicked msg
          end
      | Fatal msg => Fatal msg
      | Panicked msg => Panicked msg
      end
  end.

(** The messages of the requests that fail, by job: what [log.Fatalf]
    writes in the goroutine of each. *)
Definition fatalMessages (service : Service) (shortOn emojisOff : bool)
    (visit : Testgrid.TestgridData -> list (string * Testgrid.TestgridValue))
    (requiredJobs : list Testgrid.testgridJob) : list string :=
  omap (fun job =>
          match jobWorker service shortOn emojisOff visit job with
          | Fatal msg => Some msg
          | _ => None
          end)
       requiredJobs.

(** [TestgridReport.RequestData] up to the call of
    [meta.DataPostProcessing], which is declared outside the sources at
    hand: the fields on the channel handed to it.  The goroutines of the
    jobs send when they are done: [arrival] arranges the fields in the
    order they reach the channel.  When requests fail, the goroutine that
    comes to [log.Fatalf] first ends the process: [ending] picks its
    message among those of the failed requests. *)
Definition RequestData (service : Service) (ReleaseVersion : list string)
    (shortOn emojisOff : bool)
    (visit : Testgrid.TestgridData -> list (string * Testgrid.TestgridValue))
    (arrival : list Testgrid.ReportDataField -> list Testgrid.ReportDataField)
    (ending : list string -> string)
    : Run (list Testgrid.ReportDataField) :=
  let requiredJobs := requiredJobs ReleaseVersion in
  match assembleTestgridRequests service shortOn emojisOff visit requiredJobs with
  | Returned fields => Returned (arrival fields)
  | Fatal _ =>
      Fatal (ending (fatalMessages service shortOn emojisOff visit requiredJobs))
  | Panicked msg => Panicked msg
  end.

End Constants.

Definition newline : string := String "010" "".

(** The body of the inner loop of [Print]: what is written for one
    record, one string for each call of a printing function. *)
Definition printRecord (emojisOff shortOn : bool) (headerLine : string)
    (stat : Testgrid.ReportDataRecord) : list string :=
  if Testgrid.ID stat =? Testgrid.testgridReportSummary then
    [headerLine +:+ newline]
      ++ ((fun note => "- " +:+ note +:+ newline) <$> Testgrid.Notes stat)
      ++ [newline]
      ++ (if negb shortOn then ["Job details:" +:+ newline] else [])
  else if Testgrid.ID stat =? Testgrid.testgridReportDetails then
    [if emojisOff
     then Testgrid.Status stat +:+ " severity:" +:+ pretty (Testgrid.Severity stat)
            +:+ ", " +:+ Testgrid.Title stat +:+ newline
     else Testgrid.Status stat +:+ " " +:+ Testgrid.Highlight stat +:+ " "
            +:+ Testgrid.Title stat +:+ newline]
      ++ ["- " +:+ Testgrid.URL stat +:+ newline]
      ++ ((fun note => "- " +:+ note +:+ newline) <$> Testgrid.Notes stat)
  else [].

(** [TestgridReport.Print] on the fields of [reportData.Data]. *)
Definition Print (emojisOff shortOn : bool) (Data : list Testgrid.ReportDataField)
    : list string :=
  flat_map
    (fun reportField =>
       let headerLine :=
         newline +:+ newline +:+ Testgrid.Emoji reportField +:+ " Tests in "
           +:+ Testgrid.FieldTitle reportField in
       let headerLine :=
         if emojisOff
         then newline +:+ newline +:+ "Tests in " +:+ Testgrid.FieldTitle reportField
         else headerLine in
       flat_map (printRecord emojisOff shortOn headerLine)
                (Testgrid.Records reportField))
    Data.

(** A service for the examples: the two dashboards of the master branch
    answer with the example dashboard, any other request fails. *)
Definition exampleService : Service :=
  fun url =>
    if String.eqb url "https://testgrid.k8s.io/sig-release-master-blocking/summary"
       || String.eqb url "https://testgrid.k8s.io/sig-release-master-informing/summary"
    then Decoded Testgrid.exampleDashboard
    else UnmarshalFailed "invalid character '<' looking for beginning of value".

End TestgridReport.

(** ** Predicates used in the statements of further properties *)
Module Props.

(** The maps that arrive on the channel agree: a number that is a key of
    two of them carries the same issue in both. *)
Definition agree (arrived : list Issues.GithubIssuesAfterId) : Prop :=
  forall m1 m2 k v1 v2, m1 ∈ arrived -> m2 ∈ arrived ->
    m1 !! k = Some v1 -> m2 !! k = Some v2 -> v1 = v2.

(** Every character of [s] is a letter. *)
Fixpoint allLetters (s : string) : bool :=
  match s with
  | EmptyString => true
  | String c s' => Testgrid.isLetter c && allLetters s'
  end.

Definition startsWithLetter (s : string) : bool :=
  match s with
  | String c _ => Testgrid.isLetter c
  | EmptyString => false
  end.

(** A match of [sig/[a-zA-Z]+] starts at the head of [t]. *)
Definition sigAt (t : string) : Prop :=
  exists c r, t = "sig/" +:+ String c r /\ Testgrid.isLetter c = true.

(** [sig] is the text of the leftmost match of [sig/[a-zA-Z]+] in [s],
    with all the letters that follow: [s] is [pre], [sig], [post], where
    [post] does not go on with a letter and no match starts within
    [pre]. *)
Definition sigMatch (s sig : string) : Prop :=
  exists pre letters post,
    s = pre +:+ ("sig/" +:+ letters) +:+ post /\ sig = "sig/" +:+ letters /\
    letters <> "" /\ allLetters letters = true /\ startsWithLetter post = false /\
    forall p q, pre = p +:+ q -> q <> "" ->
      ~ sigAt (q +:+ ("sig/" +:+ letters) +:+ post).

(** No match of [sig/[a-zA-Z]+] starts anywhere in [s]. *)
Definition noSig (s : string) : Prop := forall p q, s = p +:+ q -> ~ sigAt q.

(** The sigs of a list of labels, in the order of the labels: the match
    of each label that has one. *)
Inductive sigsOf : list Issues.Label -> list string -> Prop :=
| sigsOf_nil : sigsOf [] []
| sigsOf_match label labels sig sigs :
    sigMatch (Issues.Name label) sig -> sigsOf labels sigs ->
    sigsOf (label :: labels) (sig :: sigs)
| sigsOf_none label labels sigs :
    noSig (Issues.Name label) -> sigsOf labels sigs ->
    sigsOf (label :: labels) sigs.

(** The issue has a milestone, or a label whose name contains [priority]
    or [kind/]. *)
Definition annotated (issue : Issues.GithubIssueElement) : Prop :=
  Issues.IssueMilestone issue <> None \/
  exists label, label ∈ Issues.Labels issue /\
    (GoStrings.Contains (Issues.Name label) "priority" = true \/
     GoStrings.Contains (Issues.Name label) "kind/" = true).

(** The date of a reading as a timestamp starts with it: [yyyy-mm-dd]. *)
Definition dateOf (r : GoTime.Reading) : string :=
  GoTime.twoDigits (GoTime.year r / 100) (GoTime.twoDigits (GoTime.year r)
    (String "-" (GoTime.twoDigits (GoTime.month r)
      (String "-" (GoTime.twoDigits (GoTime.day r) ""))))).

(** The issue numbers in the records of the fields of a report. *)
Definition reportedIDs (fields : list IssueReport.ReportDataField) : list Z :=
  flat_map (fun field => IssueReport.ID <$> IssueReport.Records field) fields.

(** The maps agree: a key of two of them carries the same value in both. *)
Definition consistent {K A : Type} `{Countable K} (ms : list (gmap K A)) : Prop :=
  forall m1 m2 k v1 v2, m1 ∈ ms -> m2 ∈ ms ->
    m1 !! k = Some v1 -> m2 !! k = Some v2 -> v1 = v2.

(** The records of the column [cardsID] as its worker builds them, when
    none of the requests for its cards brings the process down. *)
Definition columnRecords (client : CardReport.Client) (service : Cards.Service)
    (githubToken : string)
    (arrival : list Cards.ghIssueOverview -> list Cards.ghIssueOverview)
    (cardsID : Z) : option (list CardReport.ReportDataRecord) :=
  match Cards.assembleCardRequests service githubToken
          (CardReport.ListProjectCards client cardsID).1 with
  | Returned r => Some (CardReport.overviewRecord <$> arrival (Cards.sent r))
  | _ => None
  end.

(** The request for the detail of an issue fails without bringing the
    process down: the request cannot be built, the body cannot be read or
    does not decode. *)
Definition detailFails (service : Cards.Service) (url token : string) : Prop :=
  match service url token with
  | Cards.NewRequestFailed _ | Cards.RedirectStopped _
  | Cards.ReadFailed _ | Cards.UnmarshalFailed _ => True
  | _ => False
  end.

(** The URL [reqTestgridSiteData] requests for a job. *)
Definition summaryUrl (job : Testgrid.testgridJob) : string :=
  ("https://testgrid.k8s.io/" +:+ Testgrid.URLName job) +:+ "/summary".

(** The request for the dashboard of a job fails with [err]. *)
Definition dashboardFails (service : TestgridReport.Service)
    (job : Testgrid.testgridJob) (err : string) : Prop :=
  match service (summaryUrl job) with
  | TestgridReport.GetFailed e | TestgridReport.ReadFailed e
  | TestgridReport.UnmarshalFailed e => e = err
  | TestgridReport.Decoded _ => False
  end.

(** The titles of the fields of a report for the given release versions. *)
Definition expectedTitles (ReleaseVersion : list string) : list string :=
  ["Master-Blocking"; "Master-Informing"]
    ++ flat_map (fun r => [r +:+ "-blocking"; r +:+ "-informing"]) ReleaseVersion.

(** No character of [s] is a decimal digit. *)
Fixpoint noDigits (s : string) : bool :=
  match s with
  | EmptyString => true
  | String c s' => negb (GoStrings.isDigit c) && noDigits s'
  end.

Definition startsWithDigit (s : string) : bool :=
  match s with
  | String c _ => GoStrings.isDigit c
  | EmptyString => false
  end.

(** The decimal text of a count below 100 is one digit or two, and reads
    back as the count. *)
Definition countText (n : nat) : bool :=
  match pretty (Z.of_nat n) with
  | String a EmptyString =>
      GoStrings.isDigit a &&
      bool_decide (Testgrid.decimalValue (pretty (Z.of_nat n)) = Some (Z.of_nat n))
  | String a (String b EmptyString) =>
      GoStrings.isDigit a && GoStrings.isDigit b &&
      bool_decide (Testgrid.decimalValue (pretty (Z.of_nat n)) = Some (Z.of_nat n))
  | _ => false
  end.

(** The decimal text of a count from 100 to 999 is three digits, of which
    the last two denote the count modulo 100 and the first two the count
    divided by 10. *)
Definition longCountText (n : nat) : bool :=
  match pretty (Z.of_nat n) with
  | String a (String b (String c EmptyString)) =>
      GoStrings.isDigit a && GoStrings.isDigit b && GoStrings.isDigit c &&
      bool_decide (Testgrid.decimalValue (String b (String c EmptyString))
                   = Some (Z.of_nat n mod 100)) &&
      bool_decide (Testgrid.decimalValue (String a (String b EmptyString))
                   = Some (Z.of_nat n / 10))
  | _ => false
  end.

(** Two records, two fields, agree in all but the highlight and the
    emoji. *)
Definition sameRecord (r1 r2 : Testgrid.ReportDataRecord) : Prop :=
  Testgrid.ID r1 = Testgrid.ID r2 /\ Testgrid.Status r1 = Testgrid.Status r2 /\
  Testgrid.Severity r1 = Testgrid.Severity r2 /\
  Testgrid.Title r1 = Testgrid.Title r2 /\ Testgrid.URL r1 = Testgrid.URL r2 /\
  Testgrid.Notes r1 = Testgrid.Notes r2.

Definition sameField (f1 f2 : Testgrid.ReportDataField) : Prop :=
  Testgrid.FieldTitle f1 = Testgrid.FieldTitle f2 /\
  Forall2 sameRecord (Testgrid.Records f1) (Testgrid.Records f2).

(** Two jobs name the same dashboard. *)
Definition sameJob (j1 j2 : Testgrid.testgridJob) : Prop :=
  Testgrid.OutputName j1 = Testgrid.OutputName j2 /\
  Testgrid.URLName j1 = Testgrid.URLName j2.

(** Two runs end alike: with fields that agree in all but emoji and
    highlights, or with the same fatal message. *)
Definition sameOutcome (r1 r2 : Run (list Testgrid.ReportDataField)) : Prop :=
  match r1, r2 with
  | Returned d1, Returned d2 => Forall2 sameField d1 d2
  | Fatal m1, Fatal m2 => m1 = m2
  | _, _ => False
  end.

End Props.

(* ===================================================================== *)
(** * Part II: lemmas and theorems                                        *)
(* ===================================================================== *)

(** ** Facts about the string functions *)

Lemma HasPrefix_app (p s : string) : GoStrings.HasPrefix (p +:+ s) p = true.
Proof.
  induction p as [|c p IH]; simpl; [reflexivity|].
  rewrite Ascii.eqb_refl. exact IH.
Qed.

Lemma HasPrefix_refl (s : string) : GoStrings.HasPrefix s s = true.
Proof. induction s as [|c s IH]; simpl; [done|]. by rewrite Ascii.eqb_refl. Qed.

Lemma Contains_refl (s : string) : GoStrings.Contains s s = true.
Proof. destruct s; simpl; [done|]. by rewrite Ascii.eqb_refl, HasPrefix_refl. Qed.

Lemma Contains_empty_l (s : string) : s <> "" -> GoStrings.Contains "" s = false.
Proof. by destruct s. Qed.

Lemma Contains_app_l (a b : string) : GoStrings.Contains (a +:+ b) a = true.
Proof.
  destruct (a +:+ b) eqn:Heq; simpl; rewrite <- Heq, HasPrefix_app; done.
Qed.

Lemma Contains_app_r (a b : string) : GoStrings.Contains (a +:+ b) b = true.
Proof.
  induction a as [|c a IH]; [apply Contains_refl|].
  change (String c a +:+ b) with (String c (a +:+ b)).
  cbn [GoStrings.Contains]. rewrite IH. apply orb_true_r.
Qed.

Lemma HasPrefix_Contains (s p : string) :
  GoStrings.HasPrefix s p = true -> GoStrings.Contains s p = true.
Proof. intros H. destruct s; simpl; by rewrite H. Qed.

Lemma lowerChar_upperChar (c : ascii) :
  GoStrings.lowerChar (GoStrings.upperChar c) = GoStrings.lowerChar c.
Proof. destruct c as [[] [] [] [] [] [] [] []]; reflexivity. Qed.

Lemma upperChar_lowerChar (c : ascii) :
  GoStrings.upperChar (GoStrings.lowerChar c) = GoStrings.upperChar c.
Proof. destruct c as [[] [] [] [] [] [] [] []]; reflexivity. Qed.

Lemma upperChar_idem (c : ascii) :
  GoStrings.upperChar (GoStrings.upperChar c) = GoStrings.upperChar c.
Proof. destruct c as [[] [] [] [] [] [] [] []]; reflexivity. Qed.

Lemma EqualFold_ToLower (s t : string) :
  GoStrings.EqualFold s t = true -> GoStrings.ToLower s = GoStrings.ToLower t.
Proof.
  revert t. induction s as [|a s IH]; intros [|b t]; simpl; try done.
  intros [Hab Hst]%andb_true_iff. apply Ascii.eqb_eq in Hab.
  unfold GoStrings.ToLower in *. cbn [GoStrings.mapChars]. by rewrite Hab, (IH t).
Qed.

Lemma ToLower_EqualFold (s t : string) :
  GoStrings.ToLower s = GoStrings.ToLower t -> GoStrings.EqualFold s t = true.
Proof.
  revert t. induction s as [|a s IH]; intros [|b t]; simpl; try done.
  intros [= Hab Hst]. rewrite Hab, Ascii.eqb_refl. by apply IH.
Qed.

Lemma ToUpper_ToLower (s : string) :
  GoStrings.ToUpper (GoStrings.ToLower s) = GoStrings.ToUpper s.
Proof.
  induction s as [|a s IH]; [done|].
  unfold GoStrings.ToUpper, GoStrings.ToLower in *. simpl.
  by rewrite upperChar_lowerChar, IH.
Qed.

Lemma ToLower_titleFrom (prev : ascii) (s : string) :
  GoStrings.ToLower (GoStrings.titleFrom prev s) = GoStrings.ToLower s.
Proof.
  revert prev. induction s as [|a s IH]; intros prev; [done|].
  unfold GoStrings.ToLower in *. simpl. rewrite IH.
  destruct (GoStrings.isSeparator prev); [|done]. by rewrite lowerChar_upperChar.
Qed.

Lemma ToUpper_titleFrom (prev : ascii) (s : string) :
  GoStrings.ToUpper (GoStrings.titleFrom prev s) = GoStrings.ToUpper s.
Proof.
  revert prev. induction s as [|a s IH]; intros prev; [done|].
  unfold GoStrings.ToUpper in *. simpl. rewrite IH.
  destruct (GoStrings.isSeparator prev); [|done]. by rewrite upperChar_idem.
Qed.

Lemma EqualFold_Title (s t : string) :
  GoStrings.EqualFold (GoStrings.Title s) t = GoStrings.EqualFold s t.
Proof.
  unfold GoStrings.Title.
  destruct (GoStrings.EqualFold s t) eqn:Hst.
  - apply ToLower_EqualFold. rewrite ToLower_titleFrom. by apply EqualFold_ToLower.
  - destruct (GoStrings.EqualFold (GoStrings.titleFrom " " s) t) eqn:Ht; [|done].
    apply EqualFold_ToLower in Ht. rewrite ToLower_titleFrom in Ht.
    apply ToLower_EqualFold in Ht. congruence.
Qed.

Lemma HasPrefix_ToLower (s p : string) :
  GoStrings.HasPrefix s p = true ->
  GoStrings.HasPrefix (GoStrings.ToLower s) (GoStrings.ToLower p) = true.
Proof.
  revert s. induction p as [|b p IH]; intros [|a s]; simpl; try done.
  intros [Hab Hsp]%andb_true_iff. apply Ascii.eqb_eq in Hab as ->.
  rewrite Ascii.eqb_refl. by apply IH.
Qed.

Lemma Contains_ToLower (s p : string) :
  GoStrings.Contains s p = true ->
  GoStrings.Contains (GoStrings.ToLower s) (GoStrings.ToLower p) = true.
Proof.
  induction s as [|a s IH]; intros H.
  - apply HasPrefix_Contains, HasPrefix_ToLower.
    simpl in H. by rewrite orb_false_r in H.
  - simpl in H. apply orb_true_iff in H as [H|H].
    + by apply HasPrefix_Contains, HasPrefix_ToLower.
    + change (GoStrings.ToLower (String a s))
        with (String (GoStrings.lowerChar a) (GoStrings.ToLower s)).
      cbn [GoStrings.Contains]. rewrite (IH H). apply orb_true_r.
Qed.

(** Where [old] does not occur there is nothing to replace. *)
Lemma replaceFrom_absent (old new s : string) :
  GoStrings.Contains s old = false -> GoStrings.replaceFrom old new 0 s = s.
Proof.
  induction s as [|c s IH]; simpl.
  - intros H%orb_false_iff. destruct H as [H _]. by rewrite H.
  - intros [Hp Hc]%orb_false_iff. rewrite Hp. by rewrite IH.
Qed.

(** A leading [sig/] is removed, and nothing else where the rest is free
    of [sig/]. *)
Lemma Replace_sig_prefix (n : string) :
  GoStrings.Contains n "sig/" = false ->
  GoStrings.Replace ("sig/" +:+ n) "sig/" "" = n.
Proof.
  intros Hn. unfold GoStrings.Replace.
  change ("sig/" +:+ n) with (String "s" (String "i" (String "g" (String "/" n)))).
  cbn [GoStrings.replaceFrom GoStrings.HasPrefix String.length].
  rewrite !Ascii.eqb_refl. cbn [andb].
  change ("" +:+ ?x) with x.
  destruct n as [|c n]; [done|]. by rewrite replaceFrom_absent.
Qed.

(** ** The exclusion policy of [filterGithubIssues] *)
Section Filter.
Import Issues.

Lemma labelKeepsFine_true (fine : bool) (label : Label) :
  labelKeepsFine fine label = true <->
  fine = true /\ ~ Spec.labelMatches (Name label).
Proof.
  unfold labelKeepsFine, Spec.labelMatches.
  destruct fine,
    (GoStrings.Contains (Name label) "priority/backlog"),
    (GoStrings.Contains (Name label) "triage/accepted"),
    (GoStrings.Contains (Name label) "lifecycle/rotten"),
    (GoStrings.Contains (Name label) "lifecycle/stale"); simpl; intuition congruence.
Qed.

Lemma labels_fine (labels : list Label) (fine : bool) :
  fold_left labelKeepsFine labels fine = true <->
  fine = true /\ forall label, label ∈ labels -> ~ Spec.labelMatches (Name label).
Proof.
  revert fine. induction labels as [|l labels IH]; intros fine; simpl.
  - split; [intros ->; split; [done|] | tauto]. intros ? H. inversion H.
  - rewrite IH, labelKeepsFine_true. split.
    + intros [[-> Hl] Hrest]. split; [done|].
      intros label [->|Hin]%elem_of_cons; auto.
    + intros [-> Hall]. repeat split.
      * apply Hall. left.
      * intros label Hin. apply Hall. by right.
Qed.

(** The flag [fine] is set exactly on the issues the policy does not
    exclude. *)
Lemma issueFine_iff (i : GithubIssueElement) :
  issueFine i = true <-> ~ Spec.excluded i.
Proof.
  unfold issueFine, Spec.excluded, Spec.isPullRequest.
  rewrite andb_true_iff, labels_fine, negb_true_iff. split.
  - intros [[_ Hall] Hurl] [(label & Hin & Hm)|Hpull].
    + exact (Hall label Hin Hm).
    + congruence.
  - intros Hnot. split; [split; [done|]|].
    + intros label Hin Hm. apply Hnot. left. eauto.
    + destruct (GoStrings.Contains (HTMLURL i) "pull"); [|done].
      exfalso. apply Hnot. by right.
Qed.

Lemma issueFine_false_iff (i : GithubIssueElement) :
  issueFine i = false <-> Spec.excluded i.
Proof.
  split.
  - intros Hf. unfold issueFine in Hf. unfold Spec.excluded, Spec.isPullRequest.
    destruct (GoStrings.Contains (HTMLURL i) "pull"); [by right|]. left.
    rewrite andb_true_r in Hf.
    assert (Hex : exists label, label ∈ Labels i /\ Spec.labelMatches (Name label)).
    { revert Hf. generalize (Labels i). intros labels.
      assert (Hgen : forall fine, fold_left labelKeepsFine labels fine = false ->
                fine = false \/
                exists label, label ∈ labels /\ Spec.labelMatches (Name label)).
      { induction labels as [|l labels IH]; intros fine Hfold; simpl in Hfold.
        - by left.
        - destruct (IH _ Hfold) as [Hstep|(label & Hin & Hm)].
          + destruct fine; [|by left]. right. exists l. split; [left|].
            unfold labelKeepsFine in Hstep. unfold Spec.labelMatches.
            destruct (GoStrings.Contains (Name l) "priority/backlog"),
              (GoStrings.Contains (Name l) "triage/accepted"),
              (GoStrings.Contains (Name l) "lifecycle/rotten"),
              (GoStrings.Contains (Name l) "lifecycle/stale"); simpl in Hstep; auto.
          + right. exists label. split; [by right|done]. }
      intros Hf. destruct (Hgen true Hf) as [?|?]; [done|assumption]. }
    exact Hex.
  - intros Hex. destruct (issueFine i) eqn:Hfine; [|done].
    apply issueFine_iff in Hfine. contradiction.
Qed.

Lemma filterInto_cons (acc : GithubIssuesAfterId) (i : GithubIssueElement)
    (issues : GithubIssues) :
  filterInto acc (i :: issues) =
  filterInto (if issueFine i then <[Number i := i]> acc else acc) issues.
Proof. reflexivity. Qed.

Lemma distinct_numbers (issues : GithubIssues) (i j : GithubIssueElement) :
  NoDup (Number <$> issues) -> i ∈ issues -> j ∈ issues ->
  Number i = Number j -> i = j.
Proof.
  induction issues as [|k issues IH]; intros Hnd Hi Hj Heq.
  - inversion Hi.
  - rewrite fmap_cons in Hnd. apply NoDup_cons in Hnd as [Hfresh Hnd].
    apply elem_of_cons in Hi as [->|Hi], Hj as [->|Hj]; [done| | |by apply IH].
    + exfalso. apply Hfresh. rewrite Heq. by apply list_elem_of_fmap_2.
    + exfalso. apply Hfresh. rewrite <- Heq. by apply list_elem_of_fmap_2.
Qed.

Lemma filterInto_lookup_inv (issues : GithubIssues) (acc : GithubIssuesAfterId)
    (n : Z) (j : GithubIssueElement) :
  filterInto acc issues !! n = Some j ->
  acc !! n = Some j \/ (j ∈ issues /\ Number j = n /\ issueFine j = true).
Proof.
  revert acc. induction issues as [|i issues IH]; intros acc Hlook.
  - by left.
  - rewrite filterInto_cons in Hlook.
    apply IH in Hlook as [Hacc|(Hin & Hn & Hf)].
    + destruct (issueFine i) eqn:Hfine; [|by left].
      destruct (decide (Number i = n)) as [<-|Hne].
      * rewrite lookup_insert_eq in Hacc. injection Hacc as <-.
        right. repeat split; [left|done].
      * rewrite lookup_insert_ne in Hacc by done. by left.
    + right. repeat split; [by right|done..].
Qed.

Lemma filterInto_lookup_some (issues : GithubIssues) (acc : GithubIssuesAfterId)
    (n : Z) :
  is_Some (acc !! n) -> is_Some (filterInto acc issues !! n).
Proof.
  revert acc. induction issues as [|i issues IH]; intros acc Hsome; [done|].
  rewrite filterInto_cons. apply IH. destruct (issueFine i); [|done].
  destruct (decide (Number i = n)) as [<-|Hne].
  - rewrite lookup_insert_eq. eauto.
  - by rewrite lookup_insert_ne.
Qed.

Lemma filterInto_keeps (issues : GithubIssues) (acc : GithubIssuesAfterId)
    (i : GithubIssueElement) :
  i ∈ issues -> issueFine i = true -> is_Some (filterInto acc issues !! Number i).
Proof.
  revert acc. induction issues as [|i' issues IH]; intros acc Hin Hfine.
  - inversion Hin.
  - rewrite filterInto_cons. apply elem_of_cons in Hin as [<-|Hin].
    + rewrite Hfine. apply filterInto_lookup_some.
      rewrite lookup_insert_eq. eauto.
    + by apply IH.
Qed.

Lemma filterInto_fresh (issues : GithubIssues) (acc : GithubIssuesAfterId) (n : Z) :
  n ∉ Number <$> issues -> filterInto acc issues !! n = acc !! n.
Proof.
  revert acc. induction issues as [|i issues IH]; intros acc Hnot; [done|].
  rewrite filterInto_cons.
  rewrite fmap_cons in Hnot. apply not_elem_of_cons in Hnot as [Hne Hnot].
  rewrite IH by done. destruct (issueFine i); [|done].
  by rewrite lookup_insert_ne.
Qed.

Lemma filterInto_distinct (issues : GithubIssues) (acc : GithubIssuesAfterId)
    (i : GithubIssueElement) :
  NoDup (Number <$> issues) -> i ∈ issues -> issueFine i = true ->
  filterInto acc issues !! Number i = Some i.
Proof.
  revert acc. induction issues as [|i' issues IH]; intros acc Hnd Hin Hfine.
  - inversion Hin.
  - rewrite fmap_cons in Hnd. apply NoDup_cons in Hnd as [Hfresh Hnd].
    rewrite filterInto_cons. apply elem_of_cons in Hin as [<-|Hin].
    + rewrite Hfine, filterInto_fresh by done. apply lookup_insert_eq.
    + by apply IH.
Qed.

(** C5. For every listing, [filterGithubIssues] excludes an issue if and
    only if one of its labels matches [priority/backlog], [triage/accepted],
    [lifecycle/rotten] or [lifecycle/stale], or its HTML URL marks a pull
    request: every entry of the result is an issue of the listing under its
    own number that the policy does not exclude; an excluded issue is no
    entry of the result; an issue the policy does not exclude leaves an
    entry under its number, and that entry is the issue itself when the
    numbers of the listing are distinct. *)
Theorem filterGithubIssues_exclusion_policy (issues : GithubIssues) :
  (forall n j, filterGithubIssues issues !! n = Some j ->
     j ∈ issues /\ Number j = n /\ ~ Spec.excluded j) /\
  (forall i, Spec.excluded i -> forall n, filterGithubIssues issues !! n <> Some i) /\
  (forall i, i ∈ issues -> ~ Spec.excluded i ->
     exists j, filterGithubIssues issues !! Number i = Some j /\
               j ∈ issues /\ Number j = Number i /\ ~ Spec.excluded j) /\
  (NoDup (Number <$> issues) ->
     forall i, i ∈ issues ->
       (filterGithubIssues issues !! Number i = Some i <-> ~ Spec.excluded i) /\
       (filterGithubIssues issues !! Number i = None <-> Spec.excluded i)).
Proof.
  assert (Hentry : forall n j, filterGithubIssues issues !! n = Some j ->
            j ∈ issues /\ Number j = n /\ ~ Spec.excluded j).
  { intros n j Hlook. apply filterInto_lookup_inv in Hlook as [Hempty|(Hin & Hn & Hf)].
    - by rewrite lookup_empty in Hempty.
    - repeat split; [done..|]. by apply issueFine_iff. }
  split; [exact Hentry|]. split; [|split].
  - intros i Hex n Hlook. apply Hentry in Hlook as (_ & _ & Hnot). contradiction.
  - intros i Hin Hnot. apply issueFine_iff in Hnot.
    destruct (filterInto_keeps issues ∅ i Hin Hnot) as [j Hj].
    exists j. split; [exact Hj|]. apply Hentry in Hj as (? & ? & ?). done.
  - intros Hnd i Hin. split; split.
    + intros Hlook. by apply Hentry in Hlook as (_ & _ & Hnot).
    + intros Hnot. apply filterInto_distinct; [done..|]. by apply issueFine_iff.
    + intros Hnone. apply issueFine_false_iff.
      destruct (issueFine i) eqn:Hfine; [|done].
      pose proof (filterInto_keeps issues ∅ i Hin Hfine) as [j Hj].
      unfold filterGithubIssues in Hnone. congruence.
    + intros Hex. destruct (filterGithubIssues issues !! Number i) as [j|] eqn:Hlook;
        [|done].
      pose proof (Hentry _ _ Hlook) as (Hjin & Hjn & Hjnot).
      assert (j = i) as -> by (by apply (distinct_numbers issues)).
      contradiction.
Qed.

(** Of the example listing the filter keeps the issues 101 and 105. *)
Example filterGithubIssues_example :
  (map_to_list (filterGithubIssues exampleListing)).*1 = [101; 105] /\
  filterGithubIssues (take 1 (drop 1 exampleListing)) = ∅ /\
  filterGithubIssues (take 2 (drop 2 exampleListing)) = ∅.
Proof. by vm_compute. Qed.

End Filter.

(** Issue 103 of the example listing carries [lifecycle/stale]: it is no
    entry of the filtered map. *)
Lemma filterGithubIssues_exclusion_policy_witness :
  Issues.filterGithubIssues Issues.exampleListing !! 103 <>
  Some (Issues.issueOf 103 "https://github.com/kubernetes/kubernetes/issues/103"
                       ["kind/failing-test"; "lifecycle/stale"]).
Proof.
  apply (proj1 (proj2 (filterGithubIssues_exclusion_policy Issues.exampleListing))).
  left. exists (Issues.mkLabel "lifecycle/stale" "ededed").
  split; [|right; right; right; reflexivity].
  right. left.
Defined.

(** ** Pagination: [requestGithubIssues] *)
Section Pagination.
Import Issues.

Lemma withPage_pageUrl (url : string) (j : nat) :
  withPage (Spec.pageUrl url j) (Z.of_nat j + 1) = Spec.pageUrl url (S j).
Proof.
  unfold withPage, Spec.pageUrl. cbn [base pageParams]. f_equal.
  rewrite seq_S, fmap_app. cbn [fmap list_fmap]. do 2 f_equal. lia.
Qed.

Lemma pageUrl_inj (url : string) (i j : nat) :
  Spec.pageUrl url i = Spec.pageUrl url j -> i = j.
Proof.
  intros Heq. apply (f_equal (fun u => length (pageParams u))) in Heq.
  unfold Spec.pageUrl in Heq. cbn [pageParams] in Heq.
  by rewrite !length_fmap, !length_seq in Heq.
Qed.

(** One step of the chain: the worker of page [j + 1]. *)
Lemma requestGithubIssues_step (fuel : nat) (service : Service) (url token : string)
    (j : nat) :
  requestGithubIssues (S fuel) service (Spec.pageUrl url j) (Z.of_nat j + 1) token =
  match service (Spec.pageUrl url (S j)) token with
  | NewRequestFailed err => Some (Fatal (fatalMessage "Error on creating http request." err))
  | SendFailed err =>
      Some (Fatal (fatalMessage "Error on sending http request." err))
  | ReadFailed err =>
      Some (Fatal (fatalMessage "Error on read from response body." err))
  | UnmarshalFailed err =>
      Some (Fatal (fatalMessage "Error on UnmarshalGithubIssue." err))
  | Decoded requestedIssues =>
      (fun r => addRequest (Spec.pageUrl url (S j))
                  (addSent (filterGithubIssues requestedIssues) r)) <$>
      match requestedIssues with
      | [] => Some (Returned (mkFetched [] []))
      | _ :: _ =>
          requestGithubIssues fuel service (Spec.pageUrl url (S j))
                              (Z.of_nat (S j) + 1) token
      end
  end.
Proof.
  simpl. rewrite withPage_pageUrl.
  destruct (service (Spec.pageUrl url (S j)) token) as [| | | |[|i issues]];
    try reflexivity.
  simpl. replace (Z.of_nat j + 1 + 1) with (Z.pos (Pos.of_succ_nat j) + 1) by lia.
  reflexivity.
Qed.

Lemma ceilDiv_covers (n p : nat) : (0 < p)%nat -> (n <= Spec.ceilDiv n p * p)%nat.
Proof.
  intros Hp. unfold Spec.ceilDiv.
  pose proof (Nat.div_mod (n + p - 1) p ltac:(lia)) as Hdm.
  pose proof (Nat.mod_upper_bound (n + p - 1) p ltac:(lia)) as Hlt.
  nia.
Qed.

Lemma ceilDiv_least (n p j : nat) :
  (0 < p)%nat -> (j < Spec.ceilDiv n p)%nat -> (j * p < n)%nat.
Proof.
  intros Hp Hj. unfold Spec.ceilDiv in Hj.
  pose proof (Nat.div_mod (n + p - 1) p ltac:(lia)) as Hdm.
  pose proof (Nat.mod_upper_bound (n + p - 1) p ltac:(lia)) as Hlt.
  nia.
Qed.

Lemma pagedService_pageUrl (items : GithubIssues) (perPage : nat)
    (url token : string) (j : nat) :
  pagedService items perPage (Spec.pageUrl url (S j)) token =
  Decoded (take perPage (drop (j * perPage) items)).
Proof.
  unfold pagedService, Spec.pageUrl, pageOf. cbn [pageParams].
  rewrite seq_S, fmap_app. cbn [fmap list_fmap].
  rewrite last_last. do 3 f_equal. lia.
Qed.

Lemma rawPage_paged (items : GithubIssues) (perPage : nat) (url token : string)
    (j : nat) :
  Spec.rawPage (pagedService items perPage) url token (S j) =
  take perPage (drop (j * perPage) items).
Proof. unfold Spec.rawPage. by rewrite pagedService_pageUrl. Qed.

Lemma page_nonempty (items : GithubIssues) (perPage j : nat) :
  (0 < perPage)%nat -> (j < Spec.ceilDiv (length items) perPage)%nat ->
  take perPage (drop (j * perPage) items) <> [].
Proof.
  intros Hp Hj Hnil. apply (f_equal length) in Hnil.
  rewrite length_take, length_drop in Hnil. simpl in Hnil.
  pose proof (ceilDiv_least _ _ _ Hp Hj). lia.
Qed.

Lemma page_empty (items : GithubIssues) (perPage : nat) :
  (0 < perPage)%nat ->
  take perPage (drop (Spec.ceilDiv (length items) perPage * perPage) items) = [].
Proof.
  intros Hp. rewrite drop_ge; [by rewrite take_nil|].
  by apply ceilDiv_covers.
Qed.

(** The chain on a paged listing, from page [j + 1] on, [d] pages before
    the empty one. *)
Lemma paged_chain (items : GithubIssues) (perPage : nat) (url token : string)
    (d j fuel : nat) :
  (0 < perPage)%nat ->
  (j + d)%nat = Spec.ceilDiv (length items) perPage ->
  (d < fuel)%nat ->
  requestGithubIssues fuel (pagedService items perPage) (Spec.pageUrl url j)
                      (Z.of_nat j + 1) token =
  Some (Returned (mkFetched
    (Spec.pageUrl url <$> seq (S j) (S d))
    ((fun i => filterGithubIssues
                 (Spec.rawPage (pagedService items perPage) url token i))
       <$> seq (S j) (S d)))).
Proof.
  intros Hp. revert j fuel. induction d as [|d IH]; intros j fuel Hsum Hfuel.
  - destruct fuel as [|fuel]; [lia|].
    assert (j = Spec.ceilDiv (length items) perPage) as -> by lia.
    rewrite requestGithubIssues_step, pagedService_pageUrl.
    rewrite page_empty by done. cbn [fmap option_fmap option_map addSent addRequest
      requests sent seq list_fmap].
    rewrite rawPage_paged. by rewrite page_empty.
  - destruct fuel as [|fuel]; [lia|].
    rewrite requestGithubIssues_step, pagedService_pageUrl.
    pose proof (page_nonempty items perPage j Hp ltac:(lia)) as Hne.
    destruct (take perPage (drop (j * perPage) items)) as [|i page] eqn:Hpage;
      [done|].
    rewrite (IH (S j) fuel) by lia.
    cbn [fmap option_fmap option_map addSent addRequest requests sent].
    do 3 f_equal.
    change (seq (S j) (S (S d))) with (S j :: seq (S (S j)) (S d)).
    rewrite fmap_cons. f_equal. f_equal. by rewrite rawPage_paged.
Qed.

(** The shape of every completed chain, whatever the service: the pages
    requested are consecutive, each but the last came back non-empty, the
    last came back empty, and each left its filtered map on the channel. *)
Lemma chain_shape (service : Service) (url token : string) (fuel j : nat)
    (f : Fetched) :
  requestGithubIssues fuel service (Spec.pageUrl url j) (Z.of_nat j + 1) token
    = Some (Returned f) ->
  exists d,
    requests f = Spec.pageUrl url <$> seq (S j) (S d) /\
    sent f = (fun i => filterGithubIssues (Spec.rawPage service url token i))
               <$> seq (S j) (S d) /\
    (forall i, (j < i <= j + d)%nat ->
       ~ Spec.pageFails service url token i /\
       Spec.rawPage service url token i <> []) /\
    ~ Spec.pageFails service url token (S (j + d)) /\
    Spec.rawPage service url token (S (j + d)) = [].
Proof.
  revert j f. induction fuel as [|fuel IH]; intros j f Hrun; [done|].
  rewrite requestGithubIssues_step in Hrun.
  destruct (service (Spec.pageUrl url (S j)) token) as [| | | |issues] eqn:Hresp;
    try done.
  assert (Hraw : Spec.rawPage service url token (S j) = issues).
  { unfold Spec.rawPage. by rewrite Hresp. }
  assert (Hok : ~ Spec.pageFails service url token (S j)).
  { unfold Spec.pageFails. rewrite Hresp. tauto. }
  destruct issues as [|i issues].
  - injection Hrun as <-. exists 0%nat. rewrite Nat.add_0_r.
    cbn [requests sent addRequest addSent seq fmap list_fmap].
    rewrite Hraw. split; [done|]. split; [done|]. split; [intros; lia|]. by split.
  - destruct (requestGithubIssues fuel service (Spec.pageUrl url (S j))
                (Z.of_nat (S j) + 1) token) as [[f'| |]|] eqn:Hnext; try done.
    injection Hrun as <-.
    destruct (IH _ _ Hnext) as (d & Hreq & Hsent & Hpages & Hlastok & Hlast).
    exists (S d).
    cbn [requests sent addRequest addSent]. rewrite Hreq, Hsent.
    change (seq (S j) (S (S d))) with (S j :: seq (S (S j)) (S d)).
    rewrite !fmap_cons, Hraw.
    replace (S (j + S d)) with (S (S j + d)) by lia.
    split; [done|]. split; [done|]. split; [|by split].
    intros k Hk. destruct (decide (k = S j)) as [->|Hne].
    + split; [done|]. by rewrite Hraw.
    + apply Hpages. lia.
Qed.

(** *** Failure of a page *)

Lemma pageFails_failureOf (service : Service) (url token : string) (k : nat) :
  Spec.pageFails service url token k <->
  exists msg, failureOf (service (Spec.pageUrl url k) token) = Some msg.
Proof.
  unfold Spec.pageFails.
  destruct (service (Spec.pageUrl url k) token); cbn; split;
    try done; eauto; by intros [? ?].
Qed.

Lemma page_failure_fatal (service : Service) (url token : string) (d j fuel : nat)
    (msg : string) :
  (forall k, (j < k <= j + d)%nat ->
     ~ Spec.pageFails service url token k /\ Spec.rawPage service url token k <> []) ->
  failureOf (service (Spec.pageUrl url (S (j + d))) token) = Some msg ->
  (d < fuel)%nat ->
  requestGithubIssues fuel service (Spec.pageUrl url j) (Z.of_nat j + 1) token
    = Some (Fatal msg).
Proof.
  revert j fuel. induction d as [|d IH]; intros j fuel Hpages Hfail Hfuel.
  - destruct fuel as [|fuel]; [lia|]. rewrite requestGithubIssues_step.
    rewrite Nat.add_0_r in Hfail.
    destruct (service (Spec.pageUrl url (S j)) token); cbn in Hfail; congruence.
  - destruct fuel as [|fuel]; [lia|]. rewrite requestGithubIssues_step.
    destruct (Hpages (S j) ltac:(lia)) as [Hok Hne].
    unfold Spec.pageFails in Hok. unfold Spec.rawPage in Hne.
    destruct (service (Spec.pageUrl url (S j)) token) as [| | | |[|i issues]];
      try done; try (exfalso; apply Hok; exact I).
    rewrite (IH (S j) fuel); [done| |by replace (S (S j + d)) with (S (j + S d)) by lia|lia].
    intros k Hk. apply Hpages. lia.
Qed.

(** The chain over any service whose pages come back non-empty up to an
    empty one. *)
Lemma chain_run (service : Service) (url token : string) (d j fuel : nat) :
  (forall k, (j < k <= j + d)%nat ->
     ~ Spec.pageFails service url token k /\ Spec.rawPage service url token k <> []) ->
  ~ Spec.pageFails service url token (S (j + d)) ->
  Spec.rawPage service url token (S (j + d)) = [] ->
  (d < fuel)%nat ->
  requestGithubIssues fuel service (Spec.pageUrl url j) (Z.of_nat j + 1) token =
  Some (Returned (mkFetched
    (Spec.pageUrl url <$> seq (S j) (S d))
    ((fun i => filterGithubIssues (Spec.rawPage service url token i))
       <$> seq (S j) (S d)))).
Proof.
  revert j fuel. induction d as [|d IH]; intros j fuel Hpages Hok Hlast Hfuel.
  - destruct fuel as [|fuel]; [lia|]. rewrite requestGithubIssues_step.
    rewrite Nat.add_0_r in Hok, Hlast.
    cbn [seq fmap list_fmap]. rewrite Hlast.
    unfold Spec.pageFails in Hok. unfold Spec.rawPage in Hlast.
    destruct (service (Spec.pageUrl url (S j)) token) as [| | | |issues];
      try (exfalso; apply Hok; exact I).
    by subst issues.
  - destruct fuel as [|fuel]; [lia|]. rewrite requestGithubIssues_step.
    destruct (Hpages (S j) ltac:(lia)) as [Hokj Hne].
    change (seq (S j) (S (S d))) with (S j :: seq (S (S j)) (S d)).
    rewrite !fmap_cons.
    unfold Spec.pageFails in Hokj. unfold Spec.rawPage in Hne |- * at 1.
    destruct (service (Spec.pageUrl url (S j)) token) as [| | | |[|i issues]];
      try done; try (exfalso; apply Hokj; exact I).
    rewrite (IH (S j) fuel); [done| | | |lia].
    + intros k Hk. apply Hpages. lia.
    + by replace (S (S j + d)) with (S (j + S d)) by lia.
    + by replace (S (S j + d)) with (S (j + S d)) by lia.
Qed.

Lemma map_fold_insert_union (m acc : GithubIssuesAfterId) :
  map_fold (fun k issue (acc : GithubIssuesAfterId) => <[k := issue]> acc) acc m
  = m ∪ acc.
Proof.
  apply (map_fold_weak_ind (fun r (m : GithubIssuesAfterId) => r = m ∪ acc)).
  - by rewrite (left_id_L ∅ (∪)).
  - intros k issue m' r _ ->. by rewrite insert_union_l.
Qed.

Lemma collect_from_some (arrived : list GithubIssuesAfterId)
    (acc : GithubIssuesAfterId) (k : Z) :
  is_Some (acc !! k) ->
  is_Some (fold_left
    (fun (collectedIssues : GithubIssuesAfterId) issues =>
       map_fold (fun k issue acc => <[k := issue]> acc) collectedIssues issues)
    arrived acc !! k).
Proof.
  revert acc. induction arrived as [|m arrived IH]; intros acc Hsome; [done|].
  simpl. apply IH. rewrite map_fold_insert_union.
  destruct Hsome as [x Hx]. destruct (m !! k) as [y|] eqn:Hm.
  - exists y. by apply lookup_union_Some_l.
  - exists x. by rewrite lookup_union_r.
Qed.

Lemma collect_keeps (arrived : list GithubIssuesAfterId) (m : GithubIssuesAfterId)
    (k : Z) :
  m ∈ arrived -> is_Some (m !! k) -> is_Some (collect arrived !! k).
Proof.
  unfold collect. generalize (∅ : GithubIssuesAfterId).
  induction arrived as [|m' arrived IH]; intros acc Hin Hsome.
  - inversion Hin.
  - simpl. apply elem_of_cons in Hin as [<-|Hin].
    + apply collect_from_some. rewrite map_fold_insert_union.
      destruct Hsome as [x Hx]. exists x. by apply lookup_union_Some_l.
    + by apply IH.
Qed.

(** *** Every schedule of the goroutines *)

Lemma invariant_initial (service : Service) (url token : string) :
  Spec.chainInvariant service url token (mkPool [(mkUrl url [], 1)] [] [] []).
Proof.
  exists 0%nat. cbn [issued started blocked received seq fmap list_fmap app].
  split; [done|]. split; [intros; lia|]. split; [intros; lia|].
  split; [|done]. left. split; [done|]. intros; lia.
Qed.

Lemma invariant_step (service : Service) (url token : string) (pool : Pool)
    (next : Process) :
  Spec.chainInvariant service url token pool ->
  step service token (Running pool) next ->
  match next with
  | Running pool' => Spec.chainInvariant service url token pool'
  | Exited msg =>
      exists j,
        (forall k, (1 <= k <= j)%nat ->
           ~ Spec.pageFails service url token k /\
           Spec.rawPage service url token k <> []) /\
        failureOf (service (Spec.pageUrl url (S j)) token) = Some msg
  end.
Proof.
  intros (j & Hissued & Hok & Hne & Hstarted & Hmaps) Hstep.
  inversion Hstep as
    [before u page after bl iss rec requestedIssues Hresp Hpool
    |before u page after bl iss rec msg Hfail Hpool
    |st before issues after iss rec Hpool]; subst; cbn [issued started blocked received] in *.
  - destruct Hstarted as [[Hst Hlast]|[Hst _]];
      [|by destruct before].
    destruct before as [|? [|? ?]]; cbn in Hst; try done.
    injection Hst as -> -> ->. rewrite withPage_pageUrl in *.
    assert (Hraw : Spec.rawPage service url token (S j) = requestedIssues)
      by (unfold Spec.rawPage; by rewrite Hresp).
    assert (Hnofail : ~ Spec.pageFails service url token (S j))
      by (unfold Spec.pageFails; rewrite Hresp; tauto).
    exists (S j). cbn [issued started blocked received app].
    split; [by rewrite seq_S, fmap_app, Hissued|].
    split; [intros k Hk; destruct (decide (k = S j)) as [->|]; [done|apply Hok; lia]|].
    split; [intros k Hk; destruct (decide (k = j)) as [->|];
            [apply Hlast; lia|apply Hne; lia]|].
    split.
    + destruct requestedIssues as [|i issues]; cbn [length Nat.eqb negb].
      * right. split; [done|]. split; [lia|done].
      * left. rewrite Hraw. split; [|done]. cbn [app]. do 2 f_equal. lia.
    + rewrite seq_S, fmap_app. cbn [fmap list_fmap plus]. rewrite Hraw, <- Hmaps.
      rewrite <- !app_assoc. apply Permutation_app_head, Permutation_app_comm.
  - destruct Hstarted as [[Hst Hlast]|[Hst _]];
      [|by destruct before].
    destruct before as [|? [|? ?]]; cbn in Hst; try done.
    injection Hst as -> -> ->. rewrite withPage_pageUrl in *.
    exists j. split; [|done].
    intros k Hk. split; [by apply Hok|].
    destruct (decide (k = j)) as [->|]; [apply Hlast; lia|apply Hne; lia].
  - exists j. cbn [issued started blocked received].
    split; [done|]. split; [done|]. split; [done|]. split; [done|].
    rewrite <- Hmaps. rewrite (app_assoc (before ++ after) rec [issues]).
    rewrite <- Permutation_cons_append.
    by rewrite <- (Permutation_middle before after issues).
Qed.

(** What every schedule has reached, at any moment. *)
Lemma reachable_invariant (service : Service) (url token : string) (st : Process) :
  rtc (step service token) (initialPool url) st ->
  match st with
  | Running pool => Spec.chainInvariant service url token pool
  | Exited msg =>
      exists j,
        (forall k, (1 <= k <= j)%nat ->
           ~ Spec.pageFails service url token k /\
           Spec.rawPage service url token k <> []) /\
        failureOf (service (Spec.pageUrl url (S j)) token) = Some msg
  end.
Proof.
  revert st. apply rtc_ind_r.
  - apply invariant_initial.
  - intros st st' _ Hstep IH. destruct st as [pool|msg]; [|inversion Hstep].
    by apply (invariant_step service url token pool).
Qed.

(** Whatever the schedule, a fetch that completes has issued the requests
    of the chain, in its order, and its reader has received the maps of
    the chain, in some order. *)
Lemma every_schedule_completes_alike (service : Service) (url token : string)
    (pool : Pool) :
  rtc (step service token) (initialPool url) (Running pool) -> finished pool ->
  exists n sentByPage,
    (forall fuel, (n < fuel)%nat ->
       assembleGithubIssues fuel service url token
         = Some (Returned (mkFetched (issued pool) sentByPage))) /\
    issued pool = Spec.pageUrl url <$> seq 1 (S n) /\
    received pool ≡ₚ sentByPage.
Proof.
  intros Hreach [Hstarted Hblocked].
  apply reachable_invariant in Hreach
    as (j & Hissued & Hok & Hne & [[Hst _]|(_ & Hj & Hlast)] & Hmaps);
    [congruence|].
  destruct j as [|n]; [lia|].
  exists n, ((fun k => filterGithubIssues (Spec.rawPage service url token k))
               <$> seq 1 (S n)).
  rewrite Hblocked in Hmaps. split; [|done].
  intros fuel Hfuel. rewrite Hissued. unfold assembleGithubIssues.
  change (mkUrl url []) with (Spec.pageUrl url 0).
  apply (chain_run service url token n 0 fuel); [|by apply Hok; lia|done..].
  intros k Hk. split; [apply Hok|apply Hne]; lia.
Qed.

(** Whatever the schedule, a fetch that ends in [log.Fatalf] ends with the
    message of the chain. *)
Lemma every_schedule_exits_alike (service : Service) (url token : string)
    (msg : string) :
  rtc (step service token) (initialPool url) (Exited msg) ->
  exists n, forall fuel, (n < fuel)%nat ->
    assembleGithubIssues fuel service url token = Some (Fatal msg).
Proof.
  intros (j & Hpages & Hfail)%reachable_invariant.
  exists j. intros fuel Hfuel. unfold assembleGithubIssues.
  change (mkUrl url []) with (Spec.pageUrl url 0).
  apply (page_failure_fatal service url token j 0 fuel msg); [|done..].
  intros k Hk. apply Hpages. lia.
Qed.

(** One schedule: each goroutine issues its request, and the reader takes
    its map before the next goroutine moves.  Over pages that come back
    non-empty it leads from the goroutine of page [j + 1] to the goroutine
    of page [j + d + 1]. *)
Lemma run_pages (service : Service) (url token : string) (d j : nat)
    (issued received : list _) :
  (forall k, (j < k <= j + d)%nat ->
     ~ Spec.pageFails service url token k /\ Spec.rawPage service url token k <> []) ->
  exists issued' received',
    rtc (step service token)
      (Running (mkPool [(Spec.pageUrl url j, Z.of_nat j + 1)] [] issued received))
      (Running (mkPool [(Spec.pageUrl url (j + d), Z.of_nat (j + d) + 1)] []
                       issued' received')).
Proof.
  revert j issued received. induction d as [|d IH]; intros j issued received Hpages.
  - exists issued, received. by rewrite Nat.add_0_r.
  - destruct (Hpages (S j) ltac:(lia)) as [Hok Hne].
    unfold Spec.pageFails in Hok. unfold Spec.rawPage in Hne.
    destruct (service (Spec.pageUrl url (S j)) token) as [| | | |[|i issues]] eqn:Hresp;
      try done; try (exfalso; apply Hok; exact I).
    destruct (IH (S j) (issued ++ [Spec.pageUrl url (S j)])
                (received ++ [filterGithubIssues (i :: issues)]))
      as (issued' & received' & Hrun).
    { intros k Hk. apply Hpages. lia. }
    exists issued', received'.
    replace (j + S d)%nat with (S j + d)%nat by lia.
    eapply rtc_l; [|eapply rtc_l; [|exact Hrun]].
    + apply (step_request service token [] (Spec.pageUrl url j) (Z.of_nat j + 1) []
               [] issued received (i :: issues)).
      by rewrite withPage_pageUrl.
    + rewrite withPage_pageUrl. cbn [app length Nat.eqb negb].
      replace (Z.of_nat j + 1 + 1) with (Z.of_nat (S j) + 1) by lia.
      apply (step_receive service token _ [] (filterGithubIssues (i :: issues)) []).
Qed.

(** There is a schedule that completes the fetch when the pages come back
    non-empty up to an empty one. *)
Lemma a_schedule_completes (service : Service) (url token : string) (n : nat) :
  (forall k, (1 <= k <= n)%nat ->
     ~ Spec.pageFails service url token k /\ Spec.rawPage service url token k <> []) ->
  ~ Spec.pageFails service url token (S n) ->
  Spec.rawPage service url token (S n) = [] ->
  exists pool,
    rtc (step service token) (initialPool url) (Running pool) /\ finished pool.
Proof.
  intros Hpages Hok Hlast.
  destruct (run_pages service url token n 0 [] [])
    as (issued' & received' & Hrun).
  { intros k Hk. apply Hpages. lia. }
  unfold Spec.pageFails in Hok. unfold Spec.rawPage in Hlast.
  destruct (service (Spec.pageUrl url (S n)) token) as [| | | |issues] eqn:Hresp;
    try (exfalso; apply Hok; exact I).
  subst issues.
  exists (mkPool [] [] (issued' ++ [Spec.pageUrl url (S n)])
                 (received' ++ [filterGithubIssues []])).
  split; [|done].
  eapply rtc_trans; [exact Hrun|]. cbn [Nat.add].
  eapply rtc_l; [|eapply rtc_once].
  - apply (step_request service token [] (Spec.pageUrl url n) (Z.of_nat n + 1) []
             [] issued' received' []).
    by rewrite withPage_pageUrl.
  - rewrite withPage_pageUrl. cbn [app length Nat.eqb negb].
    apply (step_receive service token [] [] (filterGithubIssues []) []).
Qed.

(** There is a schedule that ends in [log.Fatalf] when a page fails after
    pages that came back non-empty. *)
Lemma a_schedule_exits (service : Service) (url token : string) (n : nat)
    (msg : string) :
  (forall k, (1 <= k <= n)%nat ->
     ~ Spec.pageFails service url token k /\ Spec.rawPage service url token k <> []) ->
  failureOf (service (Spec.pageUrl url (S n)) token) = Some msg ->
  rtc (step service token) (initialPool url) (Exited msg).
Proof.
  intros Hpages Hfail.
  destruct (run_pages service url token n 0 [] [])
    as (issued' & received' & Hrun).
  { intros k Hk. apply Hpages. lia. }
  eapply rtc_trans; [exact Hrun|]. cbn [Nat.add].
  apply rtc_once.
  apply (step_fatal service token [] (Spec.pageUrl url n) (Z.of_nat n + 1) []
           [] issued' received' msg).
  by rewrite withPage_pageUrl.
Qed.

(** C2. Pagination ends exactly at the first raw page that is empty.  For
    a listing of N items served in pages of P, with fuel for the chain,
    the fetch completes after exactly [ceil(N/P) + 1] requests, the k-th
    of them for page k, and every page leaves its filtered map on the
    channel; with any service, a raw page that is not empty, even one
    whose items are all filtered out, is followed by the request for the
    next page, and the requests stop after the first raw page that is
    empty; and on a paged listing the goroutines can be scheduled to
    complete the fetch, and however they are scheduled, a completed fetch
    has issued exactly these [ceil(N/P) + 1] requests. *)
Theorem pagination_stops_at_first_empty_raw_page :
  (forall (items : GithubIssues) (perPage : nat) (url token : string) (fuel : nat),
     (0 < perPage)%nat ->
     (Spec.ceilDiv (length items) perPage < fuel)%nat ->
     exists f,
       assembleGithubIssues fuel (pagedService items perPage) url token
         = Some (Returned f) /\
       length (requests f) = (Spec.ceilDiv (length items) perPage + 1)%nat /\
       requests f = Spec.pageUrl url
                      <$> seq 1 (Spec.ceilDiv (length items) perPage + 1) /\
       sent f = (fun k => filterGithubIssues
                            (pageOf items perPage (Z.of_nat k)))
                  <$> seq 1 (Spec.ceilDiv (length items) perPage + 1)) /\
  (forall (service : Service) (url token : string) (fuel : nat) (f : Fetched) (k : nat),
     assembleGithubIssues fuel service url token = Some (Returned f) ->
     Spec.pageUrl url (S k) ∈ requests f ->
     Spec.rawPage service url token (S k) <> [] ->
     filterGithubIssues (Spec.rawPage service url token (S k)) = ∅ ->
     Spec.pageUrl url (S (S k)) ∈ requests f) /\
  (forall (service : Service) (url token : string) (fuel : nat) (f : Fetched),
     assembleGithubIssues fuel service url token = Some (Returned f) ->
     exists n,
       requests f = Spec.pageUrl url <$> seq 1 (S n) /\
       (forall k, (1 <= k <= n)%nat -> Spec.rawPage service url token k <> []) /\
       Spec.rawPage service url token (S n) = []) /\
  (forall (items : GithubIssues) (perPage : nat) (url token : string),
     (0 < perPage)%nat ->
     (exists pool,
        rtc (step (pagedService items perPage) token) (initialPool url)
            (Running pool) /\ finished pool) /\
     (forall pool,
        rtc (step (pagedService items perPage) token) (initialPool url)
            (Running pool) ->
        finished pool ->
        issued pool = Spec.pageUrl url
                        <$> seq 1 (Spec.ceilDiv (length items) perPage + 1) /\
        length (issued pool) = (Spec.ceilDiv (length items) perPage + 1)%nat)).
Proof.
  split; [|split; [|split]].
  - intros items perPage url token fuel Hp Hfuel.
    eexists. split.
    + unfold assembleGithubIssues.
      apply (paged_chain items perPage url token
               (Spec.ceilDiv (length items) perPage) 0 fuel); [done|lia|done].
    + cbn [requests sent]. rewrite length_fmap, length_seq.
      replace (Spec.ceilDiv (length items) perPage + 1)%nat
        with (S (Spec.ceilDiv (length items) perPage)) by lia.
      split; [lia|]. split; [done|].
      apply list_fmap_ext. intros idx k Hk.
      apply lookup_seq in Hk as [-> _]. cbn [Nat.add].
      rewrite rawPage_paged. unfold pageOf.
      by replace (Z.to_nat (Z.of_nat (S idx) - 1)) with idx by lia.
  - intros service url token fuel f k Hrun Hin Hraw _.
    apply (chain_shape service url token fuel 0) in Hrun
      as (d & Hreq & _ & Hpages & _ & Hlast).
    rewrite Hreq in Hin |- *.
    apply list_elem_of_fmap in Hin as (i & Heq & Hi).
    assert (i = S k) as ->.
    { by apply (pageUrl_inj url). }
    apply elem_of_seq in Hi.
    assert (S k <> S d).
    { intros Heqk. injection Heqk as ->. simpl in Hlast. contradiction. }
    apply list_elem_of_fmap_2, elem_of_seq. lia.
  - intros service url token fuel f Hrun.
    apply (chain_shape service url token fuel 0) in Hrun
      as (d & Hreq & _ & Hpages & _ & Hlast).
    exists d. repeat split; [done| |done].
    intros k Hk. apply Hpages. lia.
  - intros items perPage url token Hp. split.
    + apply (a_schedule_completes _ url token (Spec.ceilDiv (length items) perPage)).
      * intros [|k] Hk; [lia|]. unfold Spec.pageFails.
        rewrite rawPage_paged, pagedService_pageUrl.
        split; [tauto|]. apply page_nonempty; [done|lia].
      * unfold Spec.pageFails. rewrite pagedService_pageUrl. tauto.
      * rewrite rawPage_paged. by apply page_empty.
    + intros pool Hreach Hfin.
      destruct (every_schedule_completes_alike _ url token pool Hreach Hfin)
        as (n & sentByPage & Hfun & _ & _).
      pose proof (Hfun (S (n + Spec.ceilDiv (length items) perPage)) ltac:(lia))
        as Hrun.
      unfold assembleGithubIssues in Hrun.
      change (mkUrl url []) with (Spec.pageUrl url 0) in Hrun.
      change 1 with (Z.of_nat 0 + 1) in Hrun.
      rewrite (paged_chain items perPage url token
                 (Spec.ceilDiv (length items) perPage) 0) in Hrun by (done || lia).
      assert (Heq : issued pool = Spec.pageUrl url
                      <$> seq 1 (S (Spec.ceilDiv (length items) perPage))).
      { symmetry.
        exact (f_equal (fun r => match r with
                                 | Some (Returned f) => requests f
                                 | _ => []
                                 end) Hrun). }
      rewrite Heq.
      replace (Spec.ceilDiv (length items) perPage + 1)%nat
        with (S (Spec.ceilDiv (length items) perPage)) by lia.
      split; [done|]. by rewrite length_fmap, length_seq.
Qed.

(** The example listing in pages of two: four requests, for the pages 1
    to 4; the second page (items 103 and 104) is filtered out entirely and
    the third is requested all the same. *)
Example pagination_example :
  exists f,
    assembleGithubIssues 10 (pagedService exampleListing 2) "u" "token"
      = Some (Returned f) /\
    pageParams <$> requests f = [[1]; [1; 2]; [1; 2; 3]; [1; 2; 3; 4]] /\
    (fun m => (map_to_list m).*1) <$> sent f = [[101]; []; [105]; []].
Proof. eexists. split; [reflexivity|]. by vm_compute. Qed.

(** C3, the claim as the specification has it, at a service that cannot be
    reached: the first page fails in transport, and the fetch does not
    return to its caller; the process is terminated by [log.Fatalf]. *)
Lemma transport_failure_aborts_process :
  Spec.pageFails unreachableService "https://api.github.com/repos/kubernetes/kubernetes/issues?state=open" "token" 1 /\
  GetGithubIssues 3 unreachableService
    "https://api.github.com/repos/kubernetes/kubernetes/issues?state=open" "token"
    = Some (Fatal (fatalMessage "Error on sending http request."
                                "dial tcp: connection refused")) /\
  ~ Spec.reachesCaller 3 unreachableService
      "https://api.github.com/repos/kubernetes/kubernetes/issues?state=open" "token".
Proof.
  split; [exact I|]. split; [reflexivity|].
  intros [result Hret]. discriminate Hret.
Qed.

(** C3, as the code has it.  When the request for a page fails, in
    transport or in decoding, after pages that came back non-empty, the
    process is terminated by [log.Fatalf]: the fetch does not return, and
    no value, error or other, reaches the caller of [GetGithubIssues].
    However the goroutines are scheduled, the fetch is never completed,
    and the process can only end with the message of the failed page.
    When [GetGithubIssues] does return, no page was dropped: every page up
    to the first empty one was fetched and decoded, and every issue of
    those pages that the filter keeps has an entry in the result. *)
Theorem page_failure_terminates_process :
  (forall (service : Service) (url token : string) (n fuel : nat),
     (forall k, (1 <= k <= n)%nat ->
        ~ Spec.pageFails service url token k /\
        Spec.rawPage service url token k <> []) ->
     Spec.pageFails service url token (S n) ->
     (n < fuel)%nat ->
     (exists msg,
        GetGithubIssues fuel service url token = Some (Fatal msg) /\
        rtc (step service token) (initialPool url) (Exited msg) /\
        forall msg', rtc (step service token) (initialPool url) (Exited msg') ->
                     msg' = msg) /\
     ~ Spec.reachesCaller fuel service url token /\
     (forall pool, rtc (step service token) (initialPool url) (Running pool) ->
                   ~ finished pool)) /\
  (forall (service : Service) (url token : string) (fuel : nat)
          (result : GithubIssuesAfterId),
     GetGithubIssues fuel service url token = Some (Returned result) ->
     exists n,
       (forall k, (1 <= k <= S n)%nat -> ~ Spec.pageFails service url token k) /\
       (forall k, (1 <= k <= n)%nat -> Spec.rawPage service url token k <> []) /\
       Spec.rawPage service url token (S n) = [] /\
       (forall k i, (1 <= k <= S n)%nat ->
          i ∈ Spec.rawPage service url token k -> ~ Spec.excluded i ->
          is_Some (result !! Number i))).
Proof.
  split.
  - intros service url token n fuel Hpages Hfail Hfuel.
    apply pageFails_failureOf in Hfail as [msg Hfail].
    pose proof (page_failure_fatal service url token n 0 fuel msg
                  ltac:(intros k Hk; apply Hpages; lia) Hfail Hfuel) as Hmsg.
    assert (Hget : GetGithubIssues fuel service url token = Some (Fatal msg)).
    { unfold GetGithubIssues, assembleGithubIssues.
      change (mkUrl url []) with (Spec.pageUrl url 0).
      change 1 with (Z.of_nat 0 + 1). by rewrite Hmsg. }
    assert (Hfatal : forall fuel', (n < fuel')%nat ->
              assembleGithubIssues fuel' service url token = Some (Fatal msg)).
    { intros fuel' Hfuel'. unfold assembleGithubIssues.
      change (mkUrl url []) with (Spec.pageUrl url 0).
      apply (page_failure_fatal service url token n 0 fuel' msg); [|done..].
      intros k Hk. apply Hpages. lia. }
    split; [exists msg; split; [done|split]|split].
    + by apply (a_schedule_exits service url token n).
    + intros msg' (n' & Hexit)%every_schedule_exits_alike.
      pose proof (Hexit (S (n + n')) ltac:(lia)) as H1.
      pose proof (Hfatal (S (n + n')) ltac:(lia)) as H2. congruence.
    + intros [result Hret]. congruence.
    + intros pool Hreach Hfin.
      destruct (every_schedule_completes_alike _ url token pool Hreach Hfin)
        as (n' & sentByPage & Hfun & _ & _).
      pose proof (Hfun (S (n + n')) ltac:(lia)) as H1.
      pose proof (Hfatal (S (n + n')) ltac:(lia)) as H2. congruence.
  - intros service url token fuel result Hget.
    unfold GetGithubIssues, assembleGithubIssues in Hget.
    change (mkUrl url []) with (Spec.pageUrl url 0) in Hget.
    change 1 with (Z.of_nat 0 + 1) in Hget.
    destruct (requestGithubIssues fuel service (Spec.pageUrl url 0)
                (Z.of_nat 0 + 1) token) as [[f| |]|] eqn:Hrun; try done.
    simpl in Hget. injection Hget as <-.
    apply chain_shape in Hrun as (d & _ & Hsent & Hpages & Hlastok & Hlast).
    exists d. split; [|split; [|split]].
    + intros k Hk. destruct (decide (k = S d)) as [->|Hne]; [done|].
      apply Hpages. lia.
    + intros k Hk. apply Hpages. lia.
    + done.
    + intros k i Hk Hin Hnot.
      apply (collect_keeps (sent f)
               (filterGithubIssues (Spec.rawPage service url token k))).
      * rewrite Hsent. apply list_elem_of_fmap. exists k. split; [done|].
        apply elem_of_seq. lia.
      * apply issueFine_iff in Hnot.
        by apply filterInto_keeps.
Qed.

End Pagination.

(** The example listing in pages of two: the fetch completes with four
    requests. *)
Lemma pagination_stops_at_first_empty_raw_page_witness :
  exists f,
    Issues.assembleGithubIssues 10 (Issues.pagedService Issues.exampleListing 2%nat)
      "https://api.github.com/repos/kubernetes/kubernetes/issues?state=open" "token"
      = Some (Returned f) /\
    length (Issues.requests f) = 4%nat.
Proof.
  destruct (proj1 pagination_stops_at_first_empty_raw_page Issues.exampleListing 2%nat
              "https://api.github.com/repos/kubernetes/kubernetes/issues?state=open"
              "token" 10%nat ltac:(lia) ltac:(vm_compute; lia))
    as (f & Hrun & Hlen & _).
  exists f. split; [exact Hrun|exact Hlen].
Defined.

(** A second page that does not decode, after a first page of two items:
    the process is terminated. *)
Lemma page_failure_terminates_process_witness :
  exists msg,
    Issues.GetGithubIssues 5 Issues.brokenSecondPage
      "https://api.github.com/repos/kubernetes/kubernetes/issues?state=open" "token"
      = Some (Fatal msg).
Proof.
  destruct (proj1 page_failure_terminates_process Issues.brokenSecondPage
              "https://api.github.com/repos/kubernetes/kubernetes/issues?state=open"
              "token" 1%nat 5%nat) as [(msg & Hget & _) _].
  - intros k Hk. assert (k = 1%nat) as -> by lia. split; [|discriminate].
    intros Hfails. exact Hfails.
  - exact I.
  - lia.
  - exists msg. exact Hget.
Defined.

(** ** Calendar arithmetic and the age highlight *)
Section Age.
Import GoTime.

Lemma daysSinceEpoch_succ (y : Z) :
  daysSinceEpoch (y + 1) = daysSinceEpoch y + 365 + (if isLeap y then 1 else 0).
Proof.
  unfold daysSinceEpoch, isLeap. replace (y + 1 - 1) with y by lia.
  destruct (Z.eqb_spec (y mod 4) 0), (Z.eqb_spec (y mod 100) 0),
    (Z.eqb_spec (y mod 400) 0); cbn [andb orb negb];
    Z.div_mod_to_equations; lia.
Qed.

Lemma Date_in_range (y m d h mi s ns off : Z) :
  0 <= h < 24 -> 0 <= mi < 60 -> 0 <= s < 60 -> 0 <= ns < 1000000000 ->
  Date y m d h mi s ns off =
  mkTime ((monthStart y m + (d - 1)) * 86400 + (h * 3600 + mi * 60 + s) - off) ns.
Proof.
  intros Hh Hmi Hs Hns. unfold Date, monthStart, norm.
  rewrite (Z.div_small ns), (Z.mod_small ns), Z.add_0_r by lia.
  rewrite (Z.div_small s), (Z.mod_small s), Z.add_0_r by lia.
  rewrite (Z.div_small mi), (Z.mod_small mi), Z.add_0_r by lia.
  rewrite (Z.div_small h), (Z.mod_small h), Z.add_0_r by lia.
  by destruct (isLeap (y + (m - 1) / 12) && (3 <=? (m - 1) mod 12 + 1)).
Qed.

(** Closed calendar subterms are evaluated; the year stays symbolic. *)
Ltac calendar_eval :=
  repeat match goal with
  | |- context [daysBefore ?a] =>
      let v := eval vm_compute in (daysBefore a) in change (daysBefore a) with v
  | |- context [(3 <=? ?a)] =>
      let v := eval vm_compute in (3 <=? a) in change (3 <=? a) with v
  | |- context [Z.div ?a 12] =>
      let v := eval vm_compute in (Z.div a 12) in change (Z.div a 12) with v
  end.

(** Three calendar months span at least 89 days. *)
Lemma monthStart_gap (y m : Z) :
  1 <= m <= 12 -> monthStart y (m - 3) + 89 <= monthStart y m.
Proof.
  intros Hm.
  pose proof (daysSinceEpoch_succ (y - 1)) as Hprev.
  replace (y - 1 + 1) with y in Hprev by lia.
  assert (Hcases : m = 1 \/ m = 2 \/ m = 3 \/ m = 4 \/ m = 5 \/ m = 6 \/
                   m = 7 \/ m = 8 \/ m = 9 \/ m = 10 \/ m = 11 \/ m = 12) by lia.
  unfold monthStart, norm.
  destruct Hcases as [->|[->|[->|[->|[->|[->|[->|[->|[->|[->|[->| ->]]]]]]]]]]];
    calendar_eval;
    rewrite ?Z.add_0_r, ?andb_false_r, ?andb_true_r;
    change (y + -1) with (y - 1);
    destruct (isLeap y), (isLeap (y - 1)); lia.
Qed.

Lemma validReading_fields (r : Reading) :
  validReading r = true ->
  1 <= month r <= 12 /\ 1 <= day r <= daysIn (month r) (year r) /\
  0 <= hour r < 24 /\ 0 <= minute r < 60 /\ 0 <= second r < 60 /\
  0 <= nanosecond r < 1000000000.
Proof.
  unfold validReading. rewrite !andb_true_iff.
  rewrite !Z.leb_le, !Z.ltb_lt. tauto.
Qed.

Lemma instant_valid (r : Reading) :
  validReading r = true ->
  instant r =
  mkTime ((monthStart (year r) (month r) + (day r - 1)) * 86400
          + (hour r * 3600 + minute r * 60 + second r) - zoneOffset r)
         (nanosecond r).
Proof.
  intros (_ & _ & ? & ? & ? & ?)%validReading_fields.
  unfold instant. by apply Date_in_range.
Qed.

Lemma AddDate_valid (r : Reading) (months days : Z) :
  validReading r = true ->
  AddDate r 0 months days =
  mkTime ((monthStart (year r) (month r + months) + (day r + days - 1)) * 86400
          + (hour r * 3600 + minute r * 60 + second r) - zoneOffset r)
         (nanosecond r).
Proof.
  intros (_ & _ & ? & ? & ? & ?)%validReading_fields.
  unfold AddDate. rewrite Z.add_0_r. by apply Date_in_range.
Qed.

(** Five days back is exactly 432000 seconds back. *)
Lemma five_days_back (r : Reading) :
  validReading r = true ->
  unixSec (AddDate r 0 0 (-5)) = unixSec (instant r) - 432000.
Proof.
  intros Hv. rewrite AddDate_valid, instant_valid by done.
  cbn [unixSec]. rewrite Z.add_0_r. lia.
Qed.

(** Three months back lies at least 84 days before five days back. *)
Lemma three_months_before_five_days (r : Reading) :
  validReading r = true ->
  unixSec (AddDate r 0 (-3) 0) + 84 * 86400 <= unixSec (AddDate r 0 0 (-5)).
Proof.
  intros Hv. rewrite !AddDate_valid by done. cbn [unixSec].
  pose proof (validReading_fields r Hv) as (Hm & _).
  pose proof (monthStart_gap (year r) (month r) Hm) as Hgap.
  replace (month r + -3) with (month r - 3) by lia.
  rewrite !Z.add_0_r. lia.
Qed.

Lemma Before_sec (t u : Time) : Before t u = true -> unixSec t <= unixSec u.
Proof.
  unfold Before. rewrite orb_true_iff, andb_true_iff, Z.ltb_lt, Z.eqb_eq. lia.
Qed.

Lemma sec_Before (t u : Time) : unixSec t < unixSec u -> Before t u = true.
Proof.
  unfold Before. intros Hlt. apply orb_true_iff. left. by apply Z.ltb_lt.
Qed.

Lemma notAfter_sec (t u : Time) : notAfter t u = true -> unixSec t <= unixSec u.
Proof.
  unfold notAfter, Before. rewrite negb_true_iff, orb_false_iff, Z.ltb_ge. lia.
Qed.

(** An instant before three months back from the first reading of the
    clock is before five days back from any reading that is not earlier. *)
Lemma old_is_not_fresh (t : Time) (now1 now2 : Reading) :
  validReading now1 = true -> validReading now2 = true ->
  notAfter (instant now1) (instant now2) = true ->
  Before t (AddDate now1 0 (-3) 0) = true ->
  Before t (AddDate now2 0 0 (-5)) = true.
Proof.
  intros Hv1 Hv2 Hle%notAfter_sec Hold%Before_sec.
  apply sec_Before.
  pose proof (three_months_before_five_days now1 Hv1).
  pose proof (five_days_back now1 Hv1). pose proof (five_days_back now2 Hv2).
  lia.
Qed.

(** *** Reading a timestamp back *)

Lemma digitValue_digitChar (n : Z) : digitValue (digitChar n) = Some (n mod 10).
Proof.
  unfold digitChar. pose proof (Z.mod_pos_bound n 10 ltac:(lia)) as Hb.
  remember (n mod 10) as k eqn:Hk. clear Hk.
  assert (Hcases : k = 0 \/ k = 1 \/ k = 2 \/ k = 3 \/ k = 4 \/ k = 5 \/
                   k = 6 \/ k = 7 \/ k = 8 \/ k = 9) by lia.
  destruct Hcases as [->|[->|[->|[->|[->|[->|[->|[->|[->| ->]]]]]]]]];
    reflexivity.
Qed.

Lemma getnum_twoDigits (n : Z) (rest : string) (fixed : bool) :
  getnum (twoDigits n rest) fixed = Some ((n / 10) mod 10 * 10 + n mod 10, rest).
Proof.
  unfold getnum, twoDigits. by rewrite !digitValue_digitChar.
Qed.

Lemma getyear_twoDigits (y : Z) (rest : string) :
  getyear (twoDigits (y / 100) (twoDigits y rest)) =
  Some ((((y / 100 / 10) mod 10 * 10 + (y / 100) mod 10) * 10
         + (y / 10) mod 10) * 10 + y mod 10, rest).
Proof.
  unfold getyear, twoDigits. by rewrite !digitValue_digitChar.
Qed.

Lemma daysIn_le_31 (mo y : Z) : 1 <= mo <= 12 -> daysIn mo y <= 31.
Proof.
  intros Hmo.
  assert (Hcases : mo = 1 \/ mo = 2 \/ mo = 3 \/ mo = 4 \/ mo = 5 \/ mo = 6 \/
                   mo = 7 \/ mo = 8 \/ mo = 9 \/ mo = 10 \/ mo = 11 \/ mo = 12) by lia.
  unfold daysIn.
  destruct Hcases as [->|[->|[->|[->|[->|[->|[->|[->|[->|[->|[->| ->]]]]]]]]]]];
    destruct (isLeap y); by vm_compute.
Qed.

Lemma skip_same (c : ascii) (rest : string) : skip c (String c rest) = Some rest.
Proof. unfold skip. by rewrite Ascii.eqb_refl. Qed.

Lemma two_digits_value (n : Z) : 0 <= n < 100 -> (n / 10) mod 10 * 10 + n mod 10 = n.
Proof. intros Hn. Z.div_mod_to_equations. lia. Qed.

Lemma four_digits_value (y : Z) :
  0 <= y <= 9999 ->
  (((y / 100 / 10) mod 10 * 10 + (y / 100) mod 10) * 10 + (y / 10) mod 10) * 10
  + y mod 10 = y.
Proof. intros Hy. Z.div_mod_to_equations. lia. Qed.

Lemma Parse_formatUTC (y mo d h mi s : Z) :
  0 <= y <= 9999 -> 1 <= mo <= 12 -> 1 <= d <= daysIn mo y ->
  0 <= h < 24 -> 0 <= mi < 60 -> 0 <= s < 60 ->
  Parse (formatUTC y mo d h mi s) = Some (Date y mo d h mi s 0 0).
Proof.
  intros Hy Hmo Hd Hh Hmi Hs.
  unfold Parse, formatUTC.
  rewrite getyear_twoDigits. cbn [mbind option_bind].
  repeat (rewrite skip_same; cbn [mbind option_bind];
          rewrite getnum_twoDigits; cbn [mbind option_bind]).
  change (optionalFraction "Z") with (0, "Z"). lazy beta iota zeta.
  rewrite skip_same. cbn [mbind option_bind].
  change (negb (String.eqb "" "")) with false. lazy beta iota zeta.
  pose proof (daysIn_le_31 mo y Hmo).
  rewrite four_digits_value by done.
  rewrite !two_digits_value by lia.
  replace ((mo <=? 0) || (12 <? mo)) with false by (symmetry; apply orb_false_iff; lia).
  replace ((24 <=? h) || (60 <=? mi) || (60 <=? s)) with false
    by (symmetry; rewrite !orb_false_iff; lia).
  replace ((d <? 1) || (daysIn mo y <? d)) with false
    by (symmetry; apply orb_false_iff; lia).
  reflexivity.
Qed.

Lemma Parse_timestamp (r : Reading) :
  validReading r = true -> utcSeconds r = true ->
  Parse (timestamp r) = Some (instant r).
Proof.
  intros Hv Hutc. pose proof (validReading_fields r Hv) as (? & ? & ? & ? & ? & ?).
  unfold utcSeconds in Hutc.
  rewrite !andb_true_iff, !Z.eqb_eq, !Z.leb_le in Hutc.
  destruct Hutc as [[[Hns Hoff] ?] ?].
  unfold timestamp, instant. rewrite Parse_formatUTC by done.
  by rewrite Hns, Hoff.
Qed.

End Age.

(** *** The markers of the age highlight *)
Section AgeHighlight.
Import GoTime Issues.

Variables statusOldEmoji statusNewEmoji : string.
Hypothesis old_marker_visible : statusOldEmoji <> "".
Hypothesis new_marker_visible : statusNewEmoji <> "".
Hypothesis old_not_in_new : GoStrings.Contains statusNewEmoji statusOldEmoji = false.
Hypothesis new_not_in_old : GoStrings.Contains statusOldEmoji statusNewEmoji = false.

Lemma ageHighlight_old (now1 now2 : Reading) (createdAt : string) :
  GoStrings.Contains (ageHighlight statusOldEmoji statusNewEmoji now1 now2 createdAt)
                     statusOldEmoji
  = checkTimeBefore createdAt (AddDate now1 0 (-3) 0).
Proof.
  unfold ageHighlight.
  destruct (checkTimeBefore createdAt (AddDate now1 0 (-3) 0)),
    (checkTimeBefore createdAt (AddDate now2 0 0 (-5))); cbn [negb].
  - apply Contains_refl.
  - apply Contains_app_l.
  - by apply Contains_empty_l.
  - exact old_not_in_new.
Qed.

Lemma ageHighlight_new (now1 now2 : Reading) (createdAt : string) :
  GoStrings.Contains (ageHighlight statusOldEmoji statusNewEmoji now1 now2 createdAt)
                     statusNewEmoji
  = negb (checkTimeBefore createdAt (AddDate now2 0 0 (-5))).
Proof.
  unfold ageHighlight.
  destruct (checkTimeBefore createdAt (AddDate now1 0 (-3) 0)),
    (checkTimeBefore createdAt (AddDate now2 0 0 (-5))); cbn [negb].
  - exact new_not_in_old.
  - apply Contains_app_r.
  - by apply Contains_empty_l.
  - apply Contains_refl.
Qed.

(** The two markers exclude each other, for every creation string. *)
Lemma markers_exclusive (now1 now2 : Reading) (createdAt : string) :
  validReading now1 = true -> validReading now2 = true ->
  notAfter (instant now1) (instant now2) = true ->
  ~ (GoStrings.Contains
       (ageHighlight statusOldEmoji statusNewEmoji now1 now2 createdAt)
       statusOldEmoji = true /\
     GoStrings.Contains
       (ageHighlight statusOldEmoji statusNewEmoji now1 now2 createdAt)
       statusNewEmoji = true).
Proof.
  intros Hv1 Hv2 Hle. rewrite ageHighlight_old, ageHighlight_new.
  intros [Hold Hfresh]. unfold checkTimeBefore in *.
  rewrite (old_is_not_fresh _ now1 now2) in Hfresh by done. done.
Qed.

(** C8, as the code has it.  For an issue created at a valid UTC time and
    carrying the timestamp of that time, and a clock read twice without
    running backwards: the highlight contains the marker of an old issue
    if and only if the creation lies before the instant three calendar
    months before the first reading; it contains the marker of a fresh
    issue if and only if the creation does not lie before the instant five
    days before the second reading; and the two markers never appear
    together. *)
Theorem age_highlight_markers (created now1 now2 : Reading) :
  validReading created = true -> utcSeconds created = true ->
  validReading now1 = true -> validReading now2 = true ->
  notAfter (instant now1) (instant now2) = true ->
  let highlight :=
    ageHighlight statusOldEmoji statusNewEmoji now1 now2 (timestamp created) in
  (GoStrings.Contains highlight statusOldEmoji = true <->
     Before (instant created) (AddDate now1 0 (-3) 0) = true) /\
  (GoStrings.Contains highlight statusNewEmoji = true <->
     Before (instant created) (AddDate now2 0 0 (-5)) = false) /\
  ~ (GoStrings.Contains highlight statusOldEmoji = true /\
     GoStrings.Contains highlight statusNewEmoji = true).
Proof.
  intros Hc Hutc Hv1 Hv2 Hle highlight. subst highlight.
  split; [|split].
  - rewrite ageHighlight_old. unfold checkTimeBefore.
    by rewrite Parse_timestamp.
  - rewrite ageHighlight_new. unfold checkTimeBefore.
    rewrite Parse_timestamp by done. cbn [default]. by rewrite negb_true_iff.
  - by apply markers_exclusive.
Qed.

End AgeHighlight.

(** C8, the claim as the specification has it, with the markers [[old]] and
    [[new]]: no creation string and no clock make both markers appear. *)
Lemma markers_never_combine : ~ Spec.bothMarkers "[old]" "[new]".
Proof.
  intros (createdAt & now1 & now2 & Hv1 & Hv2 & Hle & Hold & Hnew).
  by apply (markers_exclusive "[old]" "[new]" ltac:(done) ltac:(done) eq_refl eq_refl
              now1 now2 createdAt Hv1 Hv2 Hle).
Qed.

(** An issue created on 15 January 2021, seen on 1 September 2021: old,
    not fresh. *)
Lemma age_highlight_markers_witness :
  let highlight :=
    Issues.ageHighlight "[old]" "[new]"
      (GoTime.mkReading 2021 9 1 12 0 0 0 0) (GoTime.mkReading 2021 9 1 12 0 0 5 0)
      "2021-01-15T10:00:00Z" in
  highlight = "[old]" /\
  (GoStrings.Contains highlight "[old]" = true <->
     GoTime.Before (GoTime.instant (GoTime.mkReading 2021 1 15 10 0 0 0 0))
       (GoTime.AddDate (GoTime.mkReading 2021 9 1 12 0 0 0 0) 0 (-3) 0) = true) /\
  (GoStrings.Contains highlight "[new]" = true <->
     GoTime.Before (GoTime.instant (GoTime.mkReading 2021 1 15 10 0 0 0 0))
       (GoTime.AddDate (GoTime.mkReading 2021 9 1 12 0 0 5 0) 0 0 (-5)) = false) /\
  ~ (GoStrings.Contains highlight "[old]" = true /\
     GoStrings.Contains highlight "[new]" = true).
Proof.
  split; [reflexivity|].
  apply (age_highlight_markers "[old]" "[new]" ltac:(discriminate) ltac:(discriminate)
           eq_refl eq_refl
           (GoTime.mkReading 2021 1 15 10 0 0 0 0)
           (GoTime.mkReading 2021 9 1 12 0 0 0 0)
           (GoTime.mkReading 2021 9 1 12 0 0 5 0));
    reflexivity.
Defined.

(** ** Column resolution: [findCardsID] *)
Section Columns.
Import Cards.

#[local] Instance notAfter_total : Total notAfter.
Proof. intros a b. unfold notAfter. lia. Qed.

#[local] Instance notAfter_trans : Transitive notAfter.
Proof. intros a b c. unfold notAfter. lia. Qed.

Lemma nameIs_spec (keyword : string) (v : ProjectColumn) :
  nameIs keyword v = true <-> ColumnName v = Some keyword.
Proof.
  unfold nameIs. destruct (ColumnName v) as [name|]; [|done].
  rewrite String.eqb_eq. split; congruence.
Qed.

(** The first element of any sorted arrangement of the matching columns
    carries the least identifier among them: what [findCardsID] returns
    does not depend on how [sort.Slice] orders equal identifiers. *)
Lemma sorted_head_least (resolved sorted : list ProjectColumn) (first : ProjectColumn)
    (rest : list ProjectColumn) :
  sorted ≡ₚ resolved -> StronglySorted notAfter sorted -> sorted = first :: rest ->
  first ∈ resolved /\ forall c, c ∈ resolved -> GetID first <= GetID c.
Proof.
  intros Hperm Hsorted ->. split.
  - rewrite <- Hperm. left.
  - intros c Hc. rewrite <- Hperm in Hc.
    apply StronglySorted_inv in Hsorted as [_ Hall].
    apply elem_of_cons in Hc as [->|Hc]; [lia|].
    rewrite Forall_forall in Hall. by apply Hall.
Qed.

(** When a column of the name exists, [findCardsID] returns, without
    error, the least identifier among the columns of exactly that name. *)
Lemma findCardsID_lowest_match (cards : list ProjectColumn) (keyword : string)
    (c : ProjectColumn) :
  c ∈ cards -> ColumnName c = Some keyword ->
  exists first,
    findCardsID cards None keyword = Returned (GetID first, None) /\
    first ∈ cards /\ ColumnName first = Some keyword /\
    forall c', c' ∈ cards -> ColumnName c' = Some keyword -> GetID first <= GetID c'.
Proof.
  intros Hin Hname. unfold findCardsID.
  pose proof (merge_sort_Permutation notAfter (List.filter (nameIs keyword) cards))
    as Hperm.
  pose proof (StronglySorted_merge_sort notAfter (List.filter (nameIs keyword) cards))
    as Hsorted.
  assert (Hc : c ∈ List.filter (nameIs keyword) cards).
  { apply list_elem_of_In, filter_In. split; [by apply list_elem_of_In|].
    by apply nameIs_spec. }
  destruct (merge_sort notAfter (List.filter (nameIs keyword) cards))
    as [|first rest] eqn:Hsort.
  - rewrite <- Hperm in Hc. inversion Hc.
  - destruct (sorted_head_least _ _ first rest Hperm Hsorted eq_refl) as [Hfirst Hleast].
    apply list_elem_of_In, filter_In in Hfirst as [Hfirst Hmatch].
    exists first. split; [done|]. split; [by apply list_elem_of_In|].
    split; [by apply nameIs_spec|].
    intros c' Hc' Hname'. apply Hleast.
    apply list_elem_of_In, filter_In. split; [by apply list_elem_of_In|].
    by apply nameIs_spec.
Qed.

(** Without a column of the name, the slice indexed at 0 is empty. *)
Lemma findCardsID_no_match (cards : list ProjectColumn) (keyword : string) :
  (forall c, c ∈ cards -> ColumnName c <> Some keyword) ->
  findCardsID cards None keyword = Panicked "index out of range [0] with length 0".
Proof.
  intros Hnone. unfold findCardsID.
  assert (Hnil : List.filter (nameIs keyword) cards = []).
  { induction cards as [|c cards IH]; [done|]. simpl.
    destruct (nameIs keyword c) eqn:Hc.
    - apply nameIs_spec in Hc. exfalso. apply (Hnone c); [left|done].
    - apply IH. intros c' Hc'. apply Hnone. by right. }
  by rewrite Hnil.
Qed.

(** C4. On a board without a column named [Resolved], [findCardsID] does
    not return an error: it panics on the empty slice.  On the board of
    the specification's example it resolves to the lowest identifier. *)
Theorem findCardsID_missing_column_panics :
  findCardsID [mkColumn (Some 4212817) (Some "New/Not Yet Started");
               mkColumn (Some 4212819) (Some "In flight");
               mkColumn (Some 4212821) (Some "Observing")] None "Resolved"
    = Panicked "index out of range [0] with length 0" /\
  findCardsID [] None "Resolved" = Panicked "index out of range [0] with length 0" /\
  findCardsID [mkColumn (Some 5) (Some "Resolved"); mkColumn (Some 2) (Some "Resolved")]
              None "Resolved" = Returned (2, None).
Proof. repeat split; reflexivity. Qed.

End Columns.

(** ** SIG classification on the card path *)
Section SigClassification.
Import Cards.

(** The loop stops at the first label whose name contains [sig/]; the
    labels after it are not read. *)
Lemma sigOfLabels_first_match (before after : list Label) (name sig : string) :
  (forall v, v ∈ before ->
     exists n, Name v = Some n /\ GoStrings.Contains n "sig/" = false) ->
  GoStrings.Contains name "sig/" = true ->
  sigOfLabels (before ++ mkLabel (Some name) :: after) sig
    = Returned (normaliseSig name).
Proof.
  intros Hbefore Hname. induction before as [|v before IH]; simpl.
  - by rewrite Hname.
  - destruct (Hbefore v) as (n & -> & ->); [left|].
    apply IH. intros v' Hv'. apply Hbefore. by right.
Qed.

(** Without a label that contains [sig/] the field keeps its value. *)
Lemma sigOfLabels_no_match (labels : list Label) (sig : string) :
  (forall v, v ∈ labels ->
     exists n, Name v = Some n /\ GoStrings.Contains n "sig/" = false) ->
  sigOfLabels labels sig = Returned sig.
Proof.
  intros Hall. induction labels as [|v labels IH]; simpl; [done|].
  destruct (Hall v) as (n & -> & ->); [left|].
  apply IH. intros v' Hv'. apply Hall. by right.
Qed.

Lemma fold_excludes_sig (n t : string) :
  GoStrings.EqualFold n t = true ->
  GoStrings.Contains (GoStrings.ToLower t) "sig/" = false ->
  GoStrings.Contains n "sig/" = false.
Proof.
  intros Hfold Ht. destruct (GoStrings.Contains n "sig/") eqn:Hn; [|done].
  apply Contains_ToLower in Hn. apply EqualFold_ToLower in Hfold.
  rewrite Hfold in Hn. change (GoStrings.ToLower "sig/") with "sig/" in Hn.
  congruence.
Qed.

Lemma normaliseSig_cli (n : string) :
  GoStrings.EqualFold n "cli" = true -> normaliseSig ("sig/" +:+ n) = "CLI".
Proof.
  intros Hfold. unfold normaliseSig.
  rewrite Replace_sig_prefix by (by apply (fold_excludes_sig n "cli")).
  rewrite EqualFold_Title, Hfold.
  unfold GoStrings.Title. rewrite ToUpper_titleFrom.
  rewrite <- ToUpper_ToLower, (EqualFold_ToLower _ _ Hfold). reflexivity.
Qed.

Lemma normaliseSig_cluster_lifecycle (n : string) :
  GoStrings.EqualFold n "cluster-lifecycle" = true ->
  normaliseSig ("sig/" +:+ n) = "cluster-lifecycle".
Proof.
  intros Hfold. unfold normaliseSig.
  rewrite Replace_sig_prefix by (by apply (fold_excludes_sig n "cluster-lifecycle")).
  assert (Hcli : GoStrings.EqualFold n "cli" = false).
  { destruct (GoStrings.EqualFold n "cli") eqn:Hcli; [|done].
    apply EqualFold_ToLower in Hcli, Hfold. rewrite Hfold in Hcli. discriminate. }
  rewrite EqualFold_Title, Hcli, EqualFold_Title, Hfold.
  unfold GoStrings.Title. rewrite ToLower_titleFrom.
  by rewrite (EqualFold_ToLower _ _ Hfold).
Qed.

Lemma normaliseSig_other (n : string) :
  GoStrings.Contains n "sig/" = false ->
  GoStrings.EqualFold n "cli" = false ->
  GoStrings.EqualFold n "cluster-lifecycle" = false ->
  normaliseSig ("sig/" +:+ n) = GoStrings.Title n.
Proof.
  intros Hn Hcli Hcl. unfold normaliseSig.
  rewrite Replace_sig_prefix by done.
  by rewrite EqualFold_Title, Hcli, EqualFold_Title, Hcl.
Qed.

(** C6. On the card path the SIG is taken from the first label that
    matches [sig/<name>], and from no later one; the name [cli], in any
    letter case, becomes [CLI]; the name [cluster-lifecycle], in any letter
    case, becomes [cluster-lifecycle]; every other ASCII name is put in
    title case, [sig/node] giving [Node]. *)
Theorem card_sig_normalisation :
  (forall (before after : list Label) (name sig : string),
     (forall v, v ∈ before ->
        exists n, Name v = Some n /\ GoStrings.Contains n "sig/" = false) ->
     GoStrings.Contains name "sig/" = true ->
     sigOfLabels (before ++ mkLabel (Some name) :: after) sig
       = Returned (normaliseSig name)) /\
  (forall n, GoStrings.EqualFold n "cli" = true ->
     normaliseSig ("sig/" +:+ n) = "CLI") /\
  (forall n, GoStrings.EqualFold n "cluster-lifecycle" = true ->
     normaliseSig ("sig/" +:+ n) = "cluster-lifecycle") /\
  (forall n, GoStrings.isASCII n = true ->
     GoStrings.Contains n "sig/" = false ->
     GoStrings.EqualFold n "cli" = false ->
     GoStrings.EqualFold n "cluster-lifecycle" = false ->
     normaliseSig ("sig/" +:+ n) = GoStrings.Title n) /\
  sigOfLabels [mkLabel (Some "sig/cli")] "" = Returned "CLI" /\
  sigOfLabels [mkLabel (Some "sig/cluster-lifecycle")] "" = Returned "cluster-lifecycle" /\
  sigOfLabels [mkLabel (Some "sig/node")] "" = Returned "Node" /\
  sigOfLabels [mkLabel (Some "kind/failing-test"); mkLabel (Some "sig/api-machinery");
               mkLabel (Some "sig/cli")] "" = Returned "Api-Machinery".
Proof.
  split; [exact sigOfLabels_first_match|].
  split; [exact normaliseSig_cli|].
  split; [exact normaliseSig_cluster_lifecycle|].
  split; [intros n _; apply normaliseSig_other|].
  repeat split; reflexivity.
Qed.

End SigClassification.

(** The label [sig/api-machinery] after a label of another kind and before
    [sig/cli]: the first match decides. *)
Lemma card_sig_normalisation_witness :
  Cards.sigOfLabels
    ([Cards.mkLabel (Some "kind/failing-test")]
       ++ Cards.mkLabel (Some "sig/api-machinery") :: [Cards.mkLabel (Some "sig/cli")]) ""
  = Returned (Cards.normaliseSig "sig/api-machinery") /\
  Cards.normaliseSig "sig/api-machinery" = "Api-Machinery".
Proof.
  split; [|reflexivity].
  apply (proj1 card_sig_normalisation [Cards.mkLabel (Some "kind/failing-test")]
           [Cards.mkLabel (Some "sig/cli")] "sig/api-machinery" "").
  - intros v Hv. apply list_elem_of_singleton in Hv. subst v.
    exists "kind/failing-test". split; reflexivity.
  - reflexivity.
Defined.

(** ** Card resolution: [assembleCardRequests] *)
Section CardResolution.
Import Cards.

Lemma sigOfLabels_returns (labels : list Label) (sig : string) :
  Spec.namelessLabelRead labels = false ->
  exists sig', sigOfLabels labels sig = Returned sig'.
Proof.
  induction labels as [|v labels IH]; simpl; [eauto|].
  destruct (Name v) as [name|]; [|done].
  destruct (GoStrings.Contains name "sig/"); eauto.
Qed.

Lemma sigOfLabels_panics (labels : list Label) (sig : string) :
  Spec.namelessLabelRead labels = true ->
  exists msg, sigOfLabels labels sig = Panicked msg.
Proof.
  induction labels as [|v labels IH]; simpl; [done|].
  destruct (Name v) as [name|]; [|eauto].
  destruct (GoStrings.Contains name "sig/"); [done|eauto].
Qed.

(** The worker of a card with a content URL: one fetch and one record,
    unless the fetch brings the process down. *)
Lemma cardWorker_content (service : Service) (token url : string) :
  if Spec.fetchCrashes service token url
  then exists msg, cardWorker service token (mkCard (Some url)) = Panicked msg
  else exists record,
         cardWorker service token (mkCard (Some url))
           = Returned (mkResolved [url] [record]).
Proof.
  unfold Spec.fetchCrashes, cardWorker, requestGhIssueDetail. cbn [ContentURL].
  destruct (service url token) as [e|e|e|e|e|result]; cbn; eauto.
  destruct (Spec.namelessLabelRead (Labels result)) eqn:Hnil.
  - destruct (sigOfLabels_panics (Labels result) "" Hnil) as [msg ->]. eauto.
  - destruct (sigOfLabels_returns (Labels result) "" Hnil) as [sig' ->]. eauto.
Qed.

Lemma cardWorker_no_content (service : Service) (token : string) :
  cardWorker service token (mkCard None) = Returned (mkResolved [] []).
Proof. reflexivity. Qed.

Lemma assembleCardRequests_cons_content (service : Service) (token url : string)
    (cards : list ProjectCard) (record : ghIssueOverview) :
  cardWorker service token (mkCard (Some url)) = Returned (mkResolved [url] [record]) ->
  assembleCardRequests service token (mkCard (Some url) :: cards) =
  match assembleCardRequests service token cards with
  | Returned r => Returned (mkResolved (url :: fetched r) (record :: sent r))
  | Fatal msg => Fatal msg
  | Panicked msg => Panicked msg
  end.
Proof. intros Hw. cbn [assembleCardRequests]. by rewrite Hw. Qed.

Lemma assembleCardRequests_cons_none (service : Service) (token : string)
    (cards : list ProjectCard) :
  assembleCardRequests service token (mkCard None :: cards)
  = assembleCardRequests service token cards.
Proof.
  cbn [assembleCardRequests]. rewrite cardWorker_no_content.
  by destruct (assembleCardRequests service token cards) as [[]| |].
Qed.

Lemma assembleCardRequests_skip (service : Service) (token : string)
    (before after : list ProjectCard) (card : ProjectCard) :
  ContentURL card = None ->
  assembleCardRequests service token (before ++ card :: after)
  = assembleCardRequests service token (before ++ after).
Proof.
  intros Hnil. destruct card as [url]. cbn in Hnil. subst url.
  induction before as [|c before IH].
  - apply assembleCardRequests_cons_none.
  - cbn [app assembleCardRequests]. by rewrite IH.
Qed.

Lemma assembleCardRequests_complete (service : Service) (token : string)
    (cards : list ProjectCard) :
  (forall url, url ∈ Spec.contentURLs cards ->
     Spec.fetchCrashes service token url = false) ->
  exists r,
    assembleCardRequests service token cards = Returned r /\
    fetched r = Spec.contentURLs cards /\
    Forall2 (fun url record =>
               cardWorker service token (mkCard (Some url))
                 = Returned (mkResolved [url] [record]))
            (Spec.contentURLs cards) (sent r).
Proof.
  induction cards as [|[[url|]] cards IH]; intros Hok.
  - exists (mkResolved [] []). repeat split. constructor.
  - destruct IH as (r & Hr & Hf & Hs).
    { intros u Hu. apply Hok. unfold Spec.contentURLs. cbn. by right. }
    pose proof (cardWorker_content service token url) as Hw.
    rewrite (Hok url) in Hw by (unfold Spec.contentURLs; cbn; left).
    destruct Hw as [record Hw].
    exists (mkResolved (url :: fetched r) (record :: sent r)).
    rewrite (assembleCardRequests_cons_content _ _ _ _ _ Hw), Hr.
    split; [done|]. cbn [fetched sent]. split.
    + unfold Spec.contentURLs in *. cbn. by rewrite Hf.
    + unfold Spec.contentURLs in *. cbn. by constructor.
  - rewrite assembleCardRequests_cons_none. apply IH.
    intros u Hu. by apply Hok.
Qed.

Lemma assembleCardRequests_crash (service : Service) (token : string)
    (cards : list ProjectCard) (url : string) :
  url ∈ Spec.contentURLs cards -> Spec.fetchCrashes service token url = true ->
  exists msg, assembleCardRequests service token cards = Panicked msg.
Proof.
  induction cards as [|[[u|]] cards IH]; intros Hin Hcrash.
  - inversion Hin.
  - pose proof (cardWorker_content service token u) as Hw.
    destruct (Spec.fetchCrashes service token u) eqn:Hu.
    + destruct Hw as [msg Hw]. exists msg. cbn [assembleCardRequests].
      by rewrite Hw.
    + destruct Hw as [record Hw].
      rewrite (assembleCardRequests_cons_content _ _ _ _ _ Hw).
      destruct IH as [msg ->]; [|done|eauto].
      unfold Spec.contentURLs in Hin. cbn in Hin.
      apply elem_of_cons in Hin as [->|Hin]; [congruence|done].
  - rewrite assembleCardRequests_cons_none. by apply IH.
Qed.

(** What holds of the cards in every run, and what holds only of the runs
    in which no fetch brings the process down.  A card without content
    reference contributes nothing: the run with the card is the run
    without it, in requests and in records.  The cards with a content
    reference are fetched once each and yield one record each when no
    fetch brings the process down; a fetch that does so ends the run with
    a panic, so that no report is produced at all. *)
Theorem cards_without_content_contribute_nothing :
  (forall (service : Service) (token : string) (before after : list ProjectCard)
          (card : ProjectCard),
     ContentURL card = None ->
     cardWorker service token card = Returned (mkResolved [] []) /\
     assembleCardRequests service token (before ++ card :: after)
       = assembleCardRequests service token (before ++ after)) /\
  (forall (service : Service) (token : string) (cards : list ProjectCard),
     (forall url, url ∈ Spec.contentURLs cards ->
        Spec.fetchCrashes service token url = false) ->
     exists r,
       assembleCardRequests service token cards = Returned r /\
       fetched r = Spec.contentURLs cards /\
       length (sent r) = length (Spec.contentURLs cards) /\
       Forall2 (fun url record =>
                  cardWorker service token (mkCard (Some url))
                    = Returned (mkResolved [url] [record]))
               (Spec.contentURLs cards) (sent r)) /\
  (forall (service : Service) (token : string) (cards : list ProjectCard) (url : string),
     url ∈ Spec.contentURLs cards -> Spec.fetchCrashes service token url = true ->
     exists msg, assembleCardRequests service token cards = Panicked msg).
Proof.
  split; [|split].
  - intros service token before after card Hnil. split.
    + destruct card as [url]. cbn in Hnil. by subst url.
    + by apply assembleCardRequests_skip.
  - intros service token cards Hok.
    destruct (assembleCardRequests_complete service token cards Hok)
      as (r & Hr & Hf & Hs).
    exists r. repeat split; [done..| |done].
    symmetry. by apply (Forall2_length _ _ _ Hs).
  - exact assembleCardRequests_crash.
Qed.

(** C10. The half of the claim about the cards with a content reference
    fails when the request for one of them gets no response: [client.Do]
    returns an error and a nil response, [requestGhIssueDetail] logs the
    error without returning and goes on to [resp.Body], which is a
    run-time panic.  The card yields no record, and as the panic ends the
    process no other card of the column does either, whatever the other
    requests come to.  With a server that cannot be reached, two cards
    with a content reference yield no record instead of two.  The other
    half holds in every run: for a card without content reference no
    request is issued and no record is sent. *)
Theorem unanswered_request_yields_no_record :
  (forall (service : Service) (token url err : string),
     service url token = SendFailed err ->
     requestGhIssueDetail service url token
       = Panicked "invalid memory address or nil pointer dereference" /\
     cardWorker service token (mkCard (Some url))
       = Panicked "invalid memory address or nil pointer dereference") /\
  (forall (service : Service) (token : string) (cards : list ProjectCard)
          (url err : string),
     url ∈ Spec.contentURLs cards -> service url token = SendFailed err ->
     exists msg, assembleCardRequests service token cards = Panicked msg) /\
  Spec.contentURLs
    [mkCard (Some "https://api.github.com/repos/kubernetes/kubernetes/issues/101");
     mkCard None;
     mkCard (Some "https://api.github.com/repos/kubernetes/kubernetes/issues/102")]
    = ["https://api.github.com/repos/kubernetes/kubernetes/issues/101";
       "https://api.github.com/repos/kubernetes/kubernetes/issues/102"] /\
  assembleCardRequests (fun _ _ => SendFailed "dial tcp: connection refused") "token"
    [mkCard (Some "https://api.github.com/repos/kubernetes/kubernetes/issues/101");
     mkCard None;
     mkCard (Some "https://api.github.com/repos/kubernetes/kubernetes/issues/102")]
    = Panicked "invalid memory address or nil pointer dereference" /\
  (forall (service : Service) (token : string) (before after : list ProjectCard)
          (card : ProjectCard),
     ContentURL card = None ->
     cardWorker service token card = Returned (mkResolved [] []) /\
     assembleCardRequests service token (before ++ card :: after)
       = assembleCardRequests service token (before ++ after)).
Proof.
  split; [|split; [|split; [|split]]].
  - intros service token url err Hsend.
    unfold cardWorker, requestGhIssueDetail. cbn [ContentURL]. by rewrite Hsend.
  - intros service token cards url err Hin Hsend.
    apply (assembleCardRequests_crash service token cards url Hin).
    unfold Spec.fetchCrashes. by rewrite Hsend.
  - reflexivity.
  - reflexivity.
  - intros service token before after card Hnil. split.
    + destruct card as [url]. cbn in Hnil. by subst url.
    + by apply assembleCardRequests_skip.
Qed.

End CardResolution.

(** Three cards, the second without content reference, the third with a
    content URL whose body does not decode: two fetches, two records. *)
Lemma cards_without_content_contribute_nothing_witness :
  exists r,
    Cards.assembleCardRequests Cards.exampleService "token" Cards.exampleCards
      = Returned r /\
    Cards.fetched r = Spec.contentURLs Cards.exampleCards /\
    length (Cards.sent r) = 2%nat.
Proof.
  destruct (proj1 (proj2 cards_without_content_contribute_nothing)
              Cards.exampleService "token" Cards.exampleCards)
    as (r & Hrun & Hfetched & Hlen & _).
  - intros url Hin. apply list_elem_of_In in Hin.
    destruct Hin as [<-|[<-|[]]]; reflexivity.
  - exists r. split; [exact Hrun|]. split; [exact Hfetched|exact Hlen].
Defined.

(** ** The dashboard summary: [getSummary] *)
Section Summary.
Import Testgrid.

(** What the counting loop has added to each key when it is through. *)
Lemma tally_fold (values : list TestgridValue) (statuses : gmap string Z) :
  let final := fold_left tally values statuses in
  default 0 (final !! Total) = default 0 (statuses !! Total) /\
  default 0 (final !! Passing) =
    default 0 (statuses !! Passing)
    + Z.of_nat (length (List.filter Spec.isPassing values)) /\
  default 0 (final !! Failing) =
    default 0 (statuses !! Failing)
    + Z.of_nat (length (List.filter Spec.isFailing values)) /\
  default 0 (final !! Flaky) =
    default 0 (statuses !! Flaky)
    + Z.of_nat (length (List.filter Spec.isFlaky values)) /\
  default 0 (final !! Stale) =
    default 0 (statuses !! Stale)
    + Z.of_nat (length (List.filter Spec.isStale values)).
Proof.
  revert statuses. induction values as [|v values IH]; intros statuses.
  - cbn. lia.
  - cbn [fold_left List.filter]. specialize (IH (tally statuses v)).
    cbn zeta in IH |- *. destruct IH as (HT & HP & HFa & HFl & HS).
    rewrite HT, HP, HFa, HFl, HS. clear HT HP HFa HFl HS.
    unfold tally, Spec.isStale, Spec.isPassing, Spec.isFailing, Spec.isFlaky, increment.
    destruct (String.eqb (JobOverallStatus v) Passing) eqn:Ep,
      (String.eqb (JobOverallStatus v) Failing) eqn:Ef,
      (String.eqb (JobOverallStatus v) Flaky) eqn:Ek;
      try (apply String.eqb_eq in Ep); try (apply String.eqb_eq in Ef);
      try (apply String.eqb_eq in Ek);
      try (exfalso; unfold Passing, Failing, Flaky in *; congruence);
      cbn [negb andb length];
      rewrite ?lookup_insert_eq; rewrite ?lookup_insert_ne by done;
      rewrite ?lookup_insert_eq; cbn [default]; unfold id; lia.
Qed.

(** The notes of the summary record, line by line. *)
Lemma getSummary_notes (jobs : TestgridData) :
  Notes (getSummary jobs) =
  [pretty (Z.of_nat (size jobs)) +:+ " jobs total";
   pretty (Spec.bucket Spec.isPassing jobs) +:+ " jobs passing";
   pretty (Spec.bucket Spec.isFlaky jobs) +:+ " jobs flaky";
   pretty (Spec.bucket Spec.isFailing jobs) +:+ " jobs failing"]
  ++ (if Spec.bucket Spec.isStale jobs =? 0 then []
      else [pretty (Spec.bucket Spec.isStale jobs) +:+ " jobs stale"]).
Proof.
  unfold getSummary, Spec.bucket.
  set (init := <[Total := Z.of_nat (size jobs)]> _).
  destruct (tally_fold (map_to_list jobs).*2 init) as (HT & HP & HFa & HFl & HS).
  assert (HiT : default 0 (init !! Total) = Z.of_nat (size jobs))
    by (subst init; by rewrite lookup_insert_eq).
  assert (HiP : default 0 (init !! Passing) = 0)
    by (subst init; by rewrite lookup_insert_ne, lookup_insert_eq).
  assert (HiFa : default 0 (init !! Failing) = 0)
    by (subst init; rewrite !lookup_insert_ne by done; by rewrite lookup_insert_eq).
  assert (HiFl : default 0 (init !! Flaky) = 0)
    by (subst init; rewrite !lookup_insert_ne by done; by rewrite lookup_insert_eq).
  assert (HiS : default 0 (init !! Stale) = 0)
    by (subst init; rewrite !lookup_insert_ne by done; by rewrite lookup_insert_eq).
  rewrite HiT in HT. rewrite HiP in HP. rewrite HiFa in HFa.
  rewrite HiFl in HFl. rewrite HiS in HS.
  cbn [Notes]. unfold countLine. rewrite HT, HP, HFa, HFl, HS, !Z.add_0_l.
  by destruct (Z.of_nat (length (List.filter Spec.isStale (map_to_list jobs).*2)) =? 0).
Qed.

(** Every job falls in exactly one bucket. *)
Lemma buckets_partition (jobs : TestgridData) :
  Z.of_nat (size jobs) =
  Spec.bucket Spec.isPassing jobs + Spec.bucket Spec.isFlaky jobs
  + Spec.bucket Spec.isFailing jobs + Spec.bucket Spec.isStale jobs.
Proof.
  unfold Spec.bucket. rewrite <- (length_map_to_list jobs).
  rewrite <- (length_fmap snd (map_to_list jobs)).
  induction ((map_to_list jobs).*2) as [|v values IH]; [done|].
  cbn [length List.filter].
  unfold Spec.isStale, Spec.isPassing, Spec.isFailing, Spec.isFlaky in *.
  destruct (String.eqb (JobOverallStatus v) Passing) eqn:Ep,
    (String.eqb (JobOverallStatus v) Failing) eqn:Ef,
    (String.eqb (JobOverallStatus v) Flaky) eqn:Ek;
    try (apply String.eqb_eq in Ep); try (apply String.eqb_eq in Ef);
    try (apply String.eqb_eq in Ek);
    try (exfalso; unfold Passing, Failing, Flaky in *; congruence);
    cbn [negb andb length]; lia.
Qed.

(** C9. The notes of the summary record begin with exactly four count
    lines, in the order total, passing, flaky, failing; a fifth line, the
    count of stale jobs, follows if and only if that count is not zero. *)
Theorem summary_notes_lines (jobs : TestgridData) :
  take 4 (Notes (getSummary jobs)) =
    [pretty (Z.of_nat (size jobs)) +:+ " jobs total";
     pretty (Spec.bucket Spec.isPassing jobs) +:+ " jobs passing";
     pretty (Spec.bucket Spec.isFlaky jobs) +:+ " jobs flaky";
     pretty (Spec.bucket Spec.isFailing jobs) +:+ " jobs failing"] /\
  (Spec.bucket Spec.isStale jobs <> 0 <->
     drop 4 (Notes (getSummary jobs))
       = [pretty (Spec.bucket Spec.isStale jobs) +:+ " jobs stale"]) /\
  (Spec.bucket Spec.isStale jobs = 0 <-> drop 4 (Notes (getSummary jobs)) = []) /\
  (Spec.bucket Spec.isStale jobs = 0 <-> length (Notes (getSummary jobs)) = 4%nat) /\
  (Spec.bucket Spec.isStale jobs <> 0 <-> length (Notes (getSummary jobs)) = 5%nat).
Proof.
  rewrite getSummary_notes.
  destruct (Z.eqb_spec (Spec.bucket Spec.isStale jobs) 0) as [Hz|Hnz];
    cbn [app take drop length]; repeat split; try done; try lia.
Qed.

End Summary.

(** The dashboard of the end-to-end example has no stale job: four lines. *)
Lemma summary_notes_lines_witness :
  length (Testgrid.Notes (Testgrid.getSummary Testgrid.exampleDashboard)) = 4%nat.
Proof.
  apply (proj1 (proj1 (proj2 (proj2 (proj2
           (summary_notes_lines Testgrid.exampleDashboard)))))).
  by vm_compute.
Defined.

(** ** The records of a dashboard: [assembleTestgridRequests] *)
Section Dashboard.
Import Testgrid.

Variables statusFailingEmoji statusFlakyEmoji statusNewTestEmoji : string.

#[local] Abbreviation details :=
  (Spec.detailOf statusFailingEmoji statusFlakyEmoji statusNewTestEmoji).

Lemma getDetails_ID (jobName : string) (jobData : TestgridValue)
    (jobBaseUrl : string) (emojisOff : bool) :
  ID (getDetails statusFailingEmoji statusFlakyEmoji statusNewTestEmoji
                 jobName jobData jobBaseUrl emojisOff) = testgridReportDetails /\
  Title (getDetails statusFailingEmoji statusFlakyEmoji statusNewTestEmoji
                    jobName jobData jobBaseUrl emojisOff) = jobName /\
  Status (getDetails statusFailingEmoji statusFlakyEmoji statusNewTestEmoji
                     jobName jobData jobBaseUrl emojisOff) = JobOverallStatus jobData.
Proof.
  unfold getDetails.
  destruct (ParseFloat _) as [passes ?], (ParseFloat _) as [runs ?].
  destruct (score _ _ _ _) as [severity emoji]. done.
Qed.

(** The loop over the jobs appends one detail record per visited entry
    that is not passing, in the order of the visit. *)
Lemma detail_loop (jobBaseUrl : string) (emojisOff : bool)
    (visited : list (string * TestgridValue)) (records : list ReportDataRecord) :
  fold_left
    (fun records '(jobName, jobData) =>
       if negb (String.eqb (JobOverallStatus jobData) Passing)
       then records ++ [getDetails statusFailingEmoji statusFlakyEmoji
                          statusNewTestEmoji jobName jobData jobBaseUrl emojisOff]
       else records)
    visited records
  = records ++ (details jobBaseUrl emojisOff <$> Spec.nonPassing visited).
Proof.
  revert records. induction visited as [|[jobName jobData] visited IH];
    intros records; cbn [fold_left].
  - by rewrite app_nil_r.
  - rewrite IH. unfold Spec.nonPassing. cbn [List.filter].
    unfold Spec.isPassing at 2. cbn [snd].
    destruct (String.eqb (JobOverallStatus jobData) Passing); cbn [negb]; [done|].
    by rewrite <- app_assoc.
Qed.

Lemma nonPassing_elem (visited : list (string * TestgridValue))
    (jobName : string) (jobData : TestgridValue) :
  (jobName, jobData) ∈ Spec.nonPassing visited <->
  (jobName, jobData) ∈ visited /\ JobOverallStatus jobData <> Passing.
Proof.
  unfold Spec.nonPassing. rewrite !list_elem_of_In, filter_In.
  unfold Spec.isPassing. cbn [snd]. rewrite negb_true_iff.
  destruct (String.eqb_spec (JobOverallStatus jobData) Passing); intuition congruence.
Qed.

Lemma nonPassing_length (visited : list (string * TestgridValue)) :
  length visited =
  (length (Spec.nonPassing visited)
   + length (List.filter Spec.isPassing visited.*2))%nat.
Proof.
  unfold Spec.nonPassing. induction visited as [|[n d] visited IH]; [done|].
  cbn [length List.filter fmap list_fmap snd].
  destruct (Spec.isPassing d); cbn [negb length]; lia.
Qed.

Lemma passing_count_perm (l l' : list (string * TestgridValue)) :
  l ≡ₚ l' ->
  length (List.filter Spec.isPassing l.*2) = length (List.filter Spec.isPassing l'.*2).
Proof.
  induction 1 as [|[n d] l l' _ IH|[n d] [n' d'] l|l l' l'' _ IH1 _ IH2];
    cbn [length List.filter fmap list_fmap snd].
  - done.
  - destruct (Spec.isPassing d); cbn [length]; lia.
  - destruct (Spec.isPassing d), (Spec.isPassing d'); cbn [length]; lia.
  - lia.
Qed.

(** The jobs of any other status are the entries of the dashboard whose
    status is none of the three. *)
Lemma otherStatus_elem (jobs : TestgridData) (jobName : string)
    (jobData : TestgridValue) :
  (jobName, jobData) ∈ Spec.otherStatus jobs <->
  jobs !! jobName = Some jobData /\
  JobOverallStatus jobData <> Passing /\ JobOverallStatus jobData <> Failing /\
  JobOverallStatus jobData <> Flaky.
Proof.
  unfold Spec.otherStatus. rewrite list_elem_of_In, filter_In, <- list_elem_of_In.
  rewrite elem_of_map_to_list. cbn [snd].
  rewrite !andb_true_iff, !negb_true_iff.
  destruct (String.eqb_spec (JobOverallStatus jobData) Passing),
    (String.eqb_spec (JobOverallStatus jobData) Failing),
    (String.eqb_spec (JobOverallStatus jobData) Flaky); intuition congruence.
Qed.

(** The stale bucket counts them. *)
Lemma stale_bucket (jobs : TestgridData) :
  Spec.bucket Spec.isStale jobs = Z.of_nat (length (Spec.otherStatus jobs)).
Proof.
  unfold Spec.bucket, Spec.otherStatus. f_equal.
  induction (map_to_list jobs) as [|[n d] l IH]; [done|].
  cbn [fmap list_fmap List.filter snd].
  unfold Spec.isStale at 1, Spec.isPassing, Spec.isFailing, Spec.isFlaky.
  destruct (negb _ && negb _ && negb _); cbn [length]; by rewrite IH.
Qed.

(** C7. For every dashboard whose summary document was fetched, and every
    order in which its jobs are visited, the record list is one summary
    record followed by the detail records: the summary counts the jobs by
    bucket (total, passing, flaky, failing, and stale for every other
    status; the buckets add up to the total).  The notes of the summary
    are the four count lines and, when it is not zero, the stale count,
    which is the number of the jobs of the dashboard whose status is none
    of passing, failing, flaky.  In short mode no detail record follows;
    otherwise the detail records are those of exactly the jobs whose
    status is not passing, one each. *)
Theorem dashboard_records (shortOn emojisOff : bool) (job : testgridJob)
    (jobs : TestgridData) (visited : list (string * TestgridValue)) :
  visited ≡ₚ map_to_list jobs ->
  let jobBaseUrl := "https://testgrid.k8s.io/" +:+ URLName job in
  exists detailRecords,
    dashboardWorker statusFailingEmoji statusFlakyEmoji statusNewTestEmoji
                    shortOn emojisOff job (inl jobs) visited
      = Returned (mkField (JobEmoji job) (OutputName job)
                          (getSummary jobs :: detailRecords)) /\
    ID (getSummary jobs) = testgridReportSummary /\
    Forall (fun r => ID r = testgridReportDetails) detailRecords /\
    take 4 (Notes (getSummary jobs)) =
      [pretty (Z.of_nat (size jobs)) +:+ " jobs total";
       pretty (Spec.bucket Spec.isPassing jobs) +:+ " jobs passing";
       pretty (Spec.bucket Spec.isFlaky jobs) +:+ " jobs flaky";
       pretty (Spec.bucket Spec.isFailing jobs) +:+ " jobs failing"] /\
    Z.of_nat (size jobs) =
      Spec.bucket Spec.isPassing jobs + Spec.bucket Spec.isFlaky jobs
      + Spec.bucket Spec.isFailing jobs + Spec.bucket Spec.isStale jobs /\
    Notes (getSummary jobs) =
      [pretty (Z.of_nat (size jobs)) +:+ " jobs total";
       pretty (Spec.bucket Spec.isPassing jobs) +:+ " jobs passing";
       pretty (Spec.bucket Spec.isFlaky jobs) +:+ " jobs flaky";
       pretty (Spec.bucket Spec.isFailing jobs) +:+ " jobs failing"]
      ++ (if Spec.bucket Spec.isStale jobs =? 0 then []
          else [pretty (Spec.bucket Spec.isStale jobs) +:+ " jobs stale"]) /\
    Spec.bucket Spec.isStale jobs = Z.of_nat (length (Spec.otherStatus jobs)) /\
    (forall jobName jobData,
       (jobName, jobData) ∈ Spec.otherStatus jobs <->
       jobs !! jobName = Some jobData /\
       JobOverallStatus jobData <> Passing /\ JobOverallStatus jobData <> Failing /\
       JobOverallStatus jobData <> Flaky) /\
    (shortOn = true -> detailRecords = []) /\
    (shortOn = false ->
       detailRecords = (details jobBaseUrl emojisOff <$> Spec.nonPassing visited) /\
       Z.of_nat (length detailRecords)
         = Z.of_nat (size jobs) - Spec.bucket Spec.isPassing jobs /\
       forall jobName jobData, jobs !! jobName = Some jobData ->
         (JobOverallStatus jobData <> Passing <->
          getDetails statusFailingEmoji statusFlakyEmoji statusNewTestEmoji
                     jobName jobData jobBaseUrl emojisOff ∈ detailRecords)).
Proof.
  intros Hperm jobBaseUrl.
  exists (if shortOn then []
          else details jobBaseUrl emojisOff <$> Spec.nonPassing visited).
  split.
  { unfold dashboardWorker. fold jobBaseUrl.
    destruct shortOn; cbn [negb]; [done|]. by rewrite detail_loop. }
  split; [done|]. split.
  { destruct shortOn; [constructor|]. apply Forall_fmap, Forall_forall.
    intros [n d] _. apply getDetails_ID. }
  split; [by rewrite getSummary_notes; destruct (_ =? 0)|].
  split; [apply buckets_partition|].
  split; [apply getSummary_notes|].
  split; [apply stale_bucket|]. split; [apply otherStatus_elem|].
  split; [by intros ->|]. intros ->. split; [done|]. split.
  - rewrite length_fmap. unfold Spec.bucket.
    rewrite <- (length_map_to_list jobs).
    rewrite <- (passing_count_perm _ _ Hperm), <- (Permutation_length Hperm).
    pose proof (nonPassing_length visited). lia.
  - intros jobName jobData Hlook. split.
    + intros Hnp. apply (list_elem_of_fmap_2 (details jobBaseUrl emojisOff)
                            (Spec.nonPassing visited) (jobName, jobData)).
      apply nonPassing_elem. split; [|done].
      rewrite Hperm. by apply elem_of_map_to_list.
    + intros Hin. apply list_elem_of_fmap in Hin as ([n d] & Heq & Hin).
      apply nonPassing_elem in Hin as [Hin Hnp].
      rewrite Hperm in Hin. apply elem_of_map_to_list in Hin.
      apply (f_equal Title) in Heq. unfold Spec.detailOf in Heq. cbn [fst snd] in Heq.
      rewrite !(proj1 (proj2 (getDetails_ID _ _ _ _))) in Heq. subst n.
      congruence.
Qed.

End Dashboard.

(** The dashboard of the end-to-end example with one more job, of a status
    that is none of the three, not in short mode: the counts 11/7/1/2, one
    stale job, and four detail records. *)
Lemma dashboard_records_witness :
  let jobs :=
    <["job-11" := Testgrid.mkValue "UNKNOWN" "no recent results" []]>
      Testgrid.exampleDashboard in
  exists detailRecords,
    Testgrid.dashboardWorker "[failing]" "[flaky]" "[new]" false false
      Testgrid.masterBlocking (inl jobs) (map_to_list jobs)
    = Returned (Testgrid.mkField "E" "Master-Blocking"
                  (Testgrid.getSummary jobs :: detailRecords)) /\
    Testgrid.Notes (Testgrid.getSummary jobs)
      = ["11 jobs total"; "7 jobs passing"; "1 jobs flaky"; "2 jobs failing";
         "1 jobs stale"] /\
    Spec.otherStatus jobs
      = [("job-11", Testgrid.mkValue "UNKNOWN" "no recent results" [])] /\
    length detailRecords = 4%nat.
Proof.
  intros jobs.
  destruct (dashboard_records "[failing]" "[flaky]" "[new]" false false
              Testgrid.masterBlocking jobs (map_to_list jobs) (reflexivity _))
    as (detailRecords & Hrun & _ & _ & _ & _ & Hnotes & _ & _ & _ & Hlong).
  exists detailRecords. split; [exact Hrun|].
  split; [rewrite Hnotes; by vm_compute|]. split; [by vm_compute|].
  destruct (Hlong eq_refl) as (-> & _). by vm_compute.
Defined.

(** ** Severity scoring: [getDetails] *)
Section Severity.
Import Testgrid.

Variables statusFailingEmoji statusFlakyEmoji statusNewTestEmoji : string.

Lemma isDigit_value (c : ascii) :
  GoStrings.isDigit c = true -> 0 <= Z.of_N (GoStrings.code c) - 48 <= 9.
Proof.
  unfold GoStrings.isDigit. rewrite andb_true_iff, !N.leb_le. lia.
Qed.

Lemma captured_value (s : string) :
  Spec.captured s -> exists n, decimalValue s = Some n /\ 0 <= n <= 99.
Proof.
  intros (a & Ha & [->|(b & Hb & ->)]); unfold decimalValue; cbn [digitsValue].
  - rewrite Ha. pose proof (isDigit_value a Ha). eexists. split; [done|lia].
  - rewrite Ha, Hb. pose proof (isDigit_value a Ha). pose proof (isDigit_value b Hb).
    eexists. split; [done|lia].
Qed.

Lemma matchOfRuns_captured (s runs : string) :
  matchOfRuns s = Some runs -> Spec.captured runs.
Proof.
  unfold matchOfRuns.
  destruct s as [|w1 [|o [|f [|w2 [|d1 rest]]]]]; try done.
  destruct (isSpace w1 && Ascii.eqb o "o" && Ascii.eqb f "f" && isSpace w2
            && GoStrings.isDigit d1) eqn:Hc; [|done].
  apply andb_true_iff in Hc as [_ Hd1].
  destruct rest as [|d2 rest].
  - intros [= <-]. exists d1. split; [done|by left].
  - destruct (GoStrings.isDigit d2) eqn:Hd2; intros [= <-]; exists d1;
      (split; [done|]); [right; eauto|by left].
Qed.

Lemma matchHere_captured (s passes runs : string) :
  matchHere s = Some (passes, runs) -> Spec.captured passes /\ Spec.captured runs.
Proof.
  unfold matchHere. destruct s as [|a rest]; [done|].
  destruct (GoStrings.isDigit a) eqn:Ha; [|done].
  assert (Hone : (fun runs0 => (String a EmptyString, runs0)) <$> matchOfRuns rest
                 = Some (passes, runs) ->
                 Spec.captured passes /\ Spec.captured runs).
  { destruct (matchOfRuns rest) as [runs0|] eqn:Hr; [|done].
    intros [= <- <-]. split; [exists a; split; [done|by left]|].
    by apply (matchOfRuns_captured rest). }
  destruct rest as [|b rest']; [exact Hone|].
  destruct (GoStrings.isDigit b) eqn:Hb; [|exact Hone].
  destruct (matchOfRuns rest') as [runs0|] eqn:Hr; [|exact Hone].
  cbn [fmap option_fmap option_map]. intros [= <- <-].
  split; [exists a; split; [done|right; eauto]|].
  by apply (matchOfRuns_captured rest').
Qed.

Lemma findSubmatch_captured (s passes runs : string) :
  findSubmatch s = Some (passes, runs) -> Spec.captured passes /\ Spec.captured runs.
Proof.
  induction s as [|c s IH]; cbn [findSubmatch].
  - done.
  - destruct (matchHere (String c s)) as [[p r]|] eqn:Hm; [|exact IH].
    intros [= <- <-]. by apply (matchHere_captured (String c s)).
Qed.

(** The counts read from a status text lie between 0 and 99. *)
Lemma recent_counts_range (status : string) :
  0 <= Spec.recentPasses status <= 99 /\ 0 <= Spec.recentRuns status <= 99.
Proof.
  unfold Spec.recentPasses, Spec.recentRuns, Spec.parsedCount, group, getRegexParams.
  destruct (findSubmatch status) as [[passes runs]|] eqn:Hm.
  - apply findSubmatch_captured in Hm as [Hp Hr].
    apply captured_value in Hp as (p & Hp & ?), Hr as (r & Hr & ?).
    rewrite lookup_insert_ne, lookup_insert_eq, lookup_insert_eq by done.
    cbn [default from_option id]. rewrite Hp, Hr. cbn. lia.
  - rewrite !lookup_empty. cbn. lia.
Qed.

Lemma ParseFloat_value (s : string) :
  (ParseFloat s).1 = Spec.floatOf (Spec.parsedCount s).
Proof.
  unfold ParseFloat, Spec.parsedCount. by destruct (decimalValue s).
Qed.

(** The comparisons agree at all counts below 100, by evaluation. *)
Lemma comparisons_table :
  forallb (fun passes => forallb (Spec.comparisonsAgree passes) (seq 0 100))
          (seq 0 100) = true.
Proof. vm_compute. reflexivity. Qed.

Lemma comparisons_agree (passes runs : Z) :
  0 <= passes <= 99 -> 0 <= runs <= 99 ->
  let p := Spec.floatOf passes in
  let r := Spec.floatOf runs in
  (r <=? newTestThreshhold)%float = (runs <=? 5) /\
  (5 < runs ->
   (p / r <=? thresholdWarning)%float = (2 * passes <=? runs) /\
   (p / r <=? thresholdInfo)%float = (5 * passes <=? 4 * runs)).
Proof.
  intros Hp Hr p r.
  pose proof (proj1 (forallb_forall _ _) comparisons_table (Z.to_nat passes)
                ltac:(apply in_seq; lia)) as Hrow.
  pose proof (proj1 (forallb_forall _ _) Hrow (Z.to_nat runs)
                ltac:(apply in_seq; lia)) as Htable.
  unfold Spec.comparisonsAgree in Htable. rewrite !Z2Nat.id in Htable by lia.
  fold p r in Htable.
  apply andb_true_iff in Htable as [H1 H2]. apply Bool.eqb_prop in H1.
  split; [done|]. intros Hruns.
  apply orb_true_iff in H2 as [H2|H2]; [apply Z.leb_le in H2; lia|].
  apply andb_true_iff in H2 as [H2 H3].
  by apply Bool.eqb_prop in H2, H3.
Qed.

(** [score] in exact integer arithmetic. *)
Lemma score_exact (highlightEmoji : string) (passes runs : Z) :
  0 <= passes <= 99 -> 0 <= runs <= 99 ->
  score highlightEmoji statusNewTestEmoji (Spec.floatOf passes) (Spec.floatOf runs) =
  if runs <=? 5 then (LightSeverity, statusNewTestEmoji)
  else if 2 * passes <=? runs then (HighSeverity, highlightEmoji)
  else if 5 * passes <=? 4 * runs then (MediumSeverity, highlightEmoji)
  else (LightSeverity, highlightEmoji).
Proof.
  intros Hp Hr. unfold score.
  destruct (comparisons_agree passes runs Hp Hr) as [Hnew Hrate].
  rewrite Hnew. destruct (Z.leb_spec runs 5) as [|Hruns]; [done|].
  destruct (Hrate Hruns) as [-> ->]. done.
Qed.

(** The severity and the highlight of a detail record come from [score]
    at the counts read from the status text. *)
Lemma getDetails_score (jobName : string) (jobData : TestgridValue)
    (jobBaseUrl : string) (emojisOff : bool) :
  let record :=
    getDetails statusFailingEmoji statusFlakyEmoji statusNewTestEmoji
               jobName jobData jobBaseUrl emojisOff in
  let scored :=
    score (if String.eqb (JobOverallStatus jobData) Failing
           then statusFailingEmoji else statusFlakyEmoji)
          statusNewTestEmoji
          (Spec.floatOf (Spec.recentPasses (JobStatus jobData)))
          (Spec.floatOf (Spec.recentRuns (JobStatus jobData))) in
  Severity record = scored.1 /\
  Highlight record = GoStrings.Repeat scored.2 (Z.to_nat scored.1).
Proof.
  unfold getDetails, Spec.recentPasses, Spec.recentRuns.
  rewrite <- !ParseFloat_value.
  destruct (ParseFloat (group _ testgridRegexRecentPasses)) as [passes ?].
  destruct (ParseFloat (group _ testgridRegexRecentRuns)) as [runs ?].
  cbn [fst]. by destruct (score _ _ passes runs).
Qed.

Lemma rate_le_half (passes runs : Z) :
  5 < runs -> (Spec.rate passes runs <= 1 # 2)%Q <-> 2 * passes <= runs.
Proof.
  intros Hr. unfold Spec.rate, Qle. cbn [Qnum Qden].
  rewrite Z2Pos.id by lia. lia.
Qed.

Lemma rate_le_four_fifths (passes runs : Z) :
  5 < runs -> (Spec.rate passes runs <= 4 # 5)%Q <-> 5 * passes <= 4 * runs.
Proof.
  intros Hr. unfold Spec.rate, Qle. cbn [Qnum Qden].
  rewrite Z2Pos.id by lia. lia.
Qed.

Lemma Repeat_once (s : string) : GoStrings.Repeat s 1 = s.
Proof.
  cbn [GoStrings.Repeat]. induction s as [|c s IH]; [done|].
  change (String c s +:+ "") with (String c (s +:+ "")). by rewrite IH.
Qed.

(** C1. For every detail record, with [passes] and [runs] the counts read
    from the status text of the job: when [runs <= 5] the severity is
    Light and the highlight is the marker of a new test, whatever
    [passes]; otherwise, with [rate = passes / runs], the severity is High
    when [rate <= 1/2], Medium when [1/2 < rate <= 4/5], Light when
    [4/5 < rate], and the highlight repeats the marker of the job's
    status.  3 of 10 is High, 9 of 10 is Light, and any count of 3 runs
    is Light with the marker of a new test. *)
Theorem severity_scoring (jobName : string) (jobData : TestgridValue)
    (jobBaseUrl : string) (emojisOff : bool) :
  let passes := Spec.recentPasses (JobStatus jobData) in
  let runs := Spec.recentRuns (JobStatus jobData) in
  let rate := Spec.rate passes runs in
  let record :=
    getDetails statusFailingEmoji statusFlakyEmoji statusNewTestEmoji
               jobName jobData jobBaseUrl emojisOff in
  let statusEmoji :=
    if String.eqb (JobOverallStatus jobData) Failing
    then statusFailingEmoji else statusFlakyEmoji in
  (runs <= 5 ->
     Severity record = LightSeverity /\ Highlight record = statusNewTestEmoji) /\
  (5 < runs ->
     ((rate <= 1 # 2)%Q -> Severity record = HighSeverity) /\
     ((1 # 2 < rate)%Q /\ (rate <= 4 # 5)%Q -> Severity record = MediumSeverity) /\
     ((4 # 5 < rate)%Q -> Severity record = LightSeverity) /\
     Highlight record = GoStrings.Repeat statusEmoji (Z.to_nat (Severity record))) /\
  (passes = 3 /\ runs = 10 -> Severity record = HighSeverity) /\
  (passes = 9 /\ runs = 10 -> Severity record = LightSeverity) /\
  (runs = 3 ->
     Severity record = LightSeverity /\ Highlight record = statusNewTestEmoji) /\
  Spec.recentPasses "3 of 10 (30.0%) recent columns passed" = 3 /\
  Spec.recentRuns "3 of 10 (30.0%) recent columns passed" = 10 /\
  Spec.recentPasses "9 of 10 (90.0%) recent columns passed" = 9 /\
  Spec.recentRuns "9 of 10 (90.0%) recent columns passed" = 10 /\
  Spec.recentRuns "0 of 3 (0.0%) recent columns passed" = 3.
Proof.
  intros passes runs rate record statusEmoji.
  destruct (getDetails_score jobName jobData jobBaseUrl emojisOff) as [Hsev Hhl].
  fold record passes runs statusEmoji in Hsev, Hhl.
  destruct (recent_counts_range (JobStatus jobData)) as [Hp Hr].
  fold passes in Hp. fold runs in Hr.
  rewrite (score_exact statusEmoji passes runs Hp Hr) in Hsev, Hhl.
  assert (Hnew : runs <= 5 ->
            Severity record = LightSeverity /\ Highlight record = statusNewTestEmoji).
  { intros Hruns. apply Z.leb_le in Hruns. rewrite Hruns in Hsev, Hhl.
    cbn [fst snd] in Hsev, Hhl. split; [done|]. rewrite Hhl. apply Repeat_once. }
  assert (Hrate : 5 < runs ->
     ((rate <= 1 # 2)%Q -> Severity record = HighSeverity) /\
     ((1 # 2 < rate)%Q /\ (rate <= 4 # 5)%Q -> Severity record = MediumSeverity) /\
     ((4 # 5 < rate)%Q -> Severity record = LightSeverity) /\
     Highlight record = GoStrings.Repeat statusEmoji (Z.to_nat (Severity record))).
  { intros Hruns. pose proof Hruns as Hnot. apply Z.leb_gt in Hnot.
    rewrite Hnot in Hsev, Hhl.
    assert (Hden : Z.pos (Z.to_pos runs) = runs) by (apply Z2Pos.id; lia).
    subst rate. unfold Spec.rate, Qle, Qlt. cbn [Qnum Qden]. rewrite Hden.
    unfold HighSeverity, MediumSeverity, LightSeverity in *.
    destruct (Z.leb_spec (2 * passes) runs);
      [|destruct (Z.leb_spec (5 * passes) (4 * runs))];
      cbn [fst snd] in Hsev, Hhl; rewrite Hsev;
      (split; [|split; [|split]]); try done; intros; lia. }
  split; [exact Hnew|]. split; [exact Hrate|].
  split; [intros [H3 H10]; apply Hrate; [lia|];
          subst rate; rewrite H3, H10; by vm_compute|].
  split; [intros [H9 H10]; apply Hrate; [lia|];
          subst rate; rewrite H9, H10; by vm_compute|].
  split; [intros H3; apply Hnew; lia|].
  repeat split; reflexivity.
Qed.

End Severity.

(** A failing job with 3 passes of 10 runs: High. *)
Lemma severity_scoring_witness :
  Testgrid.Severity
    (Testgrid.getDetails "[failing]" "[flaky]" "[new]" "job-03"
       (Testgrid.mkValue Testgrid.Failing "3 of 10 (30.0%) recent columns passed" [])
       "https://testgrid.k8s.io/sig-release-master-blocking" false)
  = Testgrid.HighSeverity.
Proof.
  apply (proj1 (proj2 (proj2
           (severity_scoring "[failing]" "[flaky]" "[new]" "job-03"
              (Testgrid.mkValue Testgrid.Failing
                 "3 of 10 (30.0%) recent columns passed" [])
              "https://testgrid.k8s.io/sig-release-master-blocking" false)))).
  split; reflexivity.
Defined.

(* ===================================================================== *)
(** * Further properties of the code                                      *)
(* ===================================================================== *)

(** ** Filtering, paging and merging compose *)
Section Merging.
Import Issues.

Lemma filterInto_app (acc : GithubIssuesAfterId) (a b : GithubIssues) :
  filterInto acc (a ++ b) = filterInto (filterInto acc a) b.
Proof. unfold filterInto. by rewrite fold_left_app. Qed.

Lemma filterInto_union (issues : GithubIssues) (acc : GithubIssuesAfterId) :
  filterInto acc issues = filterGithubIssues issues ∪ acc.
Proof.
  unfold filterGithubIssues.
  revert acc. induction issues as [|i issues IH]; intros acc.
  - cbn. by rewrite (left_id_L ∅ (∪)).
  - rewrite !filterInto_cons, IH.
    rewrite (IH (if issueFine i then _ else _)).
    destruct (issueFine i).
    + rewrite insert_empty, <- (assoc_L (∪)).
      by rewrite <- insert_union_singleton_l.
    + by rewrite (right_id_L ∅ (∪)).
Qed.

Lemma collect_pages (pages : list GithubIssues) (acc : GithubIssuesAfterId) :
  fold_left
    (fun (collectedIssues : GithubIssuesAfterId) issues =>
       map_fold (fun k issue acc => <[k := issue]> acc) collectedIssues issues)
    (filterGithubIssues <$> pages) acc
  = filterInto acc (concat pages).
Proof.
  revert acc. induction pages as [|p pages IH]; intros acc; [done|].
  cbn [fmap list_fmap fold_left concat]. rewrite IH, map_fold_insert_union.
  by rewrite filterInto_app, <- filterInto_union.
Qed.

Lemma concat_pages (perPage n : nat) (items : GithubIssues) :
  (length items <= n * perPage)%nat ->
  concat ((fun j => take perPage (drop (j * perPage) items)) <$> seq 0 n) = items.
Proof.
  revert items. induction n as [|n IH]; intros items Hlen.
  - destruct items; [done|cbn in Hlen; lia].
  - cbn [seq fmap list_fmap concat]. rewrite <- fmap_S_seq, <- list_fmap_compose.
    rewrite drop_0.
    rewrite <- (take_drop perPage items) at 2. f_equal.
    etrans; [|apply (IH (drop perPage items)); rewrite length_drop; lia].
    f_equal. apply list_fmap_ext. intros _ j _. cbn.
    rewrite drop_drop. f_equal; f_equal; lia.
Qed.

Lemma collect_snoc (arrived : list GithubIssuesAfterId) (m : GithubIssuesAfterId) :
  collect (arrived ++ [m]) = m ∪ collect arrived.
Proof.
  unfold collect. rewrite fold_left_app. cbn [fold_left].
  by rewrite map_fold_insert_union.
Qed.

Lemma collect_lookup (arrived : list GithubIssuesAfterId) (k : Z)
    (v : GithubIssueElement) :
  Props.agree arrived ->
  collect arrived !! k = Some v <-> exists m, m ∈ arrived /\ m !! k = Some v.
Proof.
  revert arrived. apply (rev_ind (fun arrived => Props.agree arrived -> _ <-> _)).
  - intros _. unfold collect. cbn. rewrite lookup_empty. split; [done|].
    intros (m & Hm & _). by apply elem_of_nil in Hm.
  - intros m arrived IH Hagree. rewrite collect_snoc, lookup_union_Some_raw.
    assert (Props.agree arrived) as Hagree'.
    { intros m1 m2 k' v1 v2 H1 H2. apply Hagree; apply elem_of_app; by left. }
    rewrite (IH Hagree'). split.
    + intros [Hm | [_ (m' & Hm' & Hk)]].
      * exists m. split; [|done]. apply elem_of_app. right. by apply list_elem_of_singleton.
      * exists m'. split; [|done]. apply elem_of_app. by left.
    + intros (m' & Hm' & Hk). apply elem_of_app in Hm' as [Hm' | Hm'].
      * destruct (m !! k) as [v'|] eqn:Hmk.
        -- left. f_equal.
           apply (Hagree m m' k v' v); [| |done|done].
           ++ apply elem_of_app. right. by apply list_elem_of_singleton.
           ++ apply elem_of_app. by left.
        -- right. split; [done|]. by exists m'.
      * apply list_elem_of_singleton in Hm' as ->. by left.
Qed.

Lemma collect_perm (arrived sentByPage : list GithubIssuesAfterId) :
  Props.agree sentByPage -> arrived ≡ₚ sentByPage ->
  collect arrived = collect sentByPage.
Proof.
  intros Hagree Hperm.
  assert (Props.agree arrived) as Hagree'.
  { intros m1 m2 k v1 v2 H1 H2. apply Hagree; by rewrite <- Hperm. }
  apply map_eq. intros k. apply option_eq. intros v.
  rewrite (collect_lookup _ _ _ Hagree), (collect_lookup _ _ _ Hagree').
  by setoid_rewrite Hperm.
Qed.

Lemma pages_agree (pages : list GithubIssues) :
  NoDup (Number <$> concat pages) -> Props.agree (filterGithubIssues <$> pages).
Proof.
  intros Hnodup m1 m2 k v1 v2 H1 H2 Hk1 Hk2.
  apply list_elem_of_fmap in H1 as (p1 & -> & Hp1).
  apply list_elem_of_fmap in H2 as (p2 & -> & Hp2).
  apply filterInto_lookup_inv in Hk1 as [Hk1 | (Hv1 & Hn1 & _)];
    [by rewrite lookup_empty in Hk1|].
  apply filterInto_lookup_inv in Hk2 as [Hk2 | (Hv2 & Hn2 & _)];
    [by rewrite lookup_empty in Hk2|].
  apply (distinct_numbers (concat pages)); [done| | |congruence].
  - apply list_elem_of_In, in_concat. exists p1. by rewrite <- !list_elem_of_In.
  - apply list_elem_of_In, in_concat. exists p2. by rewrite <- !list_elem_of_In.
Qed.

Lemma paged_sent (items : GithubIssues) (perPage : nat) (url token : string) (n : nat) :
  (fun i => filterGithubIssues (Spec.rawPage (pagedService items perPage) url token i))
    <$> seq 1 n
  = filterGithubIssues <$>
      ((fun j => take perPage (drop (j * perPage) items)) <$> seq 0 n).
Proof.
  rewrite <- fmap_S_seq, <- !list_fmap_compose. apply list_fmap_ext.
  intros _ j _. unfold compose. by rewrite rawPage_paged.
Qed.

Lemma collect_paged (items : GithubIssues) (perPage : nat) (url token : string) :
  (0 < perPage)%nat ->
  collect ((fun i => filterGithubIssues
                       (Spec.rawPage (pagedService items perPage) url token i))
             <$> seq 1 (S (Spec.ceilDiv (length items) perPage)))
  = filterGithubIssues items.
Proof.
  intros Hp. rewrite paged_sent. unfold collect. rewrite collect_pages.
  rewrite concat_pages; [done|].
  pose proof (ceilDiv_covers (length items) perPage Hp). lia.
Qed.

(** X1.  Filtering a listing given in two parts is filtering the parts and
    merging the results, an entry of the later part replacing an entry of
    the earlier part under the same number. *)
Theorem filterGithubIssues_app (a b : GithubIssues) :
  filterGithubIssues (a ++ b) = filterGithubIssues b ∪ filterGithubIssues a.
Proof.
  unfold filterGithubIssues at 1. rewrite filterInto_app.
  by rewrite filterInto_union.
Qed.

Lemma collect_lookup_inv (arrived : list GithubIssuesAfterId) (k : Z)
    (v : GithubIssueElement) :
  collect arrived !! k = Some v -> exists m, m ∈ arrived /\ m !! k = Some v.
Proof.
  revert arrived. apply (rev_ind (fun arrived => _ -> _)).
  - unfold collect. cbn. by rewrite lookup_empty.
  - intros m arrived IH. rewrite collect_snoc, lookup_union_Some_raw.
    intros [Hm|[_ Hk]].
    + exists m. split; [|done]. apply elem_of_app. right.
      by apply list_elem_of_singleton.
    + destruct (IH Hk) as (m' & Hm' & Hk'). exists m'. split; [|done].
      apply elem_of_app. by left.
Qed.

Lemma page_items (items : GithubIssues) (perPage j : nat) (i : GithubIssueElement) :
  i ∈ take perPage (drop (j * perPage) items) -> i ∈ items.
Proof. intros Hin. by apply subseteq_take, subseteq_drop in Hin. Qed.

Lemma item_page (items : GithubIssues) (perPage n : nat) (i : GithubIssueElement) :
  (length items <= n * perPage)%nat -> i ∈ items ->
  exists j, j ∈ seq 0 n /\ i ∈ take perPage (drop (j * perPage) items).
Proof.
  intros Hlen Hin. rewrite <- (concat_pages perPage n items Hlen) in Hin.
  apply list_elem_of_In, in_concat in Hin as (page & Hpage & Hin).
  apply list_elem_of_In, list_elem_of_fmap in Hpage as (j & -> & Hj).
  exists j. split; [done|]. by apply list_elem_of_In.
Qed.

(** X2.  For a listing served in pages, whatever the schedule of the page
    goroutines and the order in which their maps arrive, paging loses and
    adds no issue number: once all goroutines are done, the collected map
    has an entry under exactly the numbers of the items of the listing
    that the policy does not exclude, and every entry is such an item
    under its own number.  Of a number that occurs on several pages the
    entry kept is the one that arrived last. *)
Theorem paged_fetch_keeps_the_issue_numbers (items : GithubIssues)
    (perPage : nat) (url token : string) (pool : Pool) :
  (0 < perPage)%nat ->
  rtc (step (pagedService items perPage) token) (initialPool url) (Running pool) ->
  finished pool ->
  (forall n v, collect (received pool) !! n = Some v ->
     v ∈ items /\ Number v = n /\ ~ Spec.excluded v) /\
  (forall n, is_Some (collect (received pool) !! n) <->
     exists i, i ∈ items /\ Number i = n /\ ~ Spec.excluded i) /\
  (forall before last, received pool = before ++ [last] ->
     forall n v, last !! n = Some v -> collect (received pool) !! n = Some v).
Proof.
  intros Hp Hrun Hfin.
  cut ((forall n v, collect (received pool) !! n = Some v ->
          v ∈ items /\ Number v = n /\ ~ Spec.excluded v) /\
       (forall n, is_Some (collect (received pool) !! n) <->
          exists i, i ∈ items /\ Number i = n /\ ~ Spec.excluded i)).
  { intros [H1 H2]. split; [exact H1|]. split; [exact H2|].
    intros before last -> n v Hlast. rewrite collect_snoc.
    apply lookup_union_Some_raw. by left. }
  destruct (every_schedule_completes_alike _ _ _ _ Hrun Hfin)
    as (n & sentByPage & Hchain & _ & Hperm).
  pose proof (paged_chain items perPage url token
                (Spec.ceilDiv (length items) perPage) 0
                (S (n + Spec.ceilDiv (length items) perPage)) Hp eq_refl
                ltac:(lia)) as Hpaged.
  change (Spec.pageUrl url 0) with (mkUrl url []) in Hpaged.
  change (Z.of_nat 0 + 1) with 1 in Hpaged.
  specialize (Hchain (S (n + Spec.ceilDiv (length items) perPage)) ltac:(lia)).
  unfold assembleGithubIssues in Hchain. rewrite Hpaged in Hchain.
  assert (sentByPage =
          (fun i => filterGithubIssues
                      (Spec.rawPage (pagedService items perPage) url token i))
            <$> seq 1 (S (Spec.ceilDiv (length items) perPage))) as ->.
  { by injection Hchain as _ <-. }
  rewrite paged_sent in Hperm. clear Hchain Hpaged.
  pose proof (ceilDiv_covers (length items) perPage Hp) as Hcover.
  assert (forall k v, collect (received pool) !! k = Some v ->
            v ∈ items /\ Number v = k /\ ~ Spec.excluded v) as Hentries.
  { intros k v Hk. apply collect_lookup_inv in Hk as (m & Hm & Hk).
    rewrite Hperm in Hm. apply list_elem_of_fmap in Hm as (page & -> & Hpage).
    apply list_elem_of_fmap in Hpage as (j & -> & _).
    apply filterInto_lookup_inv in Hk as [Hk|(Hin & Hn & Hfine)];
      [by rewrite lookup_empty in Hk|].
    split; [by apply (page_items items perPage j)|]. split; [done|].
    by apply issueFine_iff. }
  split; [exact Hentries|]. intros k. split.
  - intros [v Hv]. exists v. by apply Hentries.
  - intros (i & Hin & <- & Hfine).
    destruct (item_page items perPage (S (Spec.ceilDiv (length items) perPage)) i)
      as (j & Hj & Hpage); [lia|done|].
    apply (collect_keeps (received pool)
             (filterGithubIssues (take perPage (drop (j * perPage) items)))).
    + rewrite Hperm. apply list_elem_of_fmap. eexists. split; [done|].
      apply list_elem_of_fmap. by exists j.
    + apply filterInto_keeps; [done|]. by apply issueFine_iff.
Qed.

(** X3.  The same under every schedule of the page goroutines and every
    order of arrival on the channel, when the issue numbers of the listing
    are distinct: once all goroutines are done, merging the maps in the
    order the reader received them gives the filter of the whole
    listing. *)
Theorem every_schedule_collects_the_filtered_listing (items : GithubIssues)
    (perPage : nat) (url token : string) (pool : Pool) :
  (0 < perPage)%nat ->
  NoDup (Number <$> items) ->
  rtc (step (pagedService items perPage) token) (initialPool url) (Running pool) ->
  finished pool ->
  collect (received pool) = filterGithubIssues items.
Proof.
  intros Hp Hnodup Hrun Hfin.
  destruct (every_schedule_completes_alike _ _ _ _ Hrun Hfin)
    as (n & sentByPage & Hchain & _ & Hperm).
  pose proof (paged_chain items perPage url token
                (Spec.ceilDiv (length items) perPage) 0
                (S (n + Spec.ceilDiv (length items) perPage)) Hp eq_refl
                ltac:(lia)) as Hpaged.
  change (Spec.pageUrl url 0) with (mkUrl url []) in Hpaged.
  change (Z.of_nat 0 + 1) with 1 in Hpaged.
  specialize (Hchain (S (n + Spec.ceilDiv (length items) perPage)) ltac:(lia)).
  unfold assembleGithubIssues in Hchain. rewrite Hpaged in Hchain.
  assert (sentByPage =
          (fun i => filterGithubIssues
                      (Spec.rawPage (pagedService items perPage) url token i))
            <$> seq 1 (S (Spec.ceilDiv (length items) perPage))) as ->.
  { by injection Hchain as _ <-. }
  rewrite <- (collect_paged items perPage url token Hp).
  apply collect_perm; [|done].
  rewrite paged_sent. apply pages_agree.
  rewrite concat_pages; [done|].
  pose proof (ceilDiv_covers (length items) perPage Hp). lia.
Qed.

(** X4.  Whatever the service answers, an entry of the map that
    [GetGithubIssues] returns is keyed by the number of its issue, is not
    excluded by the policy, and is an item of a page that was requested
    and decoded, all pages before it having come back non-empty. *)
Theorem GetGithubIssues_entries (service : Service) (url token : string)
    (fuel : nat) (result : GithubIssuesAfterId) (k : Z) (v : GithubIssueElement) :
  GetGithubIssues fuel service url token = Some (Returned result) ->
  result !! k = Some v ->
  Number v = k /\ ~ Spec.excluded v /\
  exists j,
    v ∈ Spec.rawPage service url token (S j) /\
    ~ Spec.pageFails service url token (S j) /\
    (forall i, (1 <= i <= j)%nat -> Spec.rawPage service url token i <> []).
Proof.
  unfold GetGithubIssues, assembleGithubIssues. intros Hget Hk.
  destruct (requestGithubIssues fuel service (mkUrl url []) 1 token)
    as [[f|msg|msg]|] eqn:Hchain; try done.
  cbn in Hget. injection Hget as <-.
  apply (chain_shape service url token fuel 0) in Hchain
    as (d & _ & Hsent & Hpages & Hlast & Hempty).
  rewrite Hsent in Hk.
  rewrite (list_fmap_compose (Spec.rawPage service url token) filterGithubIssues) in Hk.
  unfold collect in Hk. rewrite collect_pages in Hk.
  apply filterInto_lookup_inv in Hk as [Hk | (Hv & Hn & Hfine)];
    [by rewrite lookup_empty in Hk|].
  split; [done|]. split; [by apply issueFine_iff|].
  apply list_elem_of_In, in_concat in Hv as (p & Hp & Hv).
  apply list_elem_of_In, list_elem_of_fmap in Hp as (i & -> & Hi).
  apply list_elem_of_In, in_seq in Hi.
  destruct i as [|j]; [lia|]. exists j.
  split; [by apply list_elem_of_In|]. split.
  - destruct (decide (j = d)) as [->|]; [done|]. apply Hpages. lia.
  - intros i Hi'. apply Hpages. lia.
Qed.

End Merging.

Lemma paged_fetch_keeps_the_issue_numbers_witness :
  exists pool,
    rtc (Issues.step (Issues.pagedService Issues.exampleListing 2) "token")
        (Issues.initialPool "u") (Issues.Running pool) /\
    Issues.finished pool /\
    (forall n v, Issues.collect (Issues.received pool) !! n = Some v ->
       v ∈ Issues.exampleListing /\ Issues.Number v = n /\ ~ Spec.excluded v) /\
    (forall n, is_Some (Issues.collect (Issues.received pool) !! n) <->
       exists i, i ∈ Issues.exampleListing /\ Issues.Number i = n /\
                 ~ Spec.excluded i) /\
    (forall before last, Issues.received pool = before ++ [last] ->
       forall n v, last !! n = Some v ->
                   Issues.collect (Issues.received pool) !! n = Some v).
Proof.
  destruct (a_schedule_completes (Issues.pagedService Issues.exampleListing 2)
              "u" "token" 3) as (pool & Hrun & Hfin).
  - intros k Hk.
    assert (k = 1 \/ k = 2 \/ k = 3)%nat as [-> | [-> | ->]] by lia;
      split; vm_compute; try tauto; discriminate.
  - vm_compute. tauto.
  - reflexivity.
  - exists pool. split; [exact Hrun|]. split; [exact Hfin|].
    apply (paged_fetch_keeps_the_issue_numbers
             Issues.exampleListing 2 "u" "token" pool); [lia|exact Hrun|exact Hfin].
Defined.

Lemma every_schedule_collects_the_filtered_listing_witness :
  exists pool,
    rtc (Issues.step (Issues.pagedService Issues.exampleListing 2) "token")
        (Issues.initialPool "u") (Issues.Running pool) /\
    Issues.finished pool /\
    Issues.collect (Issues.received pool)
      = Issues.filterGithubIssues Issues.exampleListing.
Proof.
  destruct (a_schedule_completes (Issues.pagedService Issues.exampleListing 2)
              "u" "token" 3) as (pool & Hrun & Hfin).
  - intros k Hk.
    assert (k = 1 \/ k = 2 \/ k = 3)%nat as [-> | [-> | ->]] by lia;
      split; vm_compute; try tauto; discriminate.
  - vm_compute. tauto.
  - reflexivity.
  - exists pool. split; [exact Hrun|]. split; [exact Hfin|].
    apply (every_schedule_collects_the_filtered_listing
             Issues.exampleListing 2 "u" "token" pool); [lia| |exact Hrun|exact Hfin].
    refine (bool_decide_unpack _ _). vm_compute. exact I.
Defined.

Lemma GetGithubIssues_entries_witness :
  let v := Issues.issueOf 105 "https://github.com/kubernetes/kubernetes/issues/105"
             ["kind/failing-test"; "sig/cli"; "priority/critical-urgent"] in
  Issues.Number v = 105 /\ ~ Spec.excluded v /\
  exists j,
    v ∈ Spec.rawPage (Issues.pagedService Issues.exampleListing 2) "u" "token" (S j) /\
    ~ Spec.pageFails (Issues.pagedService Issues.exampleListing 2) "u" "token" (S j) /\
    (forall i, (1 <= i <= j)%nat ->
       Spec.rawPage (Issues.pagedService Issues.exampleListing 2) "u" "token" i <> []).
Proof.
  apply (GetGithubIssues_entries (Issues.pagedService Issues.exampleListing 2)
           "u" "token" 10 (Issues.filterGithubIssues Issues.exampleListing));
    vm_compute; reflexivity.
Defined.

(** ** The expression [sig/[a-zA-Z]+] on a label name *)
Section SigExpression.
Import IssueReport.

Lemma substring_all (s : string) : String.substring 0 (String.length s) s = s.
Proof. induction s as [|c s IH]; [done|]. cbn. by rewrite IH. Qed.

Lemma app_cons (c : ascii) (a b : string) : String c a +:+ b = String c (a +:+ b).
Proof. reflexivity. Qed.

Lemma HasPrefix_sig (s : string) :
  GoStrings.HasPrefix s "sig/" = true <->
  exists r, s = "sig/" +:+ r.
Proof.
  split.
  - destruct s as [|a [|b [|c [|d r]]]]; cbn; rewrite ?andb_false_r; try done.
    rewrite !andb_true_iff, !Ascii.eqb_eq. intros (-> & -> & -> & -> & _).
    by exists r.
  - intros (r & ->). apply (HasPrefix_app "sig/").
Qed.

Lemma substring_sig (r : string) :
  String.substring 4 (String.length ("sig/" +:+ r) - 4) ("sig/" +:+ r) = r.
Proof.
  change ("sig/" +:+ r) with (String "s" (String "i" (String "g" (String "/" r)))).
  cbn [String.length String.substring Nat.sub]. rewrite Nat.sub_0_r.
  apply substring_all.
Qed.

Lemma takeLetters_split (r : string) :
  exists post, r = Testgrid.takeLetters r +:+ post /\
               Props.startsWithLetter post = false /\
               Props.allLetters (Testgrid.takeLetters r) = true.
Proof.
  induction r as [|c r (post & Hr & Hpost & Hall)].
  - by exists "".
  - cbn [Testgrid.takeLetters]. destruct (Testgrid.isLetter c) eqn:Hc.
    + exists post. rewrite app_cons, <- Hr. cbn [Props.allLetters].
      by rewrite Hc, Hall.
    + exists (String c r). cbn [Props.startsWithLetter]. by rewrite Hc.
Qed.

Lemma takeLetters_app (letters post : string) :
  Props.allLetters letters = true -> Props.startsWithLetter post = false ->
  Testgrid.takeLetters (letters +:+ post) = letters.
Proof.
  intros Hall Hpost. induction letters as [|c letters IH].
  - destruct post as [|c post]; [done|].
    change ("" +:+ String c post) with (String c post).
    cbn [Testgrid.takeLetters Props.startsWithLetter] in *. by rewrite Hpost.
  - cbn [Props.allLetters] in Hall. apply andb_true_iff in Hall as [Hc Hall].
    rewrite app_cons. cbn [Testgrid.takeLetters]. by rewrite Hc, IH.
Qed.

Lemma sigAt_takeLetters (r : string) :
  Props.sigAt ("sig/" +:+ r) <-> Testgrid.takeLetters r <> "".
Proof.
  split.
  - intros (c & r' & Heq & Hc).
    lazy beta iota delta [String.append] in Heq. injection Heq as ->.
    cbn [Testgrid.takeLetters]. by rewrite Hc.
  - destruct r as [|c r]; [done|]. cbn [Testgrid.takeLetters].
    destruct (Testgrid.isLetter c) eqn:Hc; [|done].
    intros _. by exists c, r.
Qed.

Lemma sigAt_prefix (s : string) : Props.sigAt s -> GoStrings.HasPrefix s "sig/" = true.
Proof. intros (c & r & -> & _). apply (HasPrefix_app "sig/"). Qed.

(** One unfolding of [findSig]. *)
Lemma findSig_cons (c : ascii) (s : string) :
  findSig (String c s) =
  if GoStrings.HasPrefix (String c s) "sig/" then
    match Testgrid.takeLetters
            (String.substring 4 (String.length (String c s) - 4) (String c s)) with
    | EmptyString => findSig s
    | letters => "sig/" +:+ letters
    end
  else findSig s.
Proof. reflexivity. Qed.

Lemma findSig_here (r : string) :
  Testgrid.takeLetters r <> "" ->
  findSig ("sig/" +:+ r) = "sig/" +:+ Testgrid.takeLetters r.
Proof.
  intros Hne. change ("sig/" +:+ r) with (String "s" ("ig/" +:+ r)) at 1.
  rewrite findSig_cons.
  change (String "s" ("ig/" +:+ r)) with ("sig/" +:+ r).
  rewrite (HasPrefix_app "sig/"), substring_sig.
  by destruct (Testgrid.takeLetters r).
Qed.

Lemma findSig_skip (c : ascii) (s : string) :
  ~ Props.sigAt (String c s) -> findSig (String c s) = findSig s.
Proof.
  intros Hno. rewrite findSig_cons.
  destruct (GoStrings.HasPrefix (String c s) "sig/") eqn:Hp; [|done].
  apply HasPrefix_sig in Hp as (r & Hr). rewrite Hr in *. rewrite substring_sig.
  destruct (Testgrid.takeLetters r) eqn:Ht; [done|].
  exfalso. apply Hno, sigAt_takeLetters. by rewrite Ht.
Qed.

Lemma findSig_complete (s sig : string) :
  Props.sigMatch s sig -> findSig s = sig.
Proof.
  intros (pre & letters & post & -> & -> & Hne & Hall & Hpost & Hleft).
  induction pre as [|c pre IH].
  - change ("" +:+ ("sig/" +:+ letters) +:+ post)
      with ("sig/" +:+ (letters +:+ post)).
    rewrite findSig_here; rewrite takeLetters_app; done.
  - rewrite app_cons, findSig_skip.
    + apply IH. intros p q -> Hq. by apply (Hleft (String c p) q).
    + apply (Hleft "" (String c pre)); done.
Qed.

Lemma findSig_sound (s sig : string) :
  findSig s = sig -> sig <> "" -> Props.sigMatch s sig.
Proof.
  revert sig. induction s as [|c s IH]; intros sig Hs Hne; [by subst|].
  destruct (GoStrings.HasPrefix (String c s) "sig/") eqn:Hp.
  - pose proof Hp as Hp'. apply HasPrefix_sig in Hp' as (r & Hr).
    destruct (Testgrid.takeLetters r) as [|l ls] eqn:Ht.
    + rewrite findSig_skip in Hs
        by (rewrite Hr, sigAt_takeLetters, Ht; intros H; by apply H).
      destruct (IH sig Hs Hne) as (pre & letters & post & -> & -> & ? & ? & ? & Hleft).
      exists (String c pre), letters, post. repeat split; try done.
      intros [|c' p] q Hpq Hq.
      * change ("" +:+ q) with q in Hpq. subst q. rewrite app_cons.
        rewrite Hr, sigAt_takeLetters, Ht. intros H'. by apply H'.
      * rewrite app_cons in Hpq. injection Hpq as _ ->. by apply (Hleft p q).
    + rewrite Hr, findSig_here in Hs by (by rewrite Ht).
      destruct (takeLetters_split r) as (post & Hsplit & Hpost & Hall).
      exists "", (Testgrid.takeLetters r), post. repeat split; try done.
      * rewrite Hr. rewrite Hsplit at 1. reflexivity.
      * by rewrite Ht.
      * intros p q Hpq Hq. destruct p; [|done].
        change ("" +:+ q) with q in Hpq. by subst q.
  - rewrite findSig_skip in Hs.
    2: { intros Hat. apply sigAt_prefix in Hat. congruence. }
    destruct (IH sig Hs Hne) as (pre & letters & post & -> & -> & ? & ? & ? & Hleft).
    exists (String c pre), letters, post. repeat split; try done.
    intros [|c' p] q Hpq Hq.
    + change ("" +:+ q) with q in Hpq. subst q. rewrite app_cons. intros Hat.
      apply sigAt_prefix in Hat. congruence.
    + rewrite app_cons in Hpq. injection Hpq as _ ->. by apply (Hleft p q).
Qed.

Lemma findSig_none (s : string) : findSig s = "" <-> Props.noSig s.
Proof.
  split.
  - induction s as [|c s IH]; intros Hs p q Hpq.
    + destruct p, q; try done. by intros (? & ? & ? & _).
    + assert (~ Props.sigAt (String c s)) as Hno.
      { intros Hat. pose proof Hat as Hp. apply sigAt_prefix, HasPrefix_sig in Hp as (r & Hr).
        rewrite Hr in Hat, Hs. apply sigAt_takeLetters in Hat.
        by rewrite findSig_here in Hs. }
      destruct p as [|c' p]; [by change ("" +:+ q) with q in Hpq; subst q|].
      rewrite app_cons in Hpq. injection Hpq as _ ->.
      rewrite findSig_skip in Hs by done. by apply (IH Hs p q).
  - intros Hno. destruct (findSig s) as [|c sig] eqn:Hs; [done|].
    apply findSig_sound in Hs as (pre & letters & post & -> & _ & Hne & Hall & _); [|done].
    exfalso. apply (Hno pre (("sig/" +:+ letters) +:+ post)).
    + done.
    + destruct letters as [|l letters]; [done|]. cbn [Props.allLetters] in Hall.
      apply andb_true_iff in Hall as [Hl _].
      by exists l, (letters +:+ post).
Qed.

End SigExpression.

(** ** The loop over the labels of an issue *)
Section IssueLabels.
Import Issues IssueReport.

Variables colorGreen colorRed colorBlue colorReset : string.
Variables statusOldEmoji statusNewEmoji : string.

Lemma append_empty (a b : string) : a +:+ b = "" <-> a = "" /\ b = "".
Proof.
  destruct a as [|c a].
  - change ("" +:+ b) with b. intuition.
  - change (String c a +:+ b) with (String c (a +:+ b)).
    split; [done|by intros [? _]].
Qed.

Lemma append_nonempty_r (a b : string) : b <> "" -> a +:+ b <> "".
Proof. intros Hb Hab. by apply append_empty in Hab as [_ ?]. Qed.

Lemma eqb_empty (s : string) : negb (String.eqb s "") = true <-> s <> "".
Proof.
  destruct (String.eqb_spec s ""); cbn; split; done.
Qed.

Lemma sigs_unique (labels : list Label) (sigs sigs' : list string) :
  Props.sigsOf labels sigs -> Props.sigsOf labels sigs' -> sigs = sigs'.
Proof.
  intros H. revert sigs'. induction H as [|label labels sig sigs Hm _ IH|label labels sigs Hn _ IH];
    intros sigs' H'; inversion H' as [|? ? sig' sigs'' Hm' Hs'|? ? ? Hn' Hs']; subst.
  - done.
  - apply findSig_complete in Hm, Hm'. f_equal; [congruence|by apply IH].
  - pose proof (findSig_complete _ _ Hm) as Hf. apply findSig_none in Hn'.
    destruct Hm as (? & ? & ? & _ & -> & _). rewrite Hn' in Hf.
    by lazy beta iota delta [String.append] in Hf.
  - pose proof (findSig_complete _ _ Hm') as Hf. apply findSig_none in Hn.
    destruct Hm' as (? & ? & ? & _ & -> & _). rewrite Hn in Hf.
    by lazy beta iota delta [String.append] in Hf.
  - by apply IH.
Qed.

Lemma labelStep_fold (labels : list Label) (sigs0 : list string) (note0 : string) :
  exists sigs note,
    fold_left (labelStep colorGreen colorRed colorReset) labels (sigs0, note0)
      = (sigs0 ++ sigs, note) /\
    Props.sigsOf labels sigs /\
    (note = "" <->
     note0 = "" /\
     forall label, label ∈ labels ->
       GoStrings.Contains (Name label) "priority" = false /\
       GoStrings.Contains (Name label) "kind/" = false).
Proof.
  revert sigs0 note0. induction labels as [|label labels IH]; intros sigs0 note0.
  - exists [], note0. rewrite app_nil_r. split; [done|]. split; [constructor|].
    split; [|by intros [? _]]. intros ->. split; [done|]. by intros ? ?%elem_of_nil.
  - cbn [fold_left]. unfold labelStep at 2.
    set (sig := findSig (Name label)).
    set (note1 := if GoStrings.Contains (Name label) "priority" then _ else _).
    set (note2 := if GoStrings.Contains (Name label) "kind/" then _ else _).
    destruct (IH (if negb (String.eqb sig "") then sigs0 ++ [sig] else sigs0) note2)
      as (sigs & note & Hfold & Hsigs & Hnote).
    assert (note2 = "" <-> note0 = "" /\
              GoStrings.Contains (Name label) "priority" = false /\
              GoStrings.Contains (Name label) "kind/" = false) as Hnote2.
    { subst note1 note2.
      destruct (GoStrings.Contains (Name label) "priority"),
               (GoStrings.Contains (Name label) "kind/");
        rewrite ?append_empty; split; try tauto; try (intros (_ & ? & ?); done);
        intros; exfalso; intuition (try discriminate);
        repeat match goal with
        | H : _ +:+ _ = "" |- _ => apply append_empty in H as [? ?]
        end; discriminate. }
    destruct (negb (String.eqb sig "")) eqn:Hsig.
    + exists (sig :: sigs), note. rewrite Hfold, <- (assoc_L (++)). split; [done|].
      split.
      * apply Props.sigsOf_match; [|done]. apply findSig_sound; [done|].
        by apply eqb_empty.
      * rewrite Hnote, Hnote2. split.
        -- intros ((? & ? & ?) & Hall). split; [done|].
           intros l [->|?]%elem_of_cons; [done|by apply Hall].
        -- intros (? & Hall). split; [split; [done|]|].
           ++ apply Hall. by left.
           ++ intros l ?. apply Hall. by right.
    + exists sigs, note. rewrite Hfold. split; [done|]. split.
      * apply Props.sigsOf_none; [|done]. apply findSig_none.
        apply negb_false_iff, String.eqb_eq in Hsig. done.
      * rewrite Hnote, Hnote2. split.
        -- intros ((? & ? & ?) & Hall). split; [done|].
           intros l [->|?]%elem_of_cons; [done|by apply Hall].
        -- intros (? & Hall). split; [split; [done|]|].
           ++ apply Hall. by left.
           ++ intros l ?. apply Hall. by right.
Qed.

End IssueLabels.

(** ** The record of an issue and the fields of the issue report *)
Section IssueRecords.
Import GoTime Issues IssueReport.

Variables colorGreen colorRed colorBlue colorReset : string.
Variables statusOldEmoji statusNewEmoji : string.

Local Abbreviation record now1 now2 issue :=
  (issueRecord colorGreen colorRed colorBlue colorReset
               statusOldEmoji statusNewEmoji now1 now2 issue).

Lemma issueRecord_fields (now1 now2 : GoTime.Reading) (issue : GithubIssueElement) :
  exists sigs note,
    fold_left (labelStep colorGreen colorRed colorReset) (Labels issue) ([], "")
      = (sigs, note) /\
    Props.sigsOf (Labels issue) sigs /\
    (note = "" <->
     forall label, label ∈ Labels issue ->
       GoStrings.Contains (Name label) "priority" = false /\
       GoStrings.Contains (Name label) "kind/" = false).
Proof.
  destruct (labelStep_fold colorGreen colorRed colorReset (Labels issue) [] "")
    as (sigs & note & Hfold & Hsigs & Hnote).
  exists sigs, note. split; [done|]. split; [done|].
  rewrite Hnote. intuition.
Qed.

(** X5.  The [Sig] of the record of an issue is the bracketed list of the
    sigs of its labels, in the order of the labels: a label contributes
    the text of the leftmost [sig/] followed by letters in its name, all
    the letters taken, and nothing when its name has no such place.  The
    labels determine the list. *)
Theorem issueRecord_Sig (now1 now2 : GoTime.Reading) (issue : GithubIssueElement) :
  exists sigs,
    Sig (record now1 now2 issue) = sprintV sigs /\
    Props.sigsOf (Labels issue) sigs /\
    forall sigs', Props.sigsOf (Labels issue) sigs' -> sigs' = sigs.
Proof.
  destruct (issueRecord_fields now1 now2 issue) as (sigs & note & Hfold & Hsigs & _).
  exists sigs. split; [|split; [done|]].
  - unfold issueRecord. by rewrite Hfold.
  - intros sigs' Hsigs'. by apply (sigs_unique (Labels issue)).
Qed.

Lemma sigsOf_elem (labels : list Label) (sigs : list string) (label : Label)
    (sig : string) :
  Props.sigsOf labels sigs -> label ∈ labels ->
  Props.sigMatch (Name label) sig -> sig ∈ sigs.
Proof.
  intros Hsigs. induction Hsigs as [|l labels s sigs Hm _ IH|l labels sigs Hn _ IH];
    intros Hin Hmatch.
  - by apply elem_of_nil in Hin.
  - apply elem_of_cons in Hin as [->|Hin].
    + apply findSig_complete in Hm, Hmatch.
      assert (sig = s) as -> by congruence. by left.
    + right. by apply IH.
  - apply elem_of_cons in Hin as [->|Hin]; [|by apply IH].
    pose proof (findSig_complete _ _ Hmatch) as Hf. apply findSig_none in Hn.
    destruct Hmatch as (? & ? & ? & _ & -> & _). rewrite Hn in Hf.
    by lazy beta iota delta [String.append] in Hf.
Qed.

(** X6.  A label named [sig/<letters><rest>], where [rest] is empty or
    starts with a character that is not a letter, is reported as
    [sig/<letters>]: what follows the letters, a hyphen included, is cut
    off. *)
Theorem issueRecord_Sig_truncated (now1 now2 : GoTime.Reading)
    (issue : GithubIssueElement) (label : Label) (letters rest : string) :
  label ∈ Labels issue ->
  Name label = ("sig/" +:+ letters) +:+ rest ->
  letters <> "" -> Props.allLetters letters = true ->
  Props.startsWithLetter rest = false ->
  exists sigs,
    Sig (record now1 now2 issue) = sprintV sigs /\ ("sig/" +:+ letters) ∈ sigs.
Proof.
  intros Hin Hname Hne Hall Hrest.
  destruct (issueRecord_fields now1 now2 issue) as (sigs & note & Hfold & Hsigs & _).
  exists sigs. split; [unfold issueRecord; by rewrite Hfold|].
  apply (sigsOf_elem (Labels issue) sigs label); [done|done|].
  exists "", letters, rest. repeat split; try done.
  intros p q Hpq Hq. destruct p; [|done].
  change ("" +:+ q) with q in Hpq. by subst q.
Qed.

(** X7.  The notes of the record of an issue: the line of the dates and
    the comment count, alone when the issue has no milestone and no label
    whose name contains [priority] or [kind/]; followed by exactly one
    more note, which is not empty, otherwise.  This holds whatever the
    colour codes are, the empty string included. *)
Theorem issueRecord_Notes (now1 now2 : GoTime.Reading) (issue : GithubIssueElement) :
  let first :=
    "Created " +:+ splitHead (CreatedAt issue) "T"
      +:+ ", Updated " +:+ splitHead (UpdatedAt issue) "T"
      +:+ ", Comments: " +:+ pretty (Comments issue) in
  (~ Props.annotated issue -> Notes (record now1 now2 issue) = [first]) /\
  (Props.annotated issue ->
     exists second, second <> "" /\ Notes (record now1 now2 issue) = [first; second]).
Proof.
  intros first.
  destruct (issueRecord_fields now1 now2 issue) as (sigs & note & Hfold & _ & Hnote).
  unfold issueRecord. rewrite Hfold. cbn [Notes].
  split.
  - intros Hplain.
    destruct (IssueMilestone issue) as [milestone|] eqn:Hm.
    { exfalso. apply Hplain. left. by rewrite Hm. }
    assert (note = "") as ->.
    { apply Hnote. intros label Hin.
      destruct (GoStrings.Contains (Name label) "priority") eqn:H1;
        [exfalso; apply Hplain; right; exists label; auto|].
      destruct (GoStrings.Contains (Name label) "kind/") eqn:H2;
        [exfalso; apply Hplain; right; exists label; auto|].
      done. }
    done.
  - intros Hann.
    set (lablesToNote := match IssueMilestone issue with Some _ => _ | None => _ end).
    assert (lablesToNote <> "") as Hne.
    { subst lablesToNote. destruct (IssueMilestone issue) as [milestone|] eqn:Hm.
      - apply append_nonempty_r. intros H%append_empty. destruct H as [_ H].
        by change ("milestone " +:+ ?x) with (String "m" ("ilestone " +:+ x)) in H.
      - intros ->. destruct Hann as [Hann|(label & Hin & Hlabel)]; [done|].
        destruct (proj1 Hnote eq_refl label Hin) as [H1 H2].
        destruct Hlabel; congruence. }
    exists lablesToNote. split; [done|].
    apply eqb_empty in Hne. by rewrite Hne.
Qed.

Lemma digitChar_not_T (n : Z) : Ascii.eqb (GoTime.digitChar n) "T" = false.
Proof.
  unfold GoTime.digitChar. pose proof (Z.mod_pos_bound n 10 ltac:(lia)) as Hb.
  remember (n mod 10) as k eqn:Hk. clear Hk.
  assert (Hcases : k = 0 \/ k = 1 \/ k = 2 \/ k = 3 \/ k = 4 \/ k = 5 \/
                   k = 6 \/ k = 7 \/ k = 8 \/ k = 9) by lia.
  destruct Hcases as [->|[->|[->|[->|[->|[->|[->|[->|[->| ->]]]]]]]]];
    reflexivity.
Qed.

Lemma splitHead_twoDigits (n : Z) (rest : string) :
  splitHead (GoTime.twoDigits n rest) "T" = GoTime.twoDigits n (splitHead rest "T").
Proof.
  unfold GoTime.twoDigits. cbn [splitHead]. by rewrite !digitChar_not_T.
Qed.

Lemma splitHead_timestamp (r : GoTime.Reading) :
  splitHead (GoTime.timestamp r) "T" = Props.dateOf r.
Proof.
  unfold GoTime.timestamp, GoTime.formatUTC, Props.dateOf.
  rewrite !splitHead_twoDigits. cbn [splitHead Ascii.eqb Bool.eqb].
  rewrite !splitHead_twoDigits. cbn [splitHead Ascii.eqb Bool.eqb].
  rewrite !splitHead_twoDigits. by cbn [splitHead Ascii.eqb Bool.eqb].
Qed.

(** X8.  When the creation and update timestamps of an issue are written
    as GitHub writes them, the first note shows their dates only, the part
    before the [T]. *)
Theorem issueRecord_dates (now1 now2 created updated : GoTime.Reading)
    (issue : GithubIssueElement) :
  CreatedAt issue = GoTime.timestamp created ->
  UpdatedAt issue = GoTime.timestamp updated ->
  head (Notes (record now1 now2 issue)) =
  Some ("Created " +:+ Props.dateOf created
          +:+ ", Updated " +:+ Props.dateOf updated
          +:+ ", Comments: " +:+ pretty (Comments issue)).
Proof.
  intros Hc Hu. unfold issueRecord.
  destruct (fold_left _ _ _) as [sigs note]. cbn [Notes].
  rewrite Hc, Hu, !splitHead_timestamp.
  by destruct (negb _).
Qed.

Lemma daysSinceEpoch_lower (y : Z) :
  1 <= y -> daysSinceEpoch 1 + 365 * (y - 1) <= daysSinceEpoch y.
Proof.
  intros Hy. unfold daysSinceEpoch.
  change ((1 - 1) / 4 - (1 - 1) / 100 + (1 - 1) / 400) with 0.
  Z.div_mod_to_equations. lia.
Qed.

Ltac calendar_norm :=
  repeat match goal with
  | |- context [daysBefore ?a] =>
      let v := eval vm_compute in (daysBefore a) in change (daysBefore a) with v
  | |- context [(3 <=? ?a)] =>
      let v := eval vm_compute in (3 <=? a) in change (3 <=? a) with v
  | |- context [Z.div ?a 12] =>
      let v := eval vm_compute in (Z.div a 12) in change (Z.div a 12) with v
  end.

Lemma monthStart_back_lower (y m : Z) :
  2 <= y -> 1 <= m <= 12 -> daysSinceEpoch 1 + 273 <= monthStart y (m - 3).
Proof.
  intros Hy Hm.
  pose proof (daysSinceEpoch_lower (y - 1) ltac:(lia)) as Hprev.
  pose proof (daysSinceEpoch_lower y ltac:(lia)) as Hthis.
  assert (Hcases : m = 1 \/ m = 2 \/ m = 3 \/ m = 4 \/ m = 5 \/ m = 6 \/
                   m = 7 \/ m = 8 \/ m = 9 \/ m = 10 \/ m = 11 \/ m = 12) by lia.
  unfold monthStart, norm.
  destruct Hcases as [->|[->|[->|[->|[->|[->|[->|[->|[->|[->|[->| ->]]]]]]]]]]];
    calendar_norm;
    rewrite ?Z.add_0_r, ?andb_false_r, ?andb_true_r;
    change (y + -1) with (y - 1);
    destruct (isLeap y), (isLeap (y - 1)); lia.
Qed.

Lemma zero_before (r : Reading) (months days : Z) :
  validReading r = true -> 2 <= year r ->
  -86400 <= zoneOffset r <= 86400 ->
  (months = -3 /\ days = 0) \/ (months = 0 /\ days = -5) ->
  Before zeroTime (AddDate r 0 months days) = true.
Proof.
  intros Hvalid Hy Hzone Hback. apply sec_Before.
  rewrite (AddDate_valid r months days Hvalid). cbn [unixSec].
  change (unixSec zeroTime) with (daysSinceEpoch 1 * 86400).
  pose proof (validReading_fields r Hvalid) as (Hm & Hd & Hh & Hmi & Hs & _).
  pose proof (monthStart_back_lower (year r) (month r) Hy Hm) as Hlow.
  pose proof (monthStart_gap (year r) (month r) Hm) as Hgap.
  destruct Hback as [[-> ->]|[-> ->]].
  - change (month r + -3) with (month r - 3). lia.
  - rewrite Z.add_0_r. lia.
Qed.

(** X9.  An issue whose creation timestamp does not parse is compared as
    the zero time: for readings of the clock in year 2 or later, in a zone
    at most a day off UTC, its highlight is the marker of an old issue,
    without the marker of a fresh one. *)
Theorem unparsable_creation_date_reads_old (now1 now2 : Reading)
    (issue : GithubIssueElement) :
  Parse (CreatedAt issue) = None ->
  validReading now1 = true -> validReading now2 = true ->
  2 <= year now1 -> 2 <= year now2 ->
  -86400 <= zoneOffset now1 <= 86400 -> -86400 <= zoneOffset now2 <= 86400 ->
  Highlight (record now1 now2 issue) = statusOldEmoji.
Proof.
  intros Hparse Hv1 Hv2 Hy1 Hy2 Hz1 Hz2.
  unfold issueRecord. destruct (fold_left _ _ _) as [sigs note]. cbn [Highlight].
  unfold ageHighlight, checkTimeBefore. rewrite Hparse. cbn [default from_option].
  unfold id.
  rewrite (zero_before now1 (-3) 0), (zero_before now2 0 (-5)) by auto.
  reflexivity.
Qed.

Lemma reportedIDs_transform
    (clock : GithubIssueElement -> GoTime.Reading * GoTime.Reading)
    (visited : list (Z * GithubIssueElement)) :
  Props.reportedIDs
    (transformIntoReportData colorGreen colorRed colorBlue colorReset
       statusOldEmoji statusNewEmoji clock visited)
  = Number <$> visited.*2.
Proof.
  unfold Props.reportedIDs, transformIntoReportData.
  induction visited as [|[k issue] visited IH]; [done|].
  cbn [fmap list_fmap flat_map]. rewrite IH.
  unfold issueField. cbn [Records fmap list_fmap app]. f_equal.
  unfold issueRecord. by destruct (fold_left _ _ _).
Qed.

Lemma filtered_keys (issues : GithubIssues)
    (visited : list (Z * GithubIssueElement)) :
  visited ≡ₚ map_to_list (filterGithubIssues issues) ->
  Number <$> visited.*2 = visited.*1.
Proof.
  intros Hperm.
  assert (Forall (fun kv => Number kv.2 = kv.1) visited) as Hall.
  { apply Forall_forall. intros [k v] Hin. rewrite Hperm in Hin.
    apply elem_of_map_to_list in Hin.
    apply filterInto_lookup_inv in Hin as [Hin|(_ & Hn & _)];
      [by rewrite lookup_empty in Hin|done]. }
  clear Hperm. induction Hall as [|[k v] visited' Hkv _ IH]; [done|].
  cbn [fmap list_fmap fst snd] in *. by rewrite Hkv, IH.
Qed.

Lemma filtered_key_iff (issues : GithubIssues) (n : Z) :
  is_Some (filterGithubIssues issues !! n) <->
  exists i, i ∈ issues /\ Number i = n /\ ~ Spec.excluded i.
Proof.
  split.
  - intros [j Hj].
    apply filterInto_lookup_inv in Hj as [Hj|(Hin & Hn & Hfine)];
      [by rewrite lookup_empty in Hj|].
    exists j. by rewrite <- issueFine_iff.
  - intros (i & Hin & <- & Hfine). apply filterInto_keeps; [done|].
    by apply issueFine_iff.
Qed.

(** X10.  For a listing served in pages, [RequestData] hands one field of
    one record, without emoji and title, to the post-processing for each
    issue number it reports; no number is reported twice, and the numbers
    reported are those of the items of the listing that the policy does
    not exclude.  The orders in which the maps are visited do not
    matter. *)
Theorem RequestData_reports_each_kept_issue_once (items : GithubIssues)
    (perPage fuel : nat) (githubToken : string) (params : list (string * string))
    (clock : GithubIssueElement -> GoTime.Reading * GoTime.Reading)
    (visit : GithubIssuesAfterId -> list (Z * GithubIssueElement)) :
  (0 < perPage)%nat ->
  (Spec.ceilDiv (length items) perPage < fuel)%nat ->
  (forall m, visit m ≡ₚ map_to_list m) ->
  exists fields,
    RequestData colorGreen colorRed colorBlue colorReset statusOldEmoji statusNewEmoji
      fuel (pagedService items perPage) githubToken params clock visit
      = Some (Returned fields) /\
    Forall (fun field => Emoji field = "" /\ FieldTitle field = "" /\
                         length (Records field) = 1%nat) fields /\
    NoDup (Props.reportedIDs fields) /\
    forall n, n ∈ Props.reportedIDs fields <->
              exists i, i ∈ items /\ Number i = n /\ ~ Spec.excluded i.
Proof.
  intros Hp Hfuel Hvisit.
  unfold RequestData, GetGithubIssues, assembleGithubIssues.
  pose proof (paged_chain items perPage
                (issuesUrl "kubernetes" "kubernetes" params) githubToken
                (Spec.ceilDiv (length items) perPage) 0 fuel Hp eq_refl Hfuel) as Hchain.
  change (Spec.pageUrl ?u 0) with (mkUrl u []) in Hchain.
  change (Z.of_nat 0 + 1) with 1 in Hchain.
  rewrite Hchain. cbn [mbind option_bind sent].
  rewrite collect_paged by done.
  rewrite map_fold_insert_union, (right_id_L ∅ (∪)).
  eexists. split; [reflexivity|].
  pose proof (Hvisit (filterGithubIssues items)) as Hperm.
  split; [|split].
  - unfold transformIntoReportData. apply Forall_fmap, Forall_forall.
    by intros [k issue] _.
  - rewrite reportedIDs_transform, (filtered_keys items) by done.
    rewrite Hperm. apply NoDup_fst_map_to_list.
  - intros n. rewrite reportedIDs_transform, (filtered_keys items) by done.
    rewrite Hperm, <- filtered_key_iff.
    rewrite list_elem_of_fmap. split.
    + intros ([k v] & -> & Hin). apply elem_of_map_to_list in Hin. by exists v.
    + intros [v Hv]. exists (n, v). split; [done|]. by apply elem_of_map_to_list.
Qed.

End IssueRecords.

Lemma issueRecord_Sig_truncated_witness :
  exists sigs,
    IssueReport.Sig
      (IssueReport.issueRecord "<green>" "<red>" "<blue>" "<reset>" "[old]" "[new]"
         IssueReport.exampleNow IssueReport.exampleNow IssueReport.exampleIssue)
      = IssueReport.sprintV sigs /\
    ("sig/" +:+ "api") ∈ sigs.
Proof.
  apply (issueRecord_Sig_truncated "<green>" "<red>" "<blue>" "<reset>" "[old]" "[new]"
           IssueReport.exampleNow IssueReport.exampleNow IssueReport.exampleIssue
           (Issues.mkLabel "sig/api-machinery" "d2b48c") "api" "-machinery").
  - apply list_elem_of_here.
  - reflexivity.
  - discriminate.
  - reflexivity.
  - reflexivity.
Defined.

Lemma issueRecord_dates_witness :
  head (IssueReport.Notes
          (IssueReport.issueRecord "<green>" "<red>" "<blue>" "<reset>" "[old]" "[new]"
             IssueReport.exampleNow IssueReport.exampleNow IssueReport.exampleIssue))
  = Some ("Created " +:+ Props.dateOf (GoTime.mkReading 2021 8 30 9 15 0 0 0)
            +:+ ", Updated " +:+ Props.dateOf (GoTime.mkReading 2021 9 1 12 0 0 0 0)
            +:+ ", Comments: " +:+ pretty (Issues.Comments IssueReport.exampleIssue)).
Proof.
  apply (issueRecord_dates "<green>" "<red>" "<blue>" "<reset>" "[old]" "[new]"
           IssueReport.exampleNow IssueReport.exampleNow
           (GoTime.mkReading 2021 8 30 9 15 0 0 0)
           (GoTime.mkReading 2021 9 1 12 0 0 0 0) IssueReport.exampleIssue);
    reflexivity.
Defined.

Lemma unparsable_creation_date_reads_old_witness :
  IssueReport.Highlight
    (IssueReport.issueRecord "<green>" "<red>" "<blue>" "<reset>" "[old]" "[new]"
       IssueReport.exampleNow IssueReport.exampleNow
       (Issues.mkIssue "https://github.com/kubernetes/kubernetes/issues/8" 8
          "a test fails" [] "open" None 0 "yesterday" "2021-09-01T12:00:00Z" ""))
  = "[old]".
Proof.
  apply (unparsable_creation_date_reads_old "<green>" "<red>" "<blue>" "<reset>"
           "[old]" "[new]" IssueReport.exampleNow IssueReport.exampleNow);
    try reflexivity; cbn; lia.
Defined.

Lemma RequestData_reports_each_kept_issue_once_witness :
  exists fields,
    IssueReport.RequestData "<green>" "<red>" "<blue>" "<reset>" "[old]" "[new]"
      10 (Issues.pagedService Issues.exampleListing 2) "token"
      (map_to_list IssueReport.requestCfgParams)
      (fun _ => (IssueReport.exampleNow, IssueReport.exampleNow)) map_to_list
      = Some (Returned fields) /\
    Forall (fun field => IssueReport.Emoji field = "" /\
                         IssueReport.FieldTitle field = "" /\
                         length (IssueReport.Records field) = 1%nat) fields /\
    NoDup (Props.reportedIDs fields) /\
    forall n, n ∈ Props.reportedIDs fields <->
              exists i, i ∈ Issues.exampleListing /\ Issues.Number i = n /\
                        ~ Spec.excluded i.
Proof.
  apply (RequestData_reports_each_kept_issue_once "<green>" "<red>" "<blue>" "<reset>"
           "[old]" "[new]" Issues.exampleListing 2 10 "token").
  - lia.
  - vm_compute. lia.
  - reflexivity.
Defined.

(** ** Merging maps received from a channel *)
Section MapMerge.
Context {K A : Type} `{Countable K}.

Lemma map_fold_insert_union_any (m acc : gmap K A) :
  map_fold (fun k v (acc : gmap K A) => <[k := v]> acc) acc m = m ∪ acc.
Proof.
  apply (map_fold_weak_ind (fun r (m : gmap K A) => r = m ∪ acc)).
  - by rewrite (left_id_L ∅ (∪)).
  - intros k v m' r _ ->. by rewrite insert_union_l.
Qed.

Lemma merged_snoc (ms : list (gmap K A)) (m : gmap K A) :
  fold_left (fun (acc : gmap K A) data =>
               map_fold (fun k v acc => <[k := v]> acc) acc data) (ms ++ [m]) ∅
  = m ∪ fold_left (fun (acc : gmap K A) data =>
                     map_fold (fun k v acc => <[k := v]> acc) acc data) ms ∅.
Proof. rewrite fold_left_app. cbn [fold_left]. by rewrite map_fold_insert_union_any. Qed.

Lemma merged_lookup (ms : list (gmap K A)) (k : K) (v : A) :
  Props.consistent ms ->
  fold_left (fun (acc : gmap K A) data =>
               map_fold (fun k v acc => <[k := v]> acc) acc data) ms ∅ !! k = Some v
  <-> exists m, m ∈ ms /\ m !! k = Some v.
Proof.
  revert ms. apply (rev_ind (fun ms => Props.consistent ms -> _ <-> _)).
  - intros _. cbn. rewrite lookup_empty. split; [done|].
    intros (m & Hm & _). by apply elem_of_nil in Hm.
  - intros m ms IH Hagree. rewrite merged_snoc, lookup_union_Some_raw.
    assert (Props.consistent ms) as Hagree'.
    { intros m1 m2 k' v1 v2 H1 H2. apply Hagree; apply elem_of_app; by left. }
    rewrite (IH Hagree'). split.
    + intros [Hm | [_ (m' & Hm' & Hk)]].
      * exists m. split; [|done]. apply elem_of_app. right. by apply list_elem_of_singleton.
      * exists m'. split; [|done]. apply elem_of_app. by left.
    + intros (m' & Hm' & Hk). apply elem_of_app in Hm' as [Hm' | Hm'].
      * destruct (m !! k) as [v'|] eqn:Hmk.
        -- left. f_equal.
           apply (Hagree m m' k v' v); [| |done|done].
           ++ apply elem_of_app. right. by apply list_elem_of_singleton.
           ++ apply elem_of_app. by left.
        -- right. split; [done|]. by exists m'.
      * apply list_elem_of_singleton in Hm' as ->. by left.
Qed.

Lemma merged_perm (arrived ms : list (gmap K A)) :
  Props.consistent ms -> arrived ≡ₚ ms ->
  fold_left (fun (acc : gmap K A) data =>
               map_fold (fun k v acc => <[k := v]> acc) acc data) arrived ∅
  = fold_left (fun (acc : gmap K A) data =>
                 map_fold (fun k v acc => <[k := v]> acc) acc data) ms ∅.
Proof.
  intros Hagree Hperm.
  assert (Props.consistent arrived) as Hagree'.
  { intros m1 m2 k v1 v2 H1 H2. apply Hagree; by rewrite <- Hperm. }
  apply map_eq. intros k. apply option_eq. intros v.
  rewrite (merged_lookup _ _ _ Hagree), (merged_lookup _ _ _ Hagree').
  by setoid_rewrite Hperm.
Qed.

Lemma NoDup_fst_functional (kvs : list (K * A)) (k : K) (v1 v2 : A) :
  NoDup kvs.*1 -> (k, v1) ∈ kvs -> (k, v2) ∈ kvs -> v1 = v2.
Proof.
  induction kvs as [|[k0 a0] kvs IH]; intros Hnodup Hin1 Hin2.
  - by apply elem_of_nil in Hin1.
  - cbn [fmap list_fmap fst] in Hnodup. apply NoDup_cons in Hnodup as [Hfresh Hnodup].
    apply elem_of_cons in Hin1 as [Heq1|Hin1], Hin2 as [Heq2|Hin2].
    + congruence.
    + injection Heq1 as -> ->. exfalso. apply Hfresh.
      apply list_elem_of_fmap. by exists (k0, v2).
    + injection Heq2 as -> ->. exfalso. apply Hfresh.
      apply list_elem_of_fmap. by exists (k0, v1).
    + by apply IH.
Qed.

Lemma singletons_consistent (kvs : list (K * A)) :
  NoDup kvs.*1 ->
  Props.consistent ((fun kv => <[kv.1 := kv.2]> (∅ : gmap K A)) <$> kvs).
Proof.
  intros Hnodup m1 m2 k v1 v2 H1 H2 Hk1 Hk2.
  apply list_elem_of_fmap in H1 as ([k1 a1] & -> & Hin1).
  apply list_elem_of_fmap in H2 as ([k2 a2] & -> & Hin2).
  cbn [fst snd] in *.
  apply lookup_insert_Some in Hk1 as [[-> ->]|[_ Hk1]]; [|by rewrite lookup_empty in Hk1].
  apply lookup_insert_Some in Hk2 as [[-> ->]|[_ Hk2]]; [|by rewrite lookup_empty in Hk2].
  by apply (NoDup_fst_functional kvs k).
Qed.

End MapMerge.

(** ** The card report *)
Section CardReports.
Import Cards CardReport.

Lemma findCardsID_perm (cards cards' : list ProjectColumn) (err : option string)
    (keyword : string) :
  cards ≡ₚ cards' -> findCardsID cards err keyword = findCardsID cards' err keyword.
Proof.
  intros Hperm. destruct err as [e|]; [done|].
  destruct (decide (Exists (fun c => ColumnName c = Some keyword) cards)) as [Hex|Hno].
  - apply Exists_exists in Hex as (c & Hin & Hname).
    destruct (findCardsID_lowest_match cards keyword c Hin Hname)
      as (first & -> & Hfirst & Hfname & Hleast).
    rewrite Hperm in Hin.
    destruct (findCardsID_lowest_match cards' keyword c Hin Hname)
      as (first' & -> & Hfirst' & Hfname' & Hleast').
    assert (GetID first <= GetID first') by (apply Hleast; [by rewrite Hperm|done]).
    assert (GetID first' <= GetID first) by (apply Hleast'; [by rewrite <- Hperm|done]).
    do 2 f_equal. lia.
  - rewrite !findCardsID_no_match; [done| |].
    + intros c Hin Hname. apply Hno, Exists_exists. exists c. by rewrite Hperm.
    + intros c Hin Hname. apply Hno, Exists_exists. by exists c.
Qed.

(** X11.  The identifier [findCardsID] returns does not depend on the
    order in which the columns are listed: for a listing with a column of
    the name and any rearrangement of it, the result is the same, the
    least identifier among the columns of that name. *)
Theorem findCardsID_order_independent (cards cards' : list ProjectColumn)
    (keyword : string) (c : ProjectColumn) :
  cards ≡ₚ cards' -> c ∈ cards -> ColumnName c = Some keyword ->
  exists first,
    findCardsID cards None keyword = Returned (GetID first, None) /\
    findCardsID cards' None keyword = Returned (GetID first, None) /\
    first ∈ cards /\ ColumnName first = Some keyword /\
    forall c', c' ∈ cards -> ColumnName c' = Some keyword -> GetID first <= GetID c'.
Proof.
  intros Hperm Hin Hname.
  destruct (findCardsID_lowest_match cards keyword c Hin Hname)
    as (first & Hfind & Hfirst & Hfname & Hleast).
  exists first. split; [done|]. split; [|done].
  by rewrite <- (findCardsID_perm cards cards' None keyword Hperm).
Qed.

(** X12.  The lookup of the [Resolved] column decides the call of
    [RequestData] in two cases, in short mode as in full mode: an error of
    the column listing is returned with no data and no column of cards is
    requested; a listing without a column named [Resolved] is a run-time
    panic, although short mode would not report that column. *)
Theorem RequestData_column_lookup (client : Client) (service : Service)
    (githubToken : string) (shortOn : bool)
    (arrival : list ghIssueOverview -> list ghIssueOverview)
    (mapsArrival : list ReportData -> list ReportData) :
  (forall cards err,
     ListProjectColumns client githubCiSignalBoardProjectID = (cards, Some err) ->
     RequestData client service githubToken shortOn arrival mapsArrival
       = Returned (mkOutcome [] None (Some err))) /\
  (forall cards,
     ListProjectColumns client githubCiSignalBoardProjectID = (cards, None) ->
     (forall c, c ∈ cards -> ColumnName c <> Some "Resolved") ->
     RequestData client service githubToken shortOn arrival mapsArrival
       = Panicked "index out of range [0] with length 0").
Proof.
  split.
  - intros cards err Hcols. unfold RequestData. by rewrite Hcols.
  - intros cards Hcols Hno. unfold RequestData. rewrite Hcols.
    by rewrite findCardsID_no_match.
Qed.

Lemma sortDataIntoDataRecord_returned (client : Client) (service : Service)
    (githubToken : string) (shortOn : bool)
    (arrival : list ghIssueOverview -> list ghIssueOverview)
    (cardCfg : githubIssueCardConfig) (s : Sent) :
  sortDataIntoDataRecord client service githubToken shortOn arrival cardCfg
    = Returned s ->
  if OmitWithFlagShort cardCfg && shortOn
  then s = mkSent [] []
  else exists records,
         Props.columnRecords client service githubToken arrival (CardID cardCfg)
           = Some records /\
         s = mkSent [CardID cardCfg]
               [<[mkField (CardEmoji cardCfg) (CardsTitle cardCfg) := records]> ∅].
Proof.
  unfold sortDataIntoDataRecord, Props.columnRecords.
  destruct (OmitWithFlagShort cardCfg && shortOn); cbn [negb].
  - by intros [= <-].
  - destruct (assembleCardRequests _ _ _) as [r|msg|msg]; [|done|done].
    intros [= <-]. by eexists.
Qed.

Ltac column_step H :=
  match type of H with
  | context [sortDataIntoDataRecord ?c ?s ?t ?sh ?a ?cfg] =>
      let Hs := fresh "Hs" in
      destruct (sortDataIntoDataRecord c s t sh a cfg) as [?|?|?] eqn:Hs;
        [|discriminate H..];
      apply sortDataIntoDataRecord_returned in Hs;
      cbn [OmitWithFlagShort andb CardID CardEmoji CardsTitle] in Hs
  end.

(** X13.  When the board has a [Resolved] column and [RequestData]
    returns, it returns no error; in short mode it has requested the cards
    of the two columns New and In flight only and the data has exactly
    those two fields; in full mode it has requested the four columns, the
    [Resolved] one under the least identifier of that name, and the data
    has the four fields.  Each field holds the records of its column, and
    the order in which the maps of the columns arrive does not matter. *)
Theorem RequestData_columns (client : Client) (service : Service)
    (githubToken : string) (shortOn : bool)
    (arrival : list ghIssueOverview -> list ghIssueOverview)
    (mapsArrival : list ReportData -> list ReportData)
    (cards : list ProjectColumn) (c : ProjectColumn) (out : Outcome) :
  ListProjectColumns client githubCiSignalBoardProjectID = (cards, None) ->
  c ∈ cards -> ColumnName c = Some "Resolved" ->
  (forall ms, mapsArrival ms ≡ₚ ms) ->
  RequestData client service githubToken shortOn arrival mapsArrival = Returned out ->
  exists resolved news inFlight,
    resolved ∈ cards /\ ColumnName resolved = Some "Resolved" /\
    (forall c', c' ∈ cards -> ColumnName c' = Some "Resolved" ->
                GetID resolved <= GetID c') /\
    error out = None /\
    Props.columnRecords client service githubToken arrival newCardsID = Some news /\
    Props.columnRecords client service githubToken arrival underInvestigationCardsID
      = Some inFlight /\
    if shortOn then
      requested out = [newCardsID; underInvestigationCardsID] /\
      reportData out =
        Some (<[mkField inFlightEmoji "In flight" := inFlight]>
                (<[mkField notYetStartedEmoji "New/Not Yet Started" := news]> ∅))
    else
      exists observing resolvedRecords,
        Props.columnRecords client service githubToken arrival observingCardsID
          = Some observing /\
        Props.columnRecords client service githubToken arrival (GetID resolved)
          = Some resolvedRecords /\
        requested out = [newCardsID; underInvestigationCardsID; observingCardsID;
                         GetID resolved] /\
        reportData out =
          Some (<[mkField resolvedEmoji "Resolved" := resolvedRecords]>
                  (<[mkField observingEmoji "Observing" := observing]>
                     (<[mkField inFlightEmoji "In flight" := inFlight]>
                        (<[mkField notYetStartedEmoji "New/Not Yet Started" := news]>
                           ∅)))).
Proof.
  intros Hcols Hin Hname Hperm Hret.
  destruct (findCardsID_lowest_match cards "Resolved" c Hin Hname)
    as (resolved & Hfind & Hresolved & Hrname & Hleast).
  unfold RequestData in Hret. rewrite Hcols, Hfind in Hret.
  unfold githubIssueCardConfigs in Hret. cbn [assembleGithubRequests] in Hret.
  destruct shortOn.
  - do 4 column_step Hret.
    destruct Hs as (news & Hnews & ->), Hs0 as (inFlight & HinFlight & ->).
    subst. cbn [listed maps app] in Hret. injection Hret as <-.
    exists resolved, news, inFlight. cbn [error requested reportData].
    do 7 (split; [done|]). f_equal.
    etrans; [apply (merged_perm _ _
               (singletons_consistent
                  [(mkField notYetStartedEmoji "New/Not Yet Started", news);
                   (mkField inFlightEmoji "In flight", inFlight)]
                  ltac:(refine (bool_decide_unpack _ _); vm_compute; exact I))
               (Hperm _))|].
    cbn [fmap list_fmap fold_left fst snd].
    rewrite !map_fold_insert_union_any, (right_id_L ∅ (∪)).
    by rewrite <- insert_union_l, (left_id_L ∅ (∪)).
  - do 4 column_step Hret.
    destruct Hs as (news & Hnews & ->), Hs0 as (inFlight & HinFlight & ->),
             Hs1 as (observing & Hobserving & ->), Hs2 as (resolvedRecords & Hrr & ->).
    cbn [listed maps app] in Hret. injection Hret as <-.
    exists resolved, news, inFlight. cbn [error requested reportData].
    do 6 (split; [done|]). exists observing, resolvedRecords.
    do 3 (split; [done|]). f_equal.
    etrans; [apply (merged_perm _ _
               (singletons_consistent
                  [(mkField notYetStartedEmoji "New/Not Yet Started", news);
                   (mkField inFlightEmoji "In flight", inFlight);
                   (mkField observingEmoji "Observing", observing);
                   (mkField resolvedEmoji "Resolved", resolvedRecords)]
                  ltac:(refine (bool_decide_unpack _ _); vm_compute; exact I))
               (Hperm _))|].
    cbn [fmap list_fmap fold_left fst snd].
    rewrite !map_fold_insert_union_any, (right_id_L ∅ (∪)).
    by rewrite <- !insert_union_l, (left_id_L ∅ (∪)).
Qed.

Lemma cardWorker_failed_detail (service : Service) (token url : string) :
  Props.detailFails service url token ->
  cardWorker service token (mkCard (Some url))
    = Returned (mkResolved [url] [mkOverview "" 0 "" ""]).
Proof.
  unfold Props.detailFails, cardWorker, requestGhIssueDetail. cbn [ContentURL].
  by destruct (service url token).
Qed.

Lemma assembleCardRequests_sent (service : Service) (token : string)
    (cards : list ProjectCard) (card : ProjectCard) (r s : Resolved) :
  card ∈ cards ->
  assembleCardRequests service token cards = Returned r ->
  cardWorker service token card = Returned s ->
  forall overview, overview ∈ sent s -> overview ∈ sent r.
Proof.
  revert r. induction cards as [|card' cards IH]; intros r Hin Hr Hs overview Hov.
  - by apply elem_of_nil in Hin.
  - cbn [assembleCardRequests] in Hr.
    destruct (cardWorker service token card') as [r1|?|?] eqn:H1; [|done..].
    destruct (assembleCardRequests service token cards) as [r2|?|?] eqn:H2; [|done..].
    injection Hr as <-. cbn [sent]. apply elem_of_app.
    apply elem_of_cons in Hin as [->|Hin].
    + left. rewrite H1 in Hs. by injection Hs as ->.
    + right. by apply (IH r2).
Qed.

(** X14.  A card whose issue cannot be fetched (the request cannot be
    built, the body cannot be read or does not decode) is not left out:
    the error is logged and the column reports a record for it with
    number 0 and empty URL, title and SIG. *)
Theorem failed_detail_is_reported_blank (client : Client) (service : Service)
    (githubToken : string)
    (arrival : list ghIssueOverview -> list ghIssueOverview)
    (cardsID : Z) (url : string) (records : list ReportDataRecord) :
  (forall sent, arrival sent ≡ₚ sent) ->
  mkCard (Some url) ∈ (ListProjectCards client cardsID).1 ->
  Props.detailFails service url githubToken ->
  Props.columnRecords client service githubToken arrival cardsID = Some records ->
  mkRecord 0 0 0 0 0 "" 0 "" "" ∈ records.
Proof.
  intros Hperm Hin Hfails. unfold Props.columnRecords.
  destruct (assembleCardRequests _ _ _) as [r|?|?] eqn:Hr; [|done..].
  intros [= <-]. apply list_elem_of_fmap. exists (mkOverview "" 0 "" "").
  split; [done|]. rewrite Hperm.
  apply (assembleCardRequests_sent service githubToken _ (mkCard (Some url)) r
           (mkResolved [url] [mkOverview "" 0 "" ""]) Hin Hr).
  - by apply cardWorker_failed_detail.
  - by apply list_elem_of_singleton.
Qed.

Lemma dataSortedAfterSigs_from (v : list ReportDataRecord)
    (acc : gmap string (list ghIssueOverview)) (sig : string) :
  fold_left
    (fun (dataSortedAfterSigs : gmap string (list ghIssueOverview)) v =>
       <[Sig v := default [] (dataSortedAfterSigs !! Sig v)
                    ++ [mkOverview (URL v) (ID v) (Title v) ""]]>
         dataSortedAfterSigs)
    v acc !! sig
  = match filter (fun r => Sig r = sig) v with
    | [] => acc !! sig
    | group =>
        Some (default [] (acc !! sig)
                ++ ((fun r => mkOverview (URL r) (ID r) (Title r) "") <$> group))
    end.
Proof.
  revert acc. induction v as [|r v IH]; intros acc; [done|].
  cbn [fold_left]. rewrite IH.
  destruct (decide (Sig r = sig)) as [Heq|Hne].
  - rewrite filter_cons_True by done. rewrite Heq, lookup_insert_eq.
    cbn [default from_option]. unfold id.
    destruct (filter _ v) as [|r' group]; cbn [fmap list_fmap].
    + done.
    + by rewrite <- (assoc_L (++)).
  - rewrite filter_cons_False by done. by rewrite lookup_insert_ne.
Qed.

(** X15.  The grouping of [Print]: under a SIG the records of the field
    with that SIG are listed, all of them and no other, in the order they
    have in the field; a SIG that no record has gets no group. *)
Theorem dataSortedAfterSigs_groups (v : list ReportDataRecord) (sig : string) :
  dataSortedAfterSigs v !! sig
  = match filter (fun r => Sig r = sig) v with
    | [] => None
    | group => Some ((fun r => mkOverview (URL r) (ID r) (Title r) "") <$> group)
    end.
Proof.
  unfold dataSortedAfterSigs. rewrite dataSortedAfterSigs_from.
  rewrite lookup_empty. by destruct (filter _ v).
Qed.

End CardReports.

Lemma findCardsID_order_independent_witness :
  exists first,
    Cards.findCardsID
      [Cards.mkColumn (Some 5) (Some "Resolved"); Cards.mkColumn (Some 2) (Some "Resolved")]
      None "Resolved" = Returned (Cards.GetID first, None) /\
    Cards.findCardsID
      [Cards.mkColumn (Some 2) (Some "Resolved"); Cards.mkColumn (Some 5) (Some "Resolved")]
      None "Resolved" = Returned (Cards.GetID first, None) /\
    Cards.GetID first = 2.
Proof.
  destruct (findCardsID_order_independent
              [Cards.mkColumn (Some 5) (Some "Resolved");
               Cards.mkColumn (Some 2) (Some "Resolved")]
              [Cards.mkColumn (Some 2) (Some "Resolved");
               Cards.mkColumn (Some 5) (Some "Resolved")]
              "Resolved" (Cards.mkColumn (Some 5) (Some "Resolved")))
    as (first & H1 & H2 & _).
  - apply perm_swap.
  - apply list_elem_of_here.
  - reflexivity.
  - exists first. split; [exact H1|]. split; [exact H2|].
    vm_compute in H1. by injection H1.
Defined.

Lemma RequestData_columns_witness :
  exists out,
    CardReport.RequestData CardReport.exampleClient Cards.exampleService "token" true
      (fun sent => sent) reverse = Returned out /\
    CardReport.error out = None /\
    CardReport.requested out
      = [CardReport.newCardsID; CardReport.underInvestigationCardsID] /\
    exists news,
      CardReport.reportData out =
        Some (<[CardReport.mkField CardReport.inFlightEmoji "In flight" := []]>
                (<[CardReport.mkField CardReport.notYetStartedEmoji
                     "New/Not Yet Started" := news]> ∅)) /\
      length news = 2%nat.
Proof.
  eexists. split; [vm_compute; reflexivity|].
  edestruct (RequestData_columns CardReport.exampleClient Cards.exampleService "token"
               true (fun sent => sent) reverse CardReport.exampleColumns
               (Cards.mkColumn (Some 4212823) (Some "Resolved")))
    as (resolved & news & inFlight & _ & _ & _ & Herr & Hnews & HinFlight & Hreq & Hdata).
  - reflexivity.
  - do 3 apply list_elem_of_further. apply list_elem_of_here.
  - reflexivity.
  - intros ms. apply reverse_Permutation.
  - vm_compute. reflexivity.
  - split; [exact Herr|]. split; [exact Hreq|].
    vm_compute in Hnews. injection Hnews as <-.
    vm_compute in HinFlight. injection HinFlight as <-.
    eexists. split; [exact Hdata|]. reflexivity.
Defined.

Lemma failed_detail_is_reported_blank_witness :
  exists records,
    Props.columnRecords CardReport.exampleClient Cards.exampleService "token"
      (fun sent => sent) CardReport.newCardsID = Some records /\
    CardReport.mkRecord 0 0 0 0 0 "" 0 "" "" ∈ records.
Proof.
  eexists. split; [vm_compute; reflexivity|].
  apply (failed_detail_is_reported_blank CardReport.exampleClient Cards.exampleService
           "token" (fun sent => sent) CardReport.newCardsID
           "https://api.github.com/repos/kubernetes/kubernetes/issues/999").
  - reflexivity.
  - do 2 apply list_elem_of_further. apply list_elem_of_here.
  - exact I.
  - vm_compute. reflexivity.
Defined.

(** ** The fields of the testgrid report *)
Section TestgridReports.
Import Testgrid TestgridReport.

Variables statusFailingEmoji statusFlakyEmoji statusNewTestEmoji : string.

Lemma requiredJobs_loop (ReleaseVersion : list string) (jobs : list testgridJob) :
  fold_left
    (fun requiredJobs r =>
       (requiredJobs ++ [mkJob (r +:+ "-blocking")
                           ("sig-release-" +:+ r +:+ "-blocking") masterBlockingEmoji])
         ++ [mkJob (r +:+ "-informing")
               ("sig-release-" +:+ r +:+ "-informing") masterInformingEmoji])
    ReleaseVersion jobs
  = jobs ++ flat_map
              (fun r => [mkJob (r +:+ "-blocking")
                           ("sig-release-" +:+ r +:+ "-blocking") masterBlockingEmoji;
                         mkJob (r +:+ "-informing")
                           ("sig-release-" +:+ r +:+ "-informing") masterInformingEmoji])
              ReleaseVersion.
Proof.
  revert jobs. induction ReleaseVersion as [|r versions IH]; intros jobs.
  - by rewrite app_nil_r.
  - cbn [fold_left flat_map]. rewrite IH, <- !(assoc_L (++)). done.
Qed.

Lemma requiredJobs_titles (ReleaseVersion : list string) :
  OutputName <$> requiredJobs ReleaseVersion = Props.expectedTitles ReleaseVersion.
Proof.
  unfold requiredJobs, Props.expectedTitles.
  destruct ReleaseVersion as [|r versions]; [done|].
  cbn [length Nat.ltb Nat.leb]. rewrite requiredJobs_loop, fmap_app. f_equal.
  generalize (r :: versions). intros l. induction l as [|x l IH]; [done|].
  cbn [flat_map fmap list_fmap app OutputName]. by rewrite <- IH.
Qed.

Lemma jobWorker_decoded (service : Service) (shortOn emojisOff : bool)
    (visit : TestgridData -> list (string * TestgridValue))
    (job : testgridJob) (jobs : TestgridData) :
  service (Props.summaryUrl job) = Decoded jobs ->
  exists details,
    jobWorker statusFailingEmoji statusFlakyEmoji statusNewTestEmoji
              service shortOn emojisOff visit job
    = Returned (mkField (JobEmoji job) (OutputName job) (getSummary jobs :: details)).
Proof.
  intros Hget. unfold jobWorker, reqTestgridSiteData.
  fold (Props.summaryUrl job). rewrite Hget. unfold dashboardWorker.
  destruct shortOn; cbn [negb].
  - by exists [].
  - rewrite detail_loop. by eexists.
Qed.

Lemma jobWorker_failed (service : Service) (shortOn emojisOff : bool)
    (visit : TestgridData -> list (string * TestgridValue))
    (job : testgridJob) (err : string) :
  Props.dashboardFails service job err ->
  jobWorker statusFailingEmoji statusFlakyEmoji statusNewTestEmoji
            service shortOn emojisOff visit job
  = Fatal ("error " +:+ err).
Proof.
  unfold Props.dashboardFails, jobWorker, reqTestgridSiteData.
  fold (Props.summaryUrl job).
  destruct (service (Props.summaryUrl job)); try done; by intros ->.
Qed.

Lemma jobWorker_cases (service : Service) (shortOn emojisOff : bool)
    (visit : TestgridData -> list (string * TestgridValue)) (job : testgridJob) :
  (exists jobs, service (Props.summaryUrl job) = Decoded jobs) \/
  (exists err, Props.dashboardFails service job err).
Proof.
  unfold Props.dashboardFails.
  destruct (service (Props.summaryUrl job)) as [e|e|e|jobs]; eauto.
Qed.

Lemma assemble_decoded (service : Service) (shortOn emojisOff : bool)
    (visit : TestgridData -> list (string * TestgridValue))
    (jobs : list testgridJob) :
  (forall job, job ∈ jobs ->
     exists data, service (Props.summaryUrl job) = Decoded data) ->
  exists fields,
    assembleTestgridRequests statusFailingEmoji statusFlakyEmoji statusNewTestEmoji
      service shortOn emojisOff visit jobs = Returned fields /\
    FieldTitle <$> fields = OutputName <$> jobs /\
    Forall (fun field =>
              exists summary details,
                Records field = summary :: details /\
                ID summary = testgridReportSummary) fields.
Proof.
  induction jobs as [|job jobs IH]; intros Hall.
  - by exists [].
  - destruct (Hall job ltac:(by left)) as [data Hdata].
    destruct (jobWorker_decoded service shortOn emojisOff visit job data Hdata)
      as [details Hworker].
    destruct IH as (fields & Hfields & Htitles & Hrecords).
    { intros j Hj. apply Hall. by right. }
    eexists. cbn [assembleTestgridRequests]. rewrite Hworker, Hfields.
    split; [done|]. cbn [fmap list_fmap FieldTitle]. rewrite Htitles.
    split; [done|]. constructor; [|done]. by exists (getSummary data), details.
Qed.

Lemma assemble_failed (service : Service) (shortOn emojisOff : bool)
    (visit : TestgridData -> list (string * TestgridValue))
    (jobs : list testgridJob) (job : testgridJob) (err : string) :
  job ∈ jobs -> Props.dashboardFails service job err ->
  exists msg,
    assembleTestgridRequests statusFailingEmoji statusFlakyEmoji statusNewTestEmoji
      service shortOn emojisOff visit jobs = Fatal msg.
Proof.
  induction jobs as [|j jobs IH]; intros Hin Hfails.
  - by apply elem_of_nil in Hin.
  - cbn [assembleTestgridRequests].
    destruct (jobWorker_cases service shortOn emojisOff visit j)
      as [[data Hdata]|[err0 Hfail0]].
    + destruct (jobWorker_decoded service shortOn emojisOff visit j data Hdata)
        as [details ->].
      apply elem_of_cons in Hin as [->|Hin].
      { unfold Props.dashboardFails in Hfails. by rewrite Hdata in Hfails. }
      destruct (IH Hin Hfails) as [msg ->]. by exists msg.
    + rewrite (jobWorker_failed service shortOn emojisOff visit j err0 Hfail0).
      by eexists.
Qed.

Lemma fatalMessages_elem (service : Service) (shortOn emojisOff : bool)
    (visit : TestgridData -> list (string * TestgridValue))
    (jobs : list testgridJob) (msg : string) :
  msg ∈ fatalMessages statusFailingEmoji statusFlakyEmoji statusNewTestEmoji
          service shortOn emojisOff visit jobs <->
  exists job err,
    job ∈ jobs /\ Props.dashboardFails service job err /\ msg = "error " +:+ err.
Proof.
  unfold fatalMessages. rewrite list_elem_of_omap. split.
  - intros (job & Hin & Hmsg).
    destruct (jobWorker_cases service shortOn emojisOff visit job)
      as [[data Hdata]|[err Hfail]].
    + destruct (jobWorker_decoded service shortOn emojisOff visit job data Hdata)
        as [details Hw]. by rewrite Hw in Hmsg.
    + rewrite (jobWorker_failed service shortOn emojisOff visit job err Hfail) in Hmsg.
      injection Hmsg as <-. by exists job, err.
  - intros (job & err & Hin & Hfail & ->). exists job. split; [done|].
    by rewrite (jobWorker_failed service shortOn emojisOff visit job err Hfail).
Qed.

(** X16.  The testgrid report is all or nothing, whatever the order in
    which the goroutines of the dashboards finish.  When every dashboard
    asked for decodes, [RequestData] hands over one field for each, two
    for the master branch and two for each release version, in the order
    they arrive, each starting with its summary record.  When the request
    for one of them fails, [RequestData] does not return: the process
    ends in [log.Fatalf] with the error of one of the failed requests. *)
Theorem RequestData_all_or_nothing (service : Service) (ReleaseVersion : list string)
    (shortOn emojisOff : bool)
    (visit : TestgridData -> list (string * TestgridValue))
    (arrival : list ReportDataField -> list ReportDataField)
    (ending : list string -> string) :
  (forall fields, arrival fields ≡ₚ fields) ->
  (forall msgs, msgs <> [] -> ending msgs ∈ msgs) ->
  ((forall job, job ∈ requiredJobs ReleaseVersion ->
      exists jobs, service (Props.summaryUrl job) = Decoded jobs) ->
   exists fields,
     RequestData statusFailingEmoji statusFlakyEmoji statusNewTestEmoji
                 service ReleaseVersion shortOn emojisOff visit arrival ending
       = Returned fields /\
     FieldTitle <$> fields ≡ₚ Props.expectedTitles ReleaseVersion /\
     length fields = (2 + 2 * length ReleaseVersion)%nat /\
     Forall (fun field =>
               exists summary details,
                 Records field = summary :: details /\
                 ID summary = testgridReportSummary) fields) /\
  (forall job err,
     job ∈ requiredJobs ReleaseVersion ->
     Props.dashboardFails service job err ->
     exists job' err',
       job' ∈ requiredJobs ReleaseVersion /\
       Props.dashboardFails service job' err' /\
       RequestData statusFailingEmoji statusFlakyEmoji statusNewTestEmoji
                   service ReleaseVersion shortOn emojisOff visit arrival ending
         = Fatal ("error " +:+ err')).
Proof.
  intros Harrival Hending. unfold RequestData.
  assert (length (Props.expectedTitles ReleaseVersion)
          = (2 + 2 * length ReleaseVersion)%nat) as Hlen.
  { unfold Props.expectedTitles. rewrite length_app. cbn [length]. f_equal.
    induction ReleaseVersion as [|r versions IH]; [done|].
    cbn [flat_map length app]. rewrite IH. lia. }
  rewrite <- requiredJobs_titles in *.
  generalize dependent (requiredJobs ReleaseVersion). intros jobs Hlen. split.
  - intros Hall.
    destruct (assemble_decoded service shortOn emojisOff visit jobs Hall)
      as (fields & -> & Htitles & Hrecords).
    exists (arrival fields). split; [done|].
    split; [by rewrite (Harrival fields), Htitles|].
    split; [|by rewrite (Harrival fields)].
    by rewrite (Harrival fields), <- (length_fmap FieldTitle), Htitles, Hlen.
  - intros job err Hin Hfails.
    destruct (assemble_failed service shortOn emojisOff visit jobs job err Hin Hfails)
      as [msg ->].
    assert (fatalMessages statusFailingEmoji statusFlakyEmoji statusNewTestEmoji
              service shortOn emojisOff visit jobs <> []) as Hne.
    { intros Hnil.
      assert (("error " +:+ err) ∈ fatalMessages statusFailingEmoji statusFlakyEmoji
                statusNewTestEmoji service shortOn emojisOff visit jobs) as Hmsg
        by (apply fatalMessages_elem; by exists job, err).
      rewrite Hnil in Hmsg. by apply elem_of_nil in Hmsg. }
    apply Hending, fatalMessages_elem in Hne as (job' & err' & Hin' & Hfails' & ->).
    by exists job', err'.
Qed.

End TestgridReports.

(** A choice of the scheduler for the examples: the message of the last
    failed request. *)
Lemma last_message_elem (msgs : list string) :
  msgs <> [] -> default "" (last msgs) ∈ msgs.
Proof.
  intros Hne. destruct (last msgs) as [msg|] eqn:Hlast.
  - apply last_Some in Hlast as [l ->]. apply elem_of_app. right.
    by apply list_elem_of_singleton.
  - by apply last_None in Hlast.
Qed.

Lemma RequestData_all_or_nothing_witness :
  (exists fields,
     TestgridReport.RequestData "[failing]" "[flaky]" "[new]"
       TestgridReport.exampleService [] false false map_to_list reverse
       (fun msgs => default "" (last msgs)) = Returned fields /\
     Testgrid.FieldTitle <$> fields ≡ₚ ["Master-Blocking"; "Master-Informing"] /\
     length fields = 2%nat) /\
  (exists job err,
     job ∈ TestgridReport.requiredJobs ["1.22"] /\
     Props.dashboardFails TestgridReport.exampleService job err /\
     TestgridReport.RequestData "[failing]" "[flaky]" "[new]"
       TestgridReport.exampleService ["1.22"] false false map_to_list reverse
       (fun msgs => default "" (last msgs)) = Fatal ("error " +:+ err)).
Proof.
  split.
  - destruct (proj1 (RequestData_all_or_nothing "[failing]" "[flaky]" "[new]"
                       TestgridReport.exampleService [] false false map_to_list
                       reverse (fun msgs => default "" (last msgs))
                       (@reverse_Permutation _) last_message_elem))
      as (fields & Hrun & Htitles & Hlen & _).
    + intros job Hin. apply list_elem_of_In in Hin.
      destruct Hin as [<-|[<-|[]]]; eexists; vm_compute; reflexivity.
    + exists fields. split; [exact Hrun|]. split; [exact Htitles|exact Hlen].
  - apply (proj2 (RequestData_all_or_nothing "[failing]" "[flaky]" "[new]"
                    TestgridReport.exampleService ["1.22"] false false map_to_list
                    reverse (fun msgs => default "" (last msgs))
                    (@reverse_Permutation _) last_message_elem)
             (Testgrid.mkJob "1.22-blocking" "sig-release-1.22-blocking"
                             TestgridReport.masterBlockingEmoji)
             "invalid character '<' looking for beginning of value").
    + do 2 apply list_elem_of_further. apply list_elem_of_here.
    + reflexivity.
Defined.

(** ** The counts in a status text *)
Section StatusText.
Import Testgrid.

Variables statusFailingEmoji statusFlakyEmoji statusNewTestEmoji : string.

Lemma app_nil_l_string (s : string) : "" +:+ s = s.
Proof. reflexivity. Qed.

Lemma count_table : forallb Props.countText (seq 0 100) = true.
Proof. vm_compute. reflexivity. Qed.

Lemma long_count_table : forallb Props.longCountText (seq 100 900) = true.
Proof. vm_compute. reflexivity. Qed.

Lemma pretty_count (n : Z) :
  0 <= n <= 99 ->
  Spec.captured (pretty n) /\ decimalValue (pretty n) = Some n.
Proof.
  intros Hn.
  pose proof (proj1 (forallb_forall _ _) count_table (Z.to_nat n)
                ltac:(apply in_seq; lia)) as Hrow.
  unfold Props.countText in Hrow. rewrite Z2Nat.id in Hrow by lia.
  destruct (pretty n) as [|a [|b [|c tail]]]; try done.
  - apply andb_true_iff in Hrow as [Ha Hv]. apply bool_decide_eq_true in Hv.
    split; [|done]. exists a. split; [done|by left].
  - apply andb_true_iff in Hrow as [Hab Hv]. apply andb_true_iff in Hab as [Ha Hb].
    apply bool_decide_eq_true in Hv.
    split; [|done]. exists a. split; [done|]. right. by exists b.
Qed.

Lemma matchOfRuns_count (R rest : string) :
  Spec.captured R -> Props.startsWithDigit rest = false \/ String.length R = 2%nat ->
  matchOfRuns (" of " +:+ R +:+ rest) = Some R.
Proof.
  intros (d & Hd & [->|(e & He & ->)]) Hrest.
  - destruct Hrest as [Hrest|Hlen]; [|done].
    change (" of " +:+ String d "" +:+ rest)
      with (String " " (String "o" (String "f" (String " " (String d rest))))).
    unfold matchOfRuns.
    change (isSpace " ") with true. cbn [Ascii.eqb Bool.eqb andb]. rewrite Hd.
    destruct rest as [|x rest]; [done|]. cbn [Props.startsWithDigit] in Hrest.
    by rewrite Hrest.
  - change (" of " +:+ String d (String e "") +:+ rest)
      with (String " " (String "o" (String "f" (String " " (String d (String e rest)))))).
    unfold matchOfRuns.
    change (isSpace " ") with true. cbn [Ascii.eqb Bool.eqb andb]. by rewrite Hd, He.
Qed.

Lemma isDigit_not_space (c : ascii) : GoStrings.isDigit c = true -> isSpace c = false.
Proof.
  unfold GoStrings.isDigit, isSpace. rewrite andb_true_iff, !N.leb_le.
  intros [? ?]. rewrite !orb_false_iff, !N.eqb_neq. lia.
Qed.

Lemma matchOfRuns_digit (c : ascii) (s : string) :
  GoStrings.isDigit c = true -> matchOfRuns (String c s) = None.
Proof.
  intros Hc. unfold matchOfRuns.
  destruct s as [|o [|f [|w2 [|d1 rest]]]]; try done.
  by rewrite (isDigit_not_space c Hc).
Qed.

Lemma matchHere_count (P R rest : string) :
  Spec.captured P -> Spec.captured R ->
  Props.startsWithDigit rest = false \/ String.length R = 2%nat ->
  matchHere (P +:+ " of " +:+ R +:+ rest) = Some (P, R).
Proof.
  intros (a & Ha & [->|(b & Hb & ->)]) HR Hrest.
  - change (String a "" +:+ " of " +:+ R +:+ rest)
      with (String a (" of " +:+ R +:+ rest)).
    unfold matchHere. rewrite Ha.
    rewrite (matchOfRuns_count R rest HR Hrest).
    change (" of " +:+ R +:+ rest) with (String " " ("of " +:+ R +:+ rest)).
    change (GoStrings.isDigit " ") with false. done.
  - change (String a (String b "") +:+ " of " +:+ R +:+ rest)
      with (String a (String b (" of " +:+ R +:+ rest))).
    unfold matchHere. rewrite Ha, Hb.
    by rewrite (matchOfRuns_count R rest HR Hrest).
Qed.

Lemma findSubmatch_here (s : string) (m : string * string) :
  matchHere s = Some m -> findSubmatch s = Some m.
Proof. intros Hm. destruct s; cbn [findSubmatch]; by rewrite Hm. Qed.

Lemma findSubmatch_skip (c : ascii) (s : string) :
  matchHere (String c s) = None -> findSubmatch (String c s) = findSubmatch s.
Proof. intros Hm. cbn [findSubmatch]. by rewrite Hm. Qed.

Lemma findSubmatch_prefix (pre s : string) :
  Props.noDigits pre = true -> findSubmatch (pre +:+ s) = findSubmatch s.
Proof.
  intros Hpre. induction pre as [|c pre IH]; [done|].
  cbn [Props.noDigits] in Hpre. apply andb_true_iff in Hpre as [Hc Hpre].
  rewrite app_cons, findSubmatch_skip; [by apply IH|].
  unfold matchHere. apply negb_true_iff in Hc. by rewrite Hc.
Qed.

Lemma findSubmatch_count (pre P R rest : string) :
  Props.noDigits pre = true -> Spec.captured P -> Spec.captured R ->
  Props.startsWithDigit rest = false \/ String.length R = 2%nat ->
  findSubmatch (pre +:+ P +:+ " of " +:+ R +:+ rest) = Some (P, R).
Proof.
  intros Hpre HP HR Hrest. rewrite findSubmatch_prefix by done.
  by apply findSubmatch_here, matchHere_count.
Qed.

Lemma counts_of_match (status P R : string) :
  findSubmatch status = Some (P, R) ->
  group (getRegexParams status) testgridRegexRecentPasses = P /\
  group (getRegexParams status) testgridRegexRecentRuns = R.
Proof.
  intros Hm. unfold group, getRegexParams. rewrite Hm.
  rewrite lookup_insert_ne, !lookup_insert_eq by done. done.
Qed.

Lemma getDetails_last_note (jobName : string) (jobData : TestgridValue)
    (jobBaseUrl : string) (emojisOff : bool) :
  last (Notes (getDetails statusFailingEmoji statusFlakyEmoji statusNewTestEmoji
                          jobName jobData jobBaseUrl emojisOff))
  = Some (group (getRegexParams (JobStatus jobData)) testgridRegexRecentPasses
            +:+ " of "
            +:+ group (getRegexParams (JobStatus jobData)) testgridRegexRecentRuns
            +:+ " passed recently").
Proof.
  unfold getDetails.
  destruct (ParseFloat _) as [passes ?], (ParseFloat _) as [runs ?].
  destruct (score _ _ _ _) as [severity emoji]. cbn [Notes].
  by rewrite last_snoc.
Qed.

(** X17.  A status text that has, after a part without digits, the
    counts [p of r] below 100 followed by something that is not a digit,
    is read back as written: the counts scored are [p] and [r], and the
    last note of the detail record is [p of r passed recently]. *)
Theorem status_counts_read_back (pre rest : string) (p r : Z)
    (jobName : string) (jobData : TestgridValue) (jobBaseUrl : string)
    (emojisOff : bool) :
  0 <= p <= 99 -> 0 <= r <= 99 ->
  Props.noDigits pre = true -> Props.startsWithDigit rest = false ->
  JobStatus jobData = pre +:+ pretty p +:+ " of " +:+ pretty r +:+ rest ->
  Spec.recentPasses (JobStatus jobData) = p /\
  Spec.recentRuns (JobStatus jobData) = r /\
  last (Notes (getDetails statusFailingEmoji statusFlakyEmoji statusNewTestEmoji
                          jobName jobData jobBaseUrl emojisOff))
  = Some (pretty p +:+ " of " +:+ pretty r +:+ " passed recently").
Proof.
  intros Hp Hr Hpre Hrest Hstatus.
  destruct (pretty_count p Hp) as [HP Hpv], (pretty_count r Hr) as [HR Hrv].
  pose proof (findSubmatch_count pre (pretty p) (pretty r) rest Hpre HP HR
                (or_introl Hrest)) as Hm.
  rewrite <- Hstatus in Hm. apply counts_of_match in Hm as [Hgp Hgr].
  rewrite getDetails_last_note.
  unfold Spec.recentPasses, Spec.recentRuns, Spec.parsedCount.
  rewrite Hgp, Hgr, Hpv, Hrv. done.
Qed.

Lemma pretty_long_count (n : Z) :
  100 <= n <= 999 ->
  exists a b c,
    pretty n = String a (String b (String c "")) /\
    GoStrings.isDigit a = true /\ GoStrings.isDigit b = true /\
    GoStrings.isDigit c = true /\
    decimalValue (String b (String c "")) = Some (n mod 100) /\
    decimalValue (String a (String b "")) = Some (n / 10).
Proof.
  intros Hn.
  pose proof (proj1 (forallb_forall _ _) long_count_table (Z.to_nat n)
                ltac:(apply in_seq; lia)) as Hrow.
  unfold Props.longCountText in Hrow. rewrite Z2Nat.id in Hrow by lia.
  destruct (pretty n) as [|a [|b [|c [|? ?]]]]; try done.
  rewrite !andb_true_iff, !bool_decide_eq_true in Hrow.
  destruct Hrow as ((((Ha & Hb) & Hc) & H1) & H2).
  by exists a, b, c.
Qed.

(** X18.  Counts of three digits are cut to two: of [p of r] with both
    counts between 100 and 999 the expression reads the last two digits
    of [p] and the first two digits of [r], so 100 of 100 is scored as 0
    of 10. *)
Theorem long_counts_are_cut (pre rest : string) (p r : Z) :
  100 <= p <= 999 -> 100 <= r <= 999 -> Props.noDigits pre = true ->
  let status := pre +:+ pretty p +:+ " of " +:+ pretty r +:+ rest in
  Spec.recentPasses status = p mod 100 /\ Spec.recentRuns status = r / 10.
Proof.
  intros Hp Hr Hpre status.
  destruct (pretty_long_count p Hp) as (a & b & c & HP & Ha & Hb & Hc & Hpv & _).
  destruct (pretty_long_count r Hr) as (d & e & f & HR & Hd & He & Hf & _ & Hrv).
  assert (findSubmatch status
          = Some (String b (String c ""), String d (String e ""))) as Hm.
  { subst status. rewrite findSubmatch_prefix by done. rewrite HP, HR.
    change (String a (String b (String c "")) +:+ " of "
              +:+ String d (String e (String f "")) +:+ rest)
      with (String a (String b (String c "") +:+ " of "
              +:+ String d (String e "") +:+ String f rest)).
    rewrite findSubmatch_skip.
    - apply findSubmatch_here, matchHere_count.
      + exists b. split; [done|]. right. by exists c.
      + exists d. split; [done|]. right. by exists e.
      + by right.
    - change (String b (String c "") +:+ " of "
                +:+ String d (String e "") +:+ String f rest)
        with (String b (String c (" of " +:+ String d (String e "") +:+ String f rest))).
      unfold matchHere. rewrite Ha, Hb.
      by rewrite (matchOfRuns_digit c), (matchOfRuns_digit b). }
  apply counts_of_match in Hm as [Hgp Hgr].
  unfold Spec.recentPasses, Spec.recentRuns, Spec.parsedCount.
  by rewrite Hgp, Hgr, Hpv, Hrv.
Qed.

End StatusText.

(** ** The sigs of a failing job *)
Section FailingSigs.
Import Testgrid.

Variables statusFailingEmoji statusFlakyEmoji statusNewTestEmoji : string.







End FailingSigs.

(** ** Printing without emoji *)
Section PrintWithoutEmoji.
Import Testgrid TestgridReport.

Variables failing1 flaky1 new1 failing2 flaky2 new2 : string.

Lemma score_severity (e1 e2 : string) (passes runs : float) :
  (score e1 new1 passes runs).1 = (score e2 new2 passes runs).1.
Proof.
  unfold score.
  by destruct (runs <=? newTestThreshhold)%float,
              (passes / runs <=? thresholdWarning)%float,
              (passes / runs <=? thresholdInfo)%float.
Qed.

Lemma getDetails_same (jobName : string) (jobData : TestgridValue)
    (jobBaseUrl : string) (off1 off2 : bool) :
  Props.sameRecord
    (getDetails failing1 flaky1 new1 jobName jobData jobBaseUrl off1)
    (getDetails failing2 flaky2 new2 jobName jobData jobBaseUrl off2).
Proof.
  unfold getDetails, Props.sameRecord.
  destruct (ParseFloat _) as [passes ?], (ParseFloat _) as [runs ?].
  pose proof (score_severity
                (if String.eqb (JobOverallStatus jobData) Failing then failing1 else flaky1)
                (if String.eqb (JobOverallStatus jobData) Failing then failing2 else flaky2)
                passes runs) as Hsev.
  destruct (score _ new1 _ _) as [severity1 emoji1],
           (score _ new2 _ _) as [severity2 emoji2].
  cbn [fst] in Hsev. subst. done.
Qed.

Lemma jobWorker_same (service : Service) (shortOn off1 off2 : bool)
    (visit : TestgridData -> list (string * TestgridValue)) (j1 j2 : testgridJob) :
  Props.sameJob j1 j2 ->
  match jobWorker failing1 flaky1 new1 service shortOn off1 visit j1,
        jobWorker failing2 flaky2 new2 service shortOn off2 visit j2 with
  | Returned f1, Returned f2 => Props.sameField f1 f2
  | Fatal m1, Fatal m2 => m1 = m2
  | _, _ => False
  end.
Proof.
  intros [Hname Hurl]. unfold jobWorker, reqTestgridSiteData. rewrite Hurl.
  destruct (service _) as [e|e|e|jobs]; try done.
  unfold dashboardWorker, Props.sameField. cbn [FieldTitle Records].
  rewrite ?Hurl.
  split; [done|]. destruct shortOn; cbn [negb].
  - constructor; [done|constructor].
  - rewrite !detail_loop. constructor; [done|].
    apply Forall2_fmap, Forall_Forall2_diag, Forall_forall.
    intros [name data] _. apply getDetails_same.
Qed.

Lemma assemble_same (service : Service) (shortOn off1 off2 : bool)
    (visit : TestgridData -> list (string * TestgridValue))
    (jobs1 jobs2 : list testgridJob) :
  Forall2 Props.sameJob jobs1 jobs2 ->
  Props.sameOutcome
    (assembleTestgridRequests failing1 flaky1 new1 service shortOn off1 visit jobs1)
    (assembleTestgridRequests failing2 flaky2 new2 service shortOn off2 visit jobs2).
Proof.
  induction 1 as [|j1 j2 jobs1 jobs2 Hjob _ IH]; cbn [assembleTestgridRequests].
  - constructor.
  - pose proof (jobWorker_same service shortOn off1 off2 visit j1 j2 Hjob) as Hw.
    destruct (jobWorker failing1 _ _ _ _ _ _ j1) as [f1|m1|m1],
             (jobWorker failing2 _ _ _ _ _ _ j2) as [f2|m2|m2]; try done.
    unfold Props.sameOutcome in IH.
    destruct (assembleTestgridRequests failing1 _ _ _ _ _ _ jobs1) as [d1|?|?],
             (assembleTestgridRequests failing2 _ _ _ _ _ _ jobs2) as [d2|?|?];
      try done.
    by constructor.
Qed.

Lemma printRecord_same (shortOn : bool) (headerLine : string)
    (r1 r2 : ReportDataRecord) :
  Props.sameRecord r1 r2 ->
  printRecord true shortOn headerLine r1 = printRecord true shortOn headerLine r2.
Proof.
  intros (Hid & Hstatus & Hsev & Htitle & Hurl & Hnotes).
  unfold printRecord. by rewrite Hid, Hstatus, Hsev, Htitle, Hurl, Hnotes.
Qed.

Lemma Print_same (shortOn : bool) (d1 d2 : list ReportDataField) :
  Forall2 Props.sameField d1 d2 -> Print true shortOn d1 = Print true shortOn d2.
Proof.
  unfold Print. induction 1 as [|f1 f2 d1 d2 [Htitle Hrecords] _ IH]; [done|].
  cbn [flat_map]. rewrite IH, Htitle. f_equal.
  induction Hrecords as [|r1 r2 rs1 rs2 Hr _ IHr]; [done|].
  cbn [flat_map]. by rewrite IHr, (printRecord_same _ _ r1 r2 Hr).
Qed.

(** X20.  With emojis off no emoji reaches the output: for two lists of
    jobs that name the same dashboards, whatever emoji the jobs carry and
    whatever the three status emoji are, the two runs end in the same
    fatal message or [Print] writes the same lines for their fields. *)
Theorem Print_without_emoji (service : Service) (shortOn : bool)
    (visit : TestgridData -> list (string * TestgridValue))
    (jobs1 jobs2 : list testgridJob) :
  Forall2 Props.sameJob jobs1 jobs2 ->
  match assembleTestgridRequests failing1 flaky1 new1 service shortOn true visit jobs1,
        assembleTestgridRequests failing2 flaky2 new2 service shortOn true visit jobs2
  with
  | Returned d1, Returned d2 => Print true shortOn d1 = Print true shortOn d2
  | Fatal m1, Fatal m2 => m1 = m2
  | _, _ => False
  end.
Proof.
  intros Hjobs.
  pose proof (assemble_same service shortOn true true visit jobs1 jobs2 Hjobs) as Hsame.
  unfold Props.sameOutcome in Hsame.
  destruct (assembleTestgridRequests failing1 _ _ _ _ _ _ jobs1) as [d1|?|?];
    [| |done];
    destruct (assembleTestgridRequests failing2 _ _ _ _ _ _ jobs2) as [d2|?|?];
    try done.
  by apply Print_same.
Qed.

End PrintWithoutEmoji.

Lemma status_counts_read_back_witness :
  let jobData :=
    Testgrid.mkValue Testgrid.Flaky "9 of 10 (90.0%) recent columns passed" [] in
  Spec.recentPasses (Testgrid.JobStatus jobData) = 9 /\
  Spec.recentRuns (Testgrid.JobStatus jobData) = 10 /\
  last (Testgrid.Notes
          (Testgrid.getDetails "[failing]" "[flaky]" "[new]" "job-05" jobData
             "https://testgrid.k8s.io/sig-release-master-blocking" false))
  = Some (pretty 9 +:+ " of " +:+ pretty 10 +:+ " passed recently").
Proof.
  apply (status_counts_read_back "[failing]" "[flaky]" "[new]"
           "" " (90.0%) recent columns passed" 9 10);
    [lia | lia | reflexivity | reflexivity | vm_compute; reflexivity].
Defined.

Lemma long_counts_are_cut_witness :
  let status :=
    "" +:+ pretty 100 +:+ " of " +:+ pretty 100
       +:+ " (100.0%) recent columns passed" in
  Spec.recentPasses status = 100 mod 100 /\ Spec.recentRuns status = 100 / 10.
Proof.
  apply (long_counts_are_cut "" " (100.0%) recent columns passed" 100 100);
    [lia | lia | reflexivity].
Defined.

Lemma Print_without_emoji_witness :
  match TestgridReport.assembleTestgridRequests "[failing]" "[flaky]" "[new]"
          TestgridReport.exampleService false true map_to_list
          [Testgrid.masterBlocking],
        TestgridReport.assembleTestgridRequests "" "" ""
          TestgridReport.exampleService false true map_to_list
          [Testgrid.mkJob "Master-Blocking" "sig-release-master-blocking" ""]
  with
  | Returned d1, Returned d2 =>
      TestgridReport.Print true false d1 = TestgridReport.Print true false d2
  | Fatal m1, Fatal m2 => m1 = m2
  | _, _ => False
  end.
Proof.
  apply (Print_without_emoji "[failing]" "[flaky]" "[new]" "" "" "").
  constructor; [split; reflexivity | constructor].
Defined.

(** ** Filtering twice, and the titles of the cards *)
Section FilterAgain.
Import Issues.

(** X21.  The filter is idempotent: filtering the issues of a filtered
    map again, in whatever order the map yields them, gives the same
    map. *)
Theorem filterGithubIssues_idempotent (issues : GithubIssues)
    (visited : list (Z * GithubIssueElement)) :
  visited ≡ₚ map_to_list (filterGithubIssues issues) ->
  filterGithubIssues visited.*2 = filterGithubIssues issues.
Proof.
  intros Hperm.
  assert (forall k v, (k, v) ∈ visited <-> filterGithubIssues issues !! k = Some v)
    as Hentry.
  { intros k v. by rewrite Hperm, elem_of_map_to_list. }
  assert (forall k v, filterGithubIssues issues !! k = Some v ->
                      Number v = k /\ issueFine v = true) as Hkept.
  { intros k v Hk.
    apply filterInto_lookup_inv in Hk as [Hk|(_ & ? & ?)];
      [by rewrite lookup_empty in Hk|done]. }
  apply map_eq. intros k. apply option_eq. intros v. split.
  - intros Hk.
    apply filterInto_lookup_inv in Hk as [Hk|(Hin & Hn & _)];
      [by rewrite lookup_empty in Hk|].
    apply list_elem_of_fmap in Hin as ([k' v'] & -> & Hin).
    apply Hentry in Hin. destruct (Hkept _ _ Hin) as [Hn' _].
    cbn [snd] in *. congruence.
  - intros Hk. destruct (Hkept _ _ Hk) as [<- Hfine].
    apply filterInto_distinct; [|  |done].
    + rewrite (filtered_keys issues visited Hperm), Hperm.
      apply NoDup_fst_map_to_list.
    + apply list_elem_of_fmap. exists (Number v, v). split; [done|]. by apply Hentry.
Qed.

End FilterAgain.

Section CardTitles.
Import Cards.

Lemma replaceFrom_skip (old new p n : string) :
  GoStrings.replaceFrom old new (String.length p) (p +:+ n)
  = GoStrings.replaceFrom old new 0 n.
Proof.
  induction p as [|c p IH]; [done|].
  rewrite app_cons. cbn [String.length GoStrings.replaceFrom]. exact IH.
Qed.

Lemma Replace_prefix (old n : string) :
  old <> "" -> GoStrings.Contains n old = false ->
  GoStrings.Replace (old +:+ n) old "" = n.
Proof.
  intros Hold Hn. unfold GoStrings.Replace.
  destruct old as [|c old]; [done|].
  pose proof (HasPrefix_app (String c old) n) as Hp.
  rewrite app_cons in *. cbn [GoStrings.replaceFrom]. rewrite Hp.
  cbn [String.length]. rewrite replaceFrom_skip.
  by rewrite replaceFrom_absent.
Qed.

(** X22.  The title of the record of a card whose issue decodes is the
    title of the issue with the tag [[Failing Test]] replaced by nothing:
    a title without the tag is reported as it is, and of a title that
    starts with the tag and has no other the rest is reported, the space
    after the tag included. *)
Theorem card_title_cleaned (service : Service) (token url : string)
    (detail : ghIssueDetail) :
  service url token = Decoded detail ->
  Spec.namelessLabelRead (Labels detail) = false ->
  exists sig,
    cardWorker service token (mkCard (Some url))
      = Returned (mkResolved [url]
          [mkOverview (HTMLURL detail) (Number detail)
             (GoStrings.Replace (DetailTitle detail) "[Failing Test]" "") sig]) /\
    (GoStrings.Contains (DetailTitle detail) "[Failing Test]" = false ->
     GoStrings.Replace (DetailTitle detail) "[Failing Test]" "" = DetailTitle detail) /\
    (forall rest,
       DetailTitle detail = "[Failing Test]" +:+ rest ->
       GoStrings.Contains rest "[Failing Test]" = false ->
       GoStrings.Replace (DetailTitle detail) "[Failing Test]" "" = rest).
Proof.
  intros Hget Hlabels.
  destruct (sigOfLabels_returns (Labels detail) "" Hlabels) as [sig Hsig].
  exists sig. split; [|split].
  - unfold cardWorker, requestGhIssueDetail. cbn [ContentURL]. rewrite Hget.
    cbn [Sig]. by rewrite Hsig.
  - apply replaceFrom_absent.
  - intros rest -> Hrest. by apply Replace_prefix.
Qed.

End CardTitles.

Lemma filterGithubIssues_idempotent_witness :
  Issues.filterGithubIssues
    (map_to_list (Issues.filterGithubIssues Issues.exampleListing)).*2
  = Issues.filterGithubIssues Issues.exampleListing.
Proof. apply filterGithubIssues_idempotent. reflexivity. Defined.

Lemma card_title_cleaned_witness :
  exists sig,
    Cards.cardWorker Cards.exampleService "token"
      (Cards.mkCard (Some "https://api.github.com/repos/kubernetes/kubernetes/issues/101"))
    = Returned (Cards.mkResolved
        ["https://api.github.com/repos/kubernetes/kubernetes/issues/101"]
        [Cards.mkOverview "https://github.com/kubernetes/kubernetes/issues/101" 101
           " pods should start" sig]).
Proof.
  destruct (card_title_cleaned Cards.exampleService "token"
              "https://api.github.com/repos/kubernetes/kubernetes/issues/101"
              (Cards.mkDetail 101 "https://github.com/kubernetes/kubernetes/issues/101"
                 "[Failing Test] pods should start"
                 [Cards.mkLabel (Some "kind/failing-test");
                  Cards.mkLabel (Some "sig/node"); Cards.mkLabel (Some "sig/cli")]))
    as (sig & Hworker & _ & Hclean).
  - reflexivity.
  - reflexivity.
  - exists sig. rewrite Hworker, (Hclean " pods should start") by reflexivity.
    reflexivity.
Defined.
